(** * playwright-mcp-framework: session manager, shutdown coordinator,
      protocol server and filesystem helper

    A shallow embedding of
      - src/utils/fs.ts            (cleanDirectory, matchesPattern),
      - src/core/processHooks.ts   (registerProcessHooks / performShutdown),
      - src/core/browserManager.ts (class BrowserManager),
      - src/mcp/server.ts          (class MCPServer),
      - src/core/config.ts         (parseBoolean, parseNumber, loadConfig),
      - the test client of the server (class McpTestClient),
    followed by the properties of the specification that concern them and
    by further properties the code has.

    Conventions.  A JavaScript string is the list of its UTF-16 code units
    ([jsstring]); source literals are written [lit "..."].  For the session
    manager the browser engine, the clock and the file system are external:
    an oracle answers each call from the history of interactions so far, and
    every interaction, log lines included, is appended to that history.  An
    [await] is a sequencing point of the state-and-exception monad [M]; one
    operation runs to completion before the next one starts.
    [cleanDirectory] runs on a finite map from paths to files and
    directories; a directory lists its entries in the order [readdir]
    gives them, together with the names whose removal fails and the error
    it fails with.  The methods of the server run in a state-and-exception
    monad of their own, [Task], over the session and the lines written on
    stdout; a request is whatever JSON value the line parsed to, and of a
    logger call the model keeps whether its message can be evaluated, since
    interpolating an object can throw.  The shutdown coordinator is a
    transition system over the events the event loop delivers to it. *)

From Stdlib Require Import ZArith NArith List Ascii String Bool Lia.
From Stdlib Require Import DecimalPos DecimalN.
From stdpp Require Import base option list gmap fin_maps.
Import ListNotations.
Local Open Scope N_scope.

(** ** JavaScript strings *)

Module Js.

Abbreviation jsstring := (list N).

Definition ch (a : ascii) : N := N_of_ascii a.

Definition lit (s : string) : jsstring := List.map ch (list_ascii_of_string s).

Definition isDigit (c : N) : bool := (ch "0" <=? c) && (c <=? ch "9").
Definition isUpper (c : N) : bool := (ch "A" <=? c) && (c <=? ch "Z").
Definition isLower (c : N) : bool := (ch "a" <=? c) && (c <=? ch "z").

(** The complement of the class [[^a-zA-Z0-9]]. *)
Definition isAlnum (c : N) : bool := isLower c || isUpper c || isDigit c.

(** Line terminators of ECMAScript: LF, CR, LS, PS.  The regular
    expression atom [.] (without the [s] flag) matches every code unit
    but these. *)
Definition isLineTerminator (c : N) : bool :=
  (c =? 10) || (c =? 13) || (c =? 8232) || (c =? 8233).

Fixpoint eqb (s t : jsstring) : bool :=
  match s, t with
  | [], [] => true
  | c :: s', d :: t' => (c =? d) && eqb s' t'
  | _, _ => false
  end.

Fixpoint startsWith (s prefix : jsstring) : bool :=
  match prefix, s with
  | [], _ => true
  | d :: prefix', c :: s' => (c =? d) && startsWith s' prefix'
  | _ :: _, [] => false
  end.

(** [String.prototype.includes]. *)
Fixpoint includes (s needle : jsstring) : bool :=
  startsWith s needle ||
  match s with
  | [] => false
  | _ :: s' => includes s' needle
  end.

(** A string used as a condition: the empty string is falsy. *)
Definition truthy (s : jsstring) : bool :=
  match s with [] => false | _ :: _ => true end.

End Js.
Import Js.

(** ** src/utils/fs.ts: matchesPattern *)

Module Glob.

(** [[.+?^${}()|[\]\\]]: the characters the first [replace] escapes. *)
Definition isEscaped (c : N) : bool :=
  existsb (N.eqb c) (lit ".+?^${}()|[]\").

(** [pattern.replace(/[.+?^${}()|[\]\\]/g, '\\$&')] *)
Definition escapeSpecial (pattern : jsstring) : jsstring :=
  flat_map (fun c => if isEscaped c then [ch "\"; c] else [c]) pattern.

(** [.replace(/\*/g, '.*')] *)
Definition starToDotStar (s : jsstring) : jsstring :=
  flat_map (fun c => if c =? ch "*" then [ch "."; ch "*"] else [c]) s.

Definition regexPattern (pattern : jsstring) : jsstring :=
  starToDotStar (escapeSpecial pattern).

(** [`^${regexPattern}$`] *)
Definition regexSource (pattern : jsstring) : jsstring :=
  lit "^" ++ regexPattern pattern ++ lit "$".

(** The fragment of the RegExp language those sources are written in:
    the two anchors, a literal code unit, an escaped syntax character,
    the atom [.], and the quantifier [*] after an atom. *)
Inductive atom := Chr (c : N) | Dot.
Inductive term := Bol | Eol | One (a : atom) | Star (a : atom).
Abbreviation regex := (list term).

Definition isSyntaxChar (c : N) : bool :=
  existsb (N.eqb c) (lit "^$\.*+?()[]{}|").

(** [new RegExp(source)] on that fragment; [None] stands for a source
    outside of it. *)
Fixpoint parse (src : jsstring) : option regex :=
  match src with
  | [] => Some []
  | c :: rest =>
    if c =? ch "^" then cons Bol <$> parse rest
    else if c =? ch "$" then cons Eol <$> parse rest
    else if c =? ch "\" then
      match rest with
      | d :: rest1 =>
        if isSyntaxChar d then
          match rest1 with
          | q :: rest2 =>
            if q =? ch "*" then cons (Star (Chr d)) <$> parse rest2
            else cons (One (Chr d)) <$> parse rest1
          | [] => cons (One (Chr d)) <$> parse rest1
          end
        else None
      | [] => None
      end
    else
      let a := if c =? ch "." then Some Dot
               else if isSyntaxChar c then None
               else Some (Chr c) in
      match a with
      | None => None
      | Some a =>
        match rest with
        | q :: rest1 =>
          if q =? ch "*" then cons (Star a) <$> parse rest1
          else cons (One a) <$> parse rest
        | [] => cons (One a) <$> parse rest
        end
      end
  end.

Definition atomMatches (a : atom) (c : N) : bool :=
  match a with
  | Chr d => c =? d
  | Dot => negb (isLineTerminator c)
  end.

(** Does [r] match a prefix of [s]?  [atStart] tells whether [s] begins at
    index 0 of the input (the only place [^] matches without the [m]
    flag); [$] matches at the end of the input only. *)
Fixpoint matchHere (r : regex) (atStart : bool) (s : jsstring) : bool :=
  match r with
  | [] => true
  | Bol :: r' => atStart && matchHere r' atStart s
  | Eol :: r' => negb (truthy s) && matchHere r' atStart s
  | One a :: r' =>
    match s with
    | c :: s' => atomMatches a c && matchHere r' false s'
    | [] => false
    end
  | Star a :: r' =>
    (fix star (s : jsstring) (atStart : bool) {struct s} : bool :=
       matchHere r' atStart s ||
       match s with
       | c :: s' => atomMatches a c && star s' false
       | [] => false
       end) s atStart
  end.

(** [regex.test(s)]: a match may start at any index. *)
Fixpoint searchFrom (r : regex) (atStart : bool) (s : jsstring) : bool :=
  matchHere r atStart s ||
  match s with
  | [] => false
  | _ :: s' => searchFrom r false s'
  end.

Definition test (r : regex) (s : jsstring) : bool := searchFrom r true s.

(** [matchesPattern(filename, pattern)]. *)
Definition matchesPattern (filename pattern : jsstring) : option bool :=
  (fun r => test r filename) <$> parse (regexSource pattern).

(** The glob language as the specification words it: [*] stands for any
    run of characters, every other character for itself. *)
Inductive GlobSpec : jsstring -> jsstring -> Prop :=
| GlobSpec_nil : GlobSpec [] []
| GlobSpec_star p run s :
    GlobSpec p s -> GlobSpec (ch "*" :: p) (run ++ s)
| GlobSpec_chr c p s :
    c <> ch "*" -> GlobSpec p s -> GlobSpec (c :: p) (c :: s).

(** The glob language the code implements: the run [*] stands for holds
    no line terminator. *)
Inductive Glob : jsstring -> jsstring -> Prop :=
| Glob_nil : Glob [] []
| Glob_star p run s :
    Forall (fun c => isLineTerminator c = false) run ->
    Glob p s -> Glob (ch "*" :: p) (run ++ s)
| Glob_chr c p s :
    c <> ch "*" -> Glob p s -> Glob (c :: p) (c :: s).

(** An executable version of [Glob]. *)
Fixpoint globMatch (p s : jsstring) : bool :=
  match p with
  | [] => negb (truthy s)
  | c :: p' =>
    if c =? ch "*" then
      (fix star (s : jsstring) : bool :=
         globMatch p' s ||
         match s with
         | d :: s' => negb (isLineTerminator d) && star s'
         | [] => false
         end) s
    else
      match s with
      | d :: s' => (d =? c) && globMatch p' s'
      | [] => false
      end
  end.

(** What a pattern character becomes in the regular expression. *)
Definition encode (c : N) : jsstring :=
  if isEscaped c then [ch "\"; c]
  else if c =? ch "*" then [ch "."; ch "*"]
  else [c].

(** What a pattern character stands for. *)
Definition globTerm (c : N) : term :=
  if c =? ch "*" then Star Dot else One (Chr c).

(** The string does not begin with the quantifier. *)
Definition noStarHead (s : jsstring) : Prop :=
  match s with
  | c :: _ => c <> ch "*"
  | [] => True
  end.

End Glob.

(** ** Exceptions *)

#[local] Set Warnings "-register-all,-abstract-large-number".

(** A JavaScript [Error]: its message, the [code] Node.js sets on system
    errors, and the [cause] given to the constructor. *)
Inductive Error :=
| MkError (message : jsstring) (code : option jsstring) (cause : option Error).

Definition message (e : Error) : jsstring :=
  match e with MkError m _ _ => m end.

Definition code (e : Error) : option jsstring :=
  match e with MkError _ c _ => c end.

Definition cause (e : Error) : option Error :=
  match e with MkError _ _ c => c end.

(** [new Error(msg)] and [new Error(msg, { cause })]. *)
Definition newError (msg : jsstring) : Error := MkError msg None None.
Definition newErrorCause (msg : jsstring) (c : Error) : Error :=
  MkError msg None (Some c).

(** ** src/utils/fs.ts: cleanDirectory *)

Module Fs.

(** What a [Dirent] answers to [isFile()] and [isDirectory()]; [KOther]
    is a symbolic link, socket, device and the like. *)
Inductive Kind := KFile | KDir | KOther.

Definition isFile (k : Kind) : bool :=
  match k with KFile => true | _ => false end.

(** A path names a file or a directory.  A directory has its entries, in
    the order [readdir] reports them, and the names whose [unlink] fails,
    each with the error it fails with: a file that may not be removed
    (EACCES, EPERM, EBUSY), a name that [readdir] reports and [unlink]
    does not find (ENOENT).  An entry is addressed by the directory's
    path and the entry's name, which is what
    [path.join(dirPath, entry.name)] denotes.  A name occurs once in a
    directory: of two entries with one name the first is the
    directory's. *)
Inductive Node :=
| NFile
| NDir (entries : list (jsstring * Kind)) (denied : gmap jsstring Error).

Abbreviation Fs := (gmap jsstring Node).

Definition ENOENT : Error :=
  MkError (lit "ENOENT: no such file or directory") (Some (lit "ENOENT")) None.
Definition EISDIR : Error :=
  MkError (lit "EISDIR: illegal operation on a directory") (Some (lit "EISDIR")) None.
Definition ENOTDIR : Error :=
  MkError (lit "ENOTDIR: not a directory") (Some (lit "ENOTDIR")) None.
Definition EACCES : Error :=
  MkError (lit "EACCES: permission denied") (Some (lit "EACCES")) None.
Definition SyntaxError : Error :=
  newError (lit "Invalid regular expression").

(** The kind of the entry called [name]. *)
Fixpoint kindOf (name : jsstring) (entries : list (jsstring * Kind))
  : option Kind :=
  match entries with
  | [] => None
  | (n, k) :: rest => if decide (n = name) then Some k else kindOf name rest
  end.

(** The entries without those called [name]. *)
Definition without (name : jsstring) (entries : list (jsstring * Kind))
  : list (jsstring * Kind) :=
  filter (fun e => fst e <> name) entries.

(** The entries of a directory, each name once. *)
Fixpoint listing (entries : list (jsstring * Kind))
  : list (jsstring * Kind) :=
  match entries with
  | [] => []
  | (n, k) :: rest => (n, k) :: without n (listing rest)
  end.

(** [pathExists(filePath)] *)
Definition pathExists (filePath : jsstring) (fs : Fs) : bool :=
  match fs !! filePath with Some _ => true | None => false end.

(** [(await fs.promises.stat(p)).isDirectory()] *)
Definition statIsDirectory (p : jsstring) (fs : Fs) : Error + bool :=
  match fs !! p with
  | Some (NDir _ _) => inr true
  | Some NFile => inr false
  | None => inl ENOENT
  end.

(** [fs.promises.readdir(dirPath, { withFileTypes: true })] *)
Definition readdir (dirPath : jsstring) (fs : Fs)
  : Error + list (jsstring * Kind) :=
  match fs !! dirPath with
  | Some (NDir entries _) => inr (listing entries)
  | Some NFile => inl ENOTDIR
  | None => inl ENOENT
  end.

(** [fs.promises.unlink(path.join(dirPath, name))] *)
Definition unlink (dirPath name : jsstring) (fs : Fs) : Error + Fs :=
  match fs !! dirPath with
  | Some (NDir entries denied) =>
    match denied !! name with
    | Some e => inl e
    | None =>
      match kindOf name entries with
      | Some KDir => inl EISDIR
      | Some _ => inr (<[dirPath := NDir (without name entries) denied]> fs)
      | None => inl ENOENT
      end
    end
  | Some NFile => inl ENOTDIR
  | None => inl ENOENT
  end.

(** The [for (const entry of entries)] loop; an exception leaves it. *)
Fixpoint cleanLoop (dirPath : jsstring) (pattern : option jsstring)
    (entries : list (jsstring * Kind)) (deletedCount : nat) (fs : Fs)
  : (Error + nat) * Fs :=
  match entries with
  | [] => (inr deletedCount, fs)
  | (name, kind) :: rest =>
    if isFile kind then
      let matches :=
        match pattern with
        | Some p => if truthy p then Glob.matchesPattern name p else Some true
        | None => Some true
        end in
      match matches with
      | None => (inl SyntaxError, fs)
      | Some false => cleanLoop dirPath pattern rest deletedCount fs
      | Some true =>
        match unlink dirPath name fs with
        | inl e => (inl e, fs)
        | inr fs' => cleanLoop dirPath pattern rest (S deletedCount) fs'
        end
      end
    else cleanLoop dirPath pattern rest deletedCount fs
  end.

Definition isENOENT (e : Error) : bool :=
  match code e with
  | Some c => Js.eqb c (lit "ENOENT")
  | None => false
  end.

(** The [catch] of [cleanDirectory]. *)
Definition catchENOENT (r : (Error + nat) * Fs) : (Error + nat) * Fs :=
  match r with
  | (inl e, fs) => if isENOENT e then (inr 0%nat, fs) else (inl e, fs)
  | _ => r
  end.

(** [cleanDirectory(dirPath, pattern?)] *)
Definition cleanDirectory (dirPath : jsstring) (pattern : option jsstring)
    (fs : Fs) : (Error + nat) * Fs :=
  catchENOENT
    (if negb (pathExists dirPath fs) then (inr 0%nat, fs)
     else
       match statIsDirectory dirPath fs with
       | inl e => (inl e, fs)
       | inr false =>
         (inl (newError (lit "Path is not a directory: " ++ dirPath)), fs)
       | inr true =>
         match readdir dirPath fs with
         | inl e => (inl e, fs)
         | inr entries => cleanLoop dirPath pattern entries 0%nat fs
         end
       end).

(** The entries [cleanDirectory] tries to delete: the regular files, all
    of them when the pattern is missing or empty, those whose name
    matches it otherwise. *)
Definition selected (pattern : option jsstring) (entry : jsstring * Kind)
  : bool :=
  isFile (snd entry) &&
  match pattern with
  | Some p => if truthy p then Glob.globMatch p (fst entry) else true
  | None => true
  end.

(** What a run of the loop over [entries] comes to: the names it
    deletes, and the error of the [unlink] it stops at, if one fails. *)
Fixpoint sweep (pattern : option jsstring) (denied : gmap jsstring Error)
    (entries : list (jsstring * Kind)) : list jsstring * option Error :=
  match entries with
  | [] => ([], None)
  | (name, kind) :: rest =>
    if selected pattern (name, kind) then
      match denied !! name with
      | Some e => ([], Some e)
      | None =>
        let '(names, stop) := sweep pattern denied rest in
        (name :: names, stop)
      end
    else sweep pattern denied rest
  end.

(** The entries that are left when those called one of [names] are
    gone. *)
Definition remaining (names : list jsstring)
    (entries : list (jsstring * Kind)) : list (jsstring * Kind) :=
  filter (fun e => fst e ∉ names) entries.

End Fs.

(** ** src/core/processHooks.ts *)

Module Hooks.

Definition SHUTDOWN_TIMEOUT_MS : Z := 5000.

Module ExitCode.
Definition SUCCESS : Z := 0.
Definition ERROR : Z := 1.
Definition SIGINT : Z := 130.
End ExitCode.

(** What the four handlers of [registerProcessHooks] listen to. *)
Inductive Trigger := SIGINT | SIGTERM | UncaughtException | UnhandledRejection.

(** The module-level variables [isShuttingDown] and [shutdownTimeout], and
    of the Node.js process what the handlers touch: [process.exitCode], the
    promise of [shutdownFn()] a [performShutdown] awaits, and the code
    [process.exit] was called with.  A pending timer and a pending cleanup
    remember the [exitCode] argument of the [performShutdown] call that
    created them. *)
Record Process := {
  isShuttingDown : bool;
  shutdownTimeout : option Z;
  cleanupPending : option Z;
  exitCodeField : option Z;
  exited : option Z
}.

Definition initial : Process :=
  {| isShuttingDown := false; shutdownTimeout := None;
     cleanupPending := None; exitCodeField := None; exited := None |}.

(** [process.exit(code)] *)
Definition processExit (c : Z) (p : Process) : Process :=
  {| isShuttingDown := isShuttingDown p; shutdownTimeout := shutdownTimeout p;
     cleanupPending := cleanupPending p; exitCodeField := exitCodeField p;
     exited := Some c |}.

(** [if (shutdownTimeout) { clearTimeout(shutdownTimeout); shutdownTimeout = null; }] *)
Definition clearShutdownTimeout (p : Process) : Process :=
  {| isShuttingDown := isShuttingDown p; shutdownTimeout := None;
     cleanupPending := cleanupPending p; exitCodeField := exitCodeField p;
     exited := exited p |}.

(** [process.exitCode = c] *)
Definition setExitCodeField (c : Z) (p : Process) : Process :=
  {| isShuttingDown := isShuttingDown p; shutdownTimeout := shutdownTimeout p;
     cleanupPending := cleanupPending p; exitCodeField := Some c;
     exited := exited p |}.

(** [performShutdown(signal, exitCode)] up to its [await shutdownFn()]. *)
Definition performShutdown (exitCode : Z) (p : Process) : Process :=
  if isShuttingDown p then p
  else
    {| isShuttingDown := true; shutdownTimeout := Some exitCode;
       cleanupPending := Some exitCode; exitCodeField := exitCodeField p;
       exited := exited p |}.

(** The rest of [performShutdown]: [shutdownFn()] fulfilled ... *)
Definition cleanupResolved (p : Process) : Process :=
  match cleanupPending p with
  | Some exitCode => processExit exitCode (clearShutdownTimeout p)
  | None => p
  end.

(** ... or rejected (the [catch] block). *)
Definition cleanupRejected (p : Process) : Process :=
  match cleanupPending p with
  | Some _ => processExit ExitCode.ERROR (clearShutdownTimeout p)
  | None => p
  end.

(** The callback given to [setTimeout]. *)
Definition timerFired (p : Process) : Process :=
  match shutdownTimeout p with
  | Some exitCode => processExit exitCode p
  | None => p
  end.

(** The handlers registered with [process.on]. *)
Definition handler (t : Trigger) (p : Process) : Process :=
  match t with
  | SIGINT => performShutdown ExitCode.SIGINT p
  | SIGTERM => performShutdown ExitCode.SUCCESS p
  | UncaughtException =>
    performShutdown ExitCode.ERROR (setExitCodeField ExitCode.ERROR p)
  | UnhandledRejection =>
    performShutdown ExitCode.ERROR (setExitCodeField ExitCode.ERROR p)
  end.

(** What the event loop can deliver to the coordinator. *)
Inductive Event :=
| Raise (t : Trigger)
| CleanupResolved
| CleanupRejected
| TimerFired.

(** One turn of the event loop; nothing runs once the process has exited. *)
Definition step (p : Process) (ev : Event) : Process :=
  match exited p with
  | Some _ => p
  | None =>
    match ev with
    | Raise t => handler t p
    | CleanupResolved => cleanupResolved p
    | CleanupRejected => cleanupRejected p
    | TimerFired => timerFired p
    end
  end.

Definition run (p : Process) (evs : list Event) : Process :=
  fold_left step evs p.

(** [isShutdownInProgress()] *)
Definition isShutdownInProgress (p : Process) : bool := isShuttingDown p.

(** The exit code table of the specification, for a trigger whose cleanup
    succeeds. *)
Definition triggerCode (t : Trigger) : Z :=
  match t with
  | SIGINT => 130
  | SIGTERM => 0
  | UncaughtException => 1
  | UnhandledRejection => 1
  end.

End Hooks.

(** ** Numbers and dates as text *)

Module Fmt.

Fixpoint uintDigits (u : Decimal.uint) : jsstring :=
  match u with
  | Decimal.Nil => []
  | Decimal.D0 u => ch "0" :: uintDigits u
  | Decimal.D1 u => ch "1" :: uintDigits u
  | Decimal.D2 u => ch "2" :: uintDigits u
  | Decimal.D3 u => ch "3" :: uintDigits u
  | Decimal.D4 u => ch "4" :: uintDigits u
  | Decimal.D5 u => ch "5" :: uintDigits u
  | Decimal.D6 u => ch "6" :: uintDigits u
  | Decimal.D7 u => ch "7" :: uintDigits u
  | Decimal.D8 u => ch "8" :: uintDigits u
  | Decimal.D9 u => ch "9" :: uintDigits u
  end.

(** [String(n)] for a natural number, an integer, a boolean. *)
Definition showN (n : N) : jsstring := uintDigits (N.to_uint n).

Definition showZ (z : Z) : jsstring :=
  if (z <? 0)%Z then ch "-" :: showN (Z.abs_N z) else showN (Z.abs_N z).

Definition showBool (b : bool) : jsstring :=
  if b then lit "true" else lit "false".

(** [s.padStart(w, '0')] *)
Definition padStart (w : nat) (s : jsstring) : jsstring :=
  repeat (ch "0") (w - length s) ++ s.

(** A [Date], by its UTC fields. *)
Record DateUTC := {
  year : Z;
  month : N;
  day : N;
  hours : N;
  minutes : N;
  seconds : N;
  milliseconds : N
}.

(** The fields of a date the runtime can hand out. *)
Definition wfDate (d : DateUTC) : Prop :=
  (0 <= year d <= 9999)%Z /\ month d < 100 /\ day d < 100 /\
  hours d < 100 /\ minutes d < 100 /\ seconds d < 100 /\
  milliseconds d < 1000.

Definition isoYear (y : Z) : jsstring :=
  if ((0 <=? y) && (y <=? 9999))%Z then padStart 4 (showN (Z.abs_N y))
  else (if (y <? 0)%Z then ch "-" else ch "+") :: padStart 6 (showN (Z.abs_N y)).

(** [Date.prototype.toISOString]: [YYYY-MM-DDTHH:mm:ss.sssZ]. *)
Definition toISOString (d : DateUTC) : jsstring :=
  isoYear (year d) ++ lit "-" ++ padStart 2 (showN (month d)) ++ lit "-" ++
  padStart 2 (showN (day d)) ++ lit "T" ++ padStart 2 (showN (hours d)) ++
  lit ":" ++ padStart 2 (showN (minutes d)) ++ lit ":" ++
  padStart 2 (showN (seconds d)) ++ lit "." ++
  padStart 3 (showN (milliseconds d)) ++ lit "Z".

(** The timestamp as the specification words it: the ISO 8601 date and
    time with neither dashes, colons nor milliseconds,
    [YYYYMMDDTHHmmssZ]. *)
Definition compactTimestamp (d : DateUTC) : jsstring :=
  padStart 4 (showN (Z.abs_N (year d))) ++ padStart 2 (showN (month d)) ++
  padStart 2 (showN (day d)) ++ lit "T" ++ padStart 2 (showN (hours d)) ++
  padStart 2 (showN (minutes d)) ++ padStart 2 (showN (seconds d)) ++ lit "Z".

(** [.replace(/[-:]/g, '')] *)
Definition removeDashColon (s : jsstring) : jsstring :=
  List.filter (fun c => negb ((c =? ch "-") || (c =? ch ":"))) s.

(** [.replace(/\.\d{3}/, '')]: the first match only. *)
Fixpoint removeMillis (s : jsstring) : jsstring :=
  match s with
  | [] => []
  | c :: s' =>
    match s' with
    | d1 :: d2 :: d3 :: rest =>
      if (c =? ch ".") && isDigit d1 && isDigit d2 && isDigit d3 then rest
      else c :: removeMillis s'
    | _ => c :: removeMillis s'
    end
  end.

(** [.replace(/[^a-zA-Z0-9]+/g, '_')]; [inRun] tells that the code unit
    before was part of the run being replaced. *)
Fixpoint replaceRuns (inRun : bool) (s : jsstring) : jsstring :=
  match s with
  | [] => []
  | c :: s' =>
    if isAlnum c then c :: replaceRuns false s'
    else if inRun then replaceRuns true s'
    else ch "_" :: replaceRuns true s'
  end.

Fixpoint stripLeading (s : jsstring) : jsstring :=
  match s with
  | c :: s' => if c =? ch "_" then stripLeading s' else s
  | [] => []
  end.

Definition stripTrailing (s : jsstring) : jsstring :=
  rev (stripLeading (rev s)).

(** [.replace(/^_+|_+$/g, '')] *)
Definition stripUnderscores (s : jsstring) : jsstring :=
  stripTrailing (stripLeading s).

End Fmt.
Import Fmt.

(** ** src/core/browserManager.ts *)

Module BrowserManager.

(** Handles of the engine: a [Browser], a [BrowserContext], a [Page]. *)
Abbreviation handle := N.

(** [page.locator(selector)], and [.first()] of it: a description of
    elements, resolved by the engine when an action runs. *)
Record Locator := {
  locPage : handle;
  locSelector : jsstring;
  locFirst : bool
}.

Definition locator (p : handle) (selector : jsstring) : Locator :=
  {| locPage := p; locSelector := selector; locFirst := false |}.

Definition first (l : Locator) : Locator :=
  {| locPage := locPage l; locSelector := locSelector l; locFirst := true |}.

Record Box := { x : Z; y : Z; width : Z; height : Z }.

Inductive WaitState := Attached | Visible.

Inductive LogLevel := DEBUG | INFO | WARN | ERROR.

(** Calls into the engine and the file system that answer nothing or
    throw. *)
Inductive Action :=
| Mkdir (dirPath : jsstring)
| Goto (p : handle) (url : jsstring)
| WaitFor (l : Locator) (state : WaitState) (timeout : Z)
| Click (l : Locator) (timeout : Z)
| Clear (l : Locator) (timeout : Z)
| Fill (l : Locator) (text : jsstring) (timeout : Z)
| ClosePage (p : handle)
| CloseContext (c : handle)
| CloseBrowser (b : handle).

(** The interactions of the session manager with the outside, each with
    the answer it got. *)
Inductive Event :=
| Log (level : LogLevel) (msg : jsstring)
| ConsoleError (msg : jsstring) (e : Error)
| DateNow (t : Z)
| NewDate (d : DateUTC)
| Stat (path : jsstring) (r : Error + bool)
| Did (a : Action) (r : option Error)
| ChromiumLaunch (headless : bool) (slowMo : Z) (r : Error + handle)
| NewContext (b : handle) (viewportWidth viewportHeight : Z) (r : Error + handle)
| NewPage (c : handle) (r : Error + handle)
| SetDefaultTimeout (p : handle) (timeout : Z)
| Title (p : handle) (r : Error + jsstring)
| Url (p : handle) (r : jsstring)
| TagName (l : Locator) (r : Error + jsstring)
| InnerText (l : Locator) (r : Error + jsstring)
| BoundingBox (l : Locator) (r : Error + option Box)
| PageScreenshot (p : handle) (path : option jsstring) (fullPage : bool)
    (r : Error + list N).

(** The outside world: every answer is a function of the interactions so
    far.  [inl e] and [Some e] are a rejected promise or a thrown
    exception. *)
Record Engine := {
  dateNow : list Event -> Z;
  newDate : list Event -> DateUTC;
  stat : list Event -> jsstring -> Error + bool;
  perform : list Event -> Action -> option Error;
  chromiumLaunch : list Event -> bool -> Z -> Error + handle;
  newContext : list Event -> handle -> Error + handle;
  newPage : list Event -> handle -> Error + handle;
  pageTitle : list Event -> handle -> Error + jsstring;
  pageUrl : list Event -> handle -> jsstring;
  tagName : list Event -> Locator -> Error + jsstring;
  innerText : list Event -> Locator -> Error + jsstring;
  boundingBox : list Event -> Locator -> Error + option Box;
  pageScreenshot :
    list Event -> handle -> option jsstring -> bool -> Error + list N
}.

(** Node.js library functions the class uses. *)
Record NodeLib := {
  isAbsolute : jsstring -> bool;
  resolve : jsstring -> jsstring -> jsstring;
  join : jsstring -> jsstring -> jsstring;
  dirname : jsstring -> jsstring;
  cwd : jsstring;
  base64 : list N -> jsstring
}.

(** src/core/config.ts, [BrowserConfig]. *)
Record Config := {
  headless : bool;
  slowMoMs : Z;
  defaultTimeoutMs : Z;
  screenshotDir : jsstring
}.

Record LaunchOptions := {
  optHeadless : option bool;
  optSlowMoMs : option Z
}.

Record ClickOptions := { clickTimeoutMs : option Z }.

Record TypeOptions := {
  typeTimeoutMs : option Z;
  typeClear : option bool
}.

Record ScreenshotOptions := {
  shotPath : option jsstring;
  shotFullPage : option bool;
  shotReturnBase64 : option bool
}.

(** [Buffer | string] *)
Inductive Shot := ShotBuffer (bytes : list N) | ShotBase64 (s : jsstring).

Record ElementInfo := {
  infoSelector : jsstring;
  infoFound : bool;
  infoTag : option jsstring;
  infoText : option jsstring;
  infoBoundingBox : option Box
}.

(** The private fields of the class. *)
Record Manager := {
  browser : option handle;
  context : option handle;
  page : option handle;
  isShuttingDown : bool
}.

Definition empty : Manager :=
  {| browser := None; context := None; page := None; isShuttingDown := false |}.

Record State := {
  manager : Manager;
  history : list Event
}.

(** Computations that read and write the fields, talk to the outside and
    may throw. *)
Definition M (A : Type) : Type := State -> (Error + A) * State.

Definition ret {A} (a : A) : M A := fun s => (inr a, s).

Definition bind {A B} (m : M A) (k : A -> M B) : M B :=
  fun s =>
    match m s with
    | (inl e, s') => (inl e, s')
    | (inr a, s') => k a s'
    end.

Definition throw {A} (e : Error) : M A := fun s => (inl e, s).

(** [try { m } catch (e) { h e }] *)
Definition tryCatch {A} (m : M A) (h : Error -> M A) : M A :=
  fun s =>
    match m s with
    | (inl e, s') => h e s'
    | (inr a, s') => (inr a, s')
    end.

(** [try { m } finally { f }] *)
Definition tryFinally {A} (m : M A) (f : M unit) : M A :=
  fun s =>
    match m s with
    | (r, s') =>
      match f s' with
      | (inl e, s'') => (inl e, s'')
      | (inr _, s'') => (r, s'')
      end
    end.

#[global] Instance M_ret : MRet M := @ret.
#[global] Instance M_bind : MBind M := fun A B k m => bind m k.

Definition getManager : M Manager := fun s => (inr (manager s), s).

Definition setManager (f : Manager -> Manager) : M unit :=
  fun s => (inr tt, {| manager := f (manager s); history := history s |}).

Definition setBrowser (v : option handle) : M unit :=
  setManager (fun m => {| browser := v; context := context m; page := page m;
                          isShuttingDown := isShuttingDown m |}).

Definition setContext (v : option handle) : M unit :=
  setManager (fun m => {| browser := browser m; context := v; page := page m;
                          isShuttingDown := isShuttingDown m |}).

Definition setPage (v : option handle) : M unit :=
  setManager (fun m => {| browser := browser m; context := context m; page := v;
                          isShuttingDown := isShuttingDown m |}).

Definition setIsShuttingDown (v : bool) : M unit :=
  setManager (fun m => {| browser := browser m; context := context m;
                          page := page m; isShuttingDown := v |}).

Definition record (ev : Event) (s : State) : State :=
  {| manager := manager s; history := history s ++ [ev] |}.

(** An interaction that always answers. *)
Definition ask {R} (answer : list Event -> R) (ev : R -> Event) : M R :=
  fun s => let r := answer (history s) in (inr r, record (ev r) s).

(** An interaction that answers or throws. *)
Definition call {R} (answer : list Event -> Error + R)
    (ev : Error + R -> Event) : M R :=
  fun s => let r := answer (history s) in (r, record (ev r) s).

Definition emit (ev : Event) : M unit := fun s => (inr tt, record ev s).

Definition dq : N := 34.

(** [`"${s}"`] *)
Definition quoted (s : jsstring) : jsstring := dq :: s ++ [dq].

Section Operations.

Context (cfg : Config) (lib : NodeLib) (E : Engine).

Definition doAction (a : Action) : M unit :=
  fun s =>
    let r := perform E (history s) a in
    (match r with Some e => inl e | None => inr tt end, record (Did a r) s).

(** [logger.debug], [logger.info], [logger.warn], [logger.error] *)
Definition logger (level : LogLevel) (msg : jsstring) : M unit :=
  emit (Log level msg).

(** src/utils/fs.ts, [resolveAbsolute] *)
Definition resolveAbsolute (filePath : jsstring) : jsstring :=
  if isAbsolute lib filePath then filePath
  else resolve lib (cwd lib) filePath.

(** src/utils/fs.ts, [ensureDir] *)
Definition ensureDir (dirPath : jsstring) : M unit :=
  tryCatch
    (isDirectory ← call (fun h => stat E h dirPath) (Stat dirPath);
     if negb isDirectory
     then throw (newError (lit "Path exists but is not a directory: " ++ dirPath))
     else ret tt)
    (fun error =>
       if Fs.isENOENT error then doAction (Mkdir dirPath) else throw error).

Definition isLaunched : M bool :=
  m ← getManager;
  ret (match browser m, page m with Some _, Some _ => true | _, _ => false end).

Definition getPage : M (option handle) := m ← getManager; ret (page m).
Definition getContext : M (option handle) := m ← getManager; ret (context m).
Definition getBrowser : M (option handle) := m ← getManager; ret (browser m).

Definition ensureLaunched (operation : jsstring) : M unit :=
  m ← getManager;
  match browser m, page m with
  | Some _, Some _ => ret tt
  | _, _ =>
    throw (newError (lit "Cannot " ++ operation ++
                     lit ": Browser is not launched. Call launch() first."))
  end.

(** [this.page!]: using a null page is a [TypeError]. *)
Definition thePage : M handle :=
  m ← getManager;
  match page m with
  | Some p => ret p
  | None => throw (newError (lit "Cannot read properties of null"))
  end.

Definition screenshot (options : option ScreenshotOptions) : M Shot :=
  ensureLaunched (lit "screenshot");;
  let fullPage := default false (options ≫= shotFullPage) in
  let returnBase64 := default false (options ≫= shotReturnBase64) in
  screenshotPath ←
    match options ≫= shotPath with
    | Some path =>
      if truthy path then
        let screenshotPath := resolveAbsolute path in
        ensureDir (dirname lib screenshotPath);;
        ret (Some screenshotPath)
      else ret None
    | None => ret None
    end;
  p ← thePage;
  buffer ← call (fun h => pageScreenshot E h p screenshotPath fullPage)
                (PageScreenshot p screenshotPath fullPage);
  if returnBase64 then ret (ShotBase64 (base64 lib buffer))
  else ret (ShotBuffer buffer).

Definition timestampOf (now : DateUTC) : jsstring :=
  removeMillis (removeDashColon (toISOString now)).

Definition safeNameOf (stepName : jsstring) : jsstring :=
  stripUnderscores (replaceRuns false stepName).

Definition buildErrorScreenshotName (stepName : jsstring) : M jsstring :=
  now ← ask (newDate E) NewDate;
  let timestamp := timestampOf now in
  let safeName := safeNameOf stepName in
  ret (lit "error-" ++ timestamp ++ lit "-" ++ safeName ++ lit ".png").

Definition errorScreenshotOptions (screenshotPath : jsstring)
  : ScreenshotOptions :=
  {| shotPath := Some screenshotPath; shotFullPage := Some true;
     shotReturnBase64 := None |}.

Definition captureErrorScreenshot (stepName : jsstring) : M unit :=
  tryCatch
    (m ← getManager;
     match page m with
     | None =>
       logger DEBUG (lit "Cannot capture error screenshot: No page available")
     | Some _ =>
       filename ← buildErrorScreenshotName stepName;
       let screenshotPath := join lib (screenshotDir cfg) filename in
       screenshot (Some (errorScreenshotOptions screenshotPath));;
       logger INFO (lit "Error screenshot saved: " ++ screenshotPath)
     end)
    (fun screenshotError =>
       logger DEBUG (lit "Failed to capture error screenshot: " ++
                     message screenshotError)).

Definition runStep {T} (stepName : jsstring) (fn : M T) : M T :=
  startTime ← ask (dateNow E) DateNow;
  logger INFO (lit "Starting: " ++ stepName);;
  tryCatch
    (result ← fn;
     endTime ← ask (dateNow E) DateNow;
     let duration := (endTime - startTime)%Z in
     logger INFO (lit "Completed: " ++ stepName ++ lit " (" ++
                  showZ duration ++ lit "ms)");;
     ret result)
    (fun error =>
       endTime ← ask (dateNow E) DateNow;
       let duration := (endTime - startTime)%Z in
       logger ERROR (lit "Failed: " ++ stepName ++ lit " (" ++
                     showZ duration ++ lit "ms) - " ++ message error);;
       captureErrorScreenshot stepName;;
       throw error).

(** The state in which [runStep] starts [fn]. *)
Definition entered (stepName : jsstring) (s : State) : State :=
  record (Log INFO (lit "Starting: " ++ stepName))
    (record (DateNow (dateNow E (history s))) s).

(** The state in which [runStep] returns, when [fn] returned in state
    [s2]. *)
Definition completed (stepName : jsstring) (s s2 : State) : State :=
  record (Log INFO (lit "Completed: " ++ stepName ++ lit " (" ++
                    showZ (dateNow E (history s2) - dateNow E (history s)) ++
                    lit "ms)"))
    (record (DateNow (dateNow E (history s2))) s2).

(** The state in which [runStep] calls [captureErrorScreenshot], when
    [fn] threw [error] in state [s2]. *)
Definition failed (stepName : jsstring) (s : State) (error : Error)
    (s2 : State) : State :=
  record (Log ERROR (lit "Failed: " ++ stepName ++ lit " (" ++
                     showZ (dateNow E (history s2) - dateNow E (history s)) ++
                     lit "ms) - " ++ message error))
    (record (DateNow (dateNow E (history s2))) s2).

Definition AlreadyLaunchedError : Error :=
  newError (lit "Browser is already launched. Call quit() before launching again.").

Definition launch (options : option LaunchOptions) : M unit :=
  runStep (lit "launch")
    (m ← getManager;
     match browser m with
     | Some _ => throw AlreadyLaunchedError
     | None =>
       let headless := default (headless cfg) (options ≫= optHeadless) in
       let slowMo := default (slowMoMs cfg) (options ≫= optSlowMoMs) in
       logger DEBUG (lit "Launch options: headless=" ++ showBool headless ++
                     lit ", slowMo=" ++ showZ slowMo ++ lit "ms");;
       ensureDir (resolveAbsolute (screenshotDir cfg));;
       b ← call (fun h => chromiumLaunch E h headless slowMo)
                (ChromiumLaunch headless slowMo);
       setBrowser (Some b);;
       c ← call (fun h => newContext E h b) (NewContext b 1280 720);
       setContext (Some c);;
       p ← call (fun h => newPage E h c) (NewPage c);
       setPage (Some p);;
       emit (SetDefaultTimeout p (defaultTimeoutMs cfg))
     end).

Definition NotLaunchedError (operation : jsstring) : Error :=
  newError (lit "Cannot " ++ operation ++
            lit ": Browser is not launched. Call launch() first.").

Definition navigate (url : jsstring) : M unit :=
  ensureLaunched (lit "navigate");;
  runStep (lit "navigate to " ++ url)
    (p ← thePage; doAction (Goto p url)).

Definition getTitle : M jsstring :=
  ensureLaunched (lit "getTitle");;
  p ← thePage;
  call (fun h => pageTitle E h p) (Title p).

Definition getUrl : M jsstring :=
  ensureLaunched (lit "getUrl");;
  p ← thePage;
  ask (fun h => pageUrl E h p) (Url p).

Record WaitOptions := { waitTimeoutMs : option Z }.

Definition waitForSelector (selector : jsstring)
    (options : option WaitOptions) : M unit :=
  ensureLaunched (lit "waitForSelector");;
  let timeout := default (defaultTimeoutMs cfg) (options ≫= waitTimeoutMs) in
  runStep (lit "wait for selector " ++ quoted selector)
    (p ← thePage;
     doAction (WaitFor (first (locator p selector)) Visible timeout)).

Definition find (selector : jsstring) : M Locator :=
  ensureLaunched (lit "find");;
  p ← thePage;
  ret (locator p selector).

Definition click (selector : jsstring) (options : option ClickOptions)
  : M unit :=
  ensureLaunched (lit "click");;
  let timeout := default (defaultTimeoutMs cfg) (options ≫= clickTimeoutMs) in
  runStep (lit "click " ++ quoted selector)
    (tryCatch
       (p ← thePage;
        let locator := locator p selector in
        doAction (Click locator timeout))
       (fun error =>
          throw (newErrorCause
                   (lit "Click failed for selector " ++ quoted selector ++
                    lit " (timeout " ++ showZ timeout ++ lit "ms): " ++
                    message error)
                   error))).

Definition type (selector text : jsstring) (options : option TypeOptions)
  : M unit :=
  ensureLaunched (lit "type");;
  let timeout := default (defaultTimeoutMs cfg) (options ≫= typeTimeoutMs) in
  let clear := default true (options ≫= typeClear) in
  runStep (lit "type into " ++ quoted selector)
    (tryCatch
       (p ← thePage;
        let locator := locator p selector in
        (if clear then doAction (Clear locator timeout) else ret tt);;
        doAction (Fill locator text timeout))
       (fun error =>
          throw (newErrorCause
                   (lit "Type failed for selector " ++ quoted selector ++
                    lit " (timeout " ++ showZ timeout ++ lit "ms): " ++
                    message error)
                   error))).

(** [if (text && text.length > 200) text = text.substring(0, 200) + '...'] *)
Definition truncateText (text : jsstring) : jsstring :=
  if truthy text && (200 <? length text)%nat
  then firstn 200 text ++ lit "..."
  else text.

Definition notFound (selector : jsstring) : ElementInfo :=
  {| infoSelector := selector; infoFound := false; infoTag := None;
     infoText := None; infoBoundingBox := None |}.

(** The function [getElementInfo] gives to [runStep]. *)
Definition inspect (selector : jsstring) (timeout : Z) : M ElementInfo :=
  tryCatch
    (p ← thePage;
     let loc := first (locator p selector) in
     doAction (WaitFor loc Attached timeout);;
     tag ← call (fun h => tagName E h loc) (TagName loc);
     text ← call (fun h => innerText E h loc) (InnerText loc);
     let text := truncateText text in
     boundingBox ← call (fun h => boundingBox E h loc) (BoundingBox loc);
     ret {| infoSelector := selector; infoFound := true;
            infoTag := Some tag; infoText := Some text;
            infoBoundingBox := boundingBox |})
    (fun error =>
       logger DEBUG (lit "Element not found: " ++ quoted selector ++
                     lit " (timeout " ++ showZ timeout ++ lit "ms)");;
       ret (notFound selector)).

Definition getElementInfo (selector : jsstring)
    (options : option WaitOptions) : M ElementInfo :=
  ensureLaunched (lit "getElementInfo");;
  let timeout := default (defaultTimeoutMs cfg) (options ≫= waitTimeoutMs) in
  runStep (lit "get element info for " ++ quoted selector)
    (inspect selector timeout).

Definition quit : M unit :=
  ensureLaunched (lit "quit");;
  runStep (lit "quit")
    (tryCatch
       ((m ← getManager;
         match page m with
         | Some p => doAction (ClosePage p);; setPage None
         | None => ret tt
         end);;
        (m ← getManager;
         match context m with
         | Some c => doAction (CloseContext c);; setContext None
         | None => ret tt
         end);;
        (m ← getManager;
         match browser m with
         | Some b => doAction (CloseBrowser b);; setBrowser None
         | None => ret tt
         end))
       (fun error =>
          setPage None;; setContext None;; setBrowser None;; throw error)).

Definition shutdown : M unit :=
  m ← getManager;
  if isShuttingDown m then ret tt
  else
    setIsShuttingDown true;;
    tryFinally
      (tryCatch
         (m ← getManager;
          match browser m with
          | None => ret tt
          | Some _ => quit
          end)
         (fun error => emit (ConsoleError (lit "Error during shutdown:") error)))
      (setIsShuttingDown false).

(** [cleanScreenshots(pattern = '*.png')]; it works on the file system
    only, and answers with the two lines it logs. *)
Definition cleanScreenshots (pattern : option jsstring) (fs : Fs.Fs)
  : (Error + nat) * Fs.Fs * list Event :=
  let pattern := default (lit "*.png") pattern in
  let screenshotDir := resolveAbsolute (screenshotDir cfg) in
  let started :=
    Log INFO (lit "Cleaning screenshots directory: " ++ screenshotDir ++
              lit " (pattern: " ++ pattern ++ lit ")") in
  match Fs.cleanDirectory screenshotDir (Some pattern) fs with
  | (inr deletedCount, fs') =>
    (inr deletedCount, fs',
     [started;
      Log INFO (lit "Deleted " ++ showN (N.of_nat deletedCount) ++
                lit " screenshot(s)")])
  | (inl e, fs') => (inl e, fs', [started])
  end.

End Operations.

(** The operations of the class, as a caller sequences them. *)
Inductive Op :=
| OpLaunch (options : option LaunchOptions)
| OpNavigate (url : jsstring)
| OpGetTitle
| OpGetUrl
| OpWaitForSelector (selector : jsstring) (options : option WaitOptions)
| OpFind (selector : jsstring)
| OpClick (selector : jsstring) (options : option ClickOptions)
| OpType (selector text : jsstring) (options : option TypeOptions)
| OpGetElementInfo (selector : jsstring) (options : option WaitOptions)
| OpScreenshot (options : option ScreenshotOptions)
| OpQuit
| OpShutdown.

(** Forget the value an operation returns. *)
Definition void {A} (m : M A) : M unit := _ ← m; ret tt.

Definition exec (cfg : Config) (lib : NodeLib) (E : Engine) (op : Op) : M unit :=
  match op with
  | OpLaunch options => launch cfg lib E options
  | OpNavigate url => navigate cfg lib E url
  | OpGetTitle => void (getTitle E)
  | OpGetUrl => void (getUrl E)
  | OpWaitForSelector selector options =>
    waitForSelector cfg lib E selector options
  | OpFind selector => void (find selector)
  | OpClick selector options => click cfg lib E selector options
  | OpType selector text options => type cfg lib E selector text options
  | OpGetElementInfo selector options =>
    void (getElementInfo cfg lib E selector options)
  | OpScreenshot options => void (screenshot lib E options)
  | OpQuit => quit cfg lib E
  | OpShutdown => shutdown cfg lib E
  end.

(** The state after a sequence of operations, whatever each returned or
    threw. *)
Definition execAll (cfg : Config) (lib : NodeLib) (E : Engine)
    (ops : list Op) (s : State) : State :=
  fold_left (fun s op => snd (exec cfg lib E op s)) ops s.

(** No session: the test of [ensureLaunched] fails. *)
Definition notLaunched (m : Manager) : Prop :=
  browser m = None \/ page m = None.

(** The operations that start with [ensureLaunched], and the name each
    gives it. *)
Definition guardName (op : Op) : option jsstring :=
  match op with
  | OpNavigate _ => Some (lit "navigate")
  | OpGetTitle => Some (lit "getTitle")
  | OpGetUrl => Some (lit "getUrl")
  | OpWaitForSelector _ _ => Some (lit "waitForSelector")
  | OpFind _ => Some (lit "find")
  | OpClick _ _ => Some (lit "click")
  | OpType _ _ _ => Some (lit "type")
  | OpGetElementInfo _ _ => Some (lit "getElementInfo")
  | OpScreenshot _ => Some (lit "screenshot")
  | OpQuit => Some (lit "quit")
  | OpLaunch _ | OpShutdown => None
  end.

(** [quit] and [shutdown], the operations that end a session. *)
Definition teardown (op : Op) : bool :=
  match op with
  | OpQuit | OpShutdown => true
  | _ => false
  end.

(** The fields after a [quit]. *)
Definition cleared (m : Manager) : Manager :=
  {| browser := None; context := None; page := None;
     isShuttingDown := isShuttingDown m |}.

(** The invariant of the specification: the page handle is there exactly
    when the browser handle is. *)
Definition consistent (m : Manager) : Prop :=
  page m <> None <-> browser m <> None.

End BrowserManager.

(** ** src/mcp/server.ts *)

Module Json.

(** A parsed JSON value; an object keeps its properties in order. *)
Inductive Json :=
| JNull
| JBool (b : bool)
| JNum (n : Z)
| JStr (s : jsstring)
| JArr (items : list Json)
| JObj (props : list (jsstring * Json)).

Fixpoint lookup (key : jsstring) (props : list (jsstring * Json)) : option Json :=
  match props with
  | [] => None
  | (k, v) :: props' => if Js.eqb k key then Some v else lookup key props'
  end.

(** [j.key] of a value that is not [null]; [None] is [undefined]. *)
Definition get (key : string) (j : Json) : option Json :=
  match j with
  | JObj props => lookup (lit key) props
  | _ => None
  end.

(** Truthiness of a JSON value. *)
Definition truthy (j : Json) : bool :=
  match j with
  | JNull => false
  | JBool b => b
  | JNum n => negb (n =? 0)%Z
  | JStr s => Js.truthy s
  | JArr _ => true
  | JObj _ => true
  end.

(** [typeof j === 'object'] *)
Definition isObjectType (j : Json) : bool :=
  match j with
  | JNull | JArr _ | JObj _ => true
  | _ => false
  end.

Definition str (s : string) : Json := JStr (lit s).

(** One property of an object literal. *)
Definition field (key : string) (value : Json) : jsstring * Json :=
  (lit key, value).

(** [a || b] *)
Definition orElse (a : option Json) (b : Json) : Json :=
  match a with
  | Some v => if truthy v then v else b
  | None => b
  end.

(** [String(j)], the conversion a template literal applies to the value
    it interpolates; [None] is the [TypeError] "Cannot convert object to
    primitive value".  An array is the texts of its items joined by
    commas, where [null] counts as the empty string.  An object parsed
    from JSON is [[object Object]], unless it has a property [toString]
    of its own: that is no function, the inherited [valueOf] answers the
    object itself, and the conversion throws.  A number is an integer
    below 2^53, which reads as its decimal digits. *)
Fixpoint toStringJs (j : Json) : option jsstring :=
  match j with
  | JNull => Some (lit "null")
  | JBool b => Some (showBool b)
  | JNum n => Some (showZ n)
  | JStr s => Some s
  | JArr items =>
    (fix join (items : list Json) : option jsstring :=
       match items with
       | [] => Some []
       | item :: rest =>
         match match item with JNull => Some [] | _ => toStringJs item end with
         | None => None
         | Some text =>
           match rest with
           | [] => Some text
           | _ :: _ =>
             match join rest with
             | None => None
             | Some texts => Some (text ++ lit "," ++ texts)
             end
           end
         end
       end) items
  | JObj props =>
    match lookup (lit "toString") props with
    | Some _ => None
    | None => Some (lit "[object Object]")
    end
  end.

(** The same for a value that may be [undefined]. *)
Definition toStringU (v : option Json) : option jsstring :=
  match v with
  | Some j => toStringJs j
  | None => Some (lit "undefined")
  end.

(** Can a template literal with these values be evaluated? *)
Definition interpolates (values : list (option Json)) : bool :=
  forallb (fun v => match toStringU v with Some _ => true | None => false end)
          values.

Definition NotPrimitive : Error :=
  newError (lit "Cannot convert object to primitive value").

End Json.
Import Json.

Module MCPServer.
Import BrowserManager.

Module ErrorCode.
Definition PARSE_ERROR : Z := -32700.
Definition INVALID_REQUEST : Z := -32600.
Definition METHOD_NOT_FOUND : Z := -32601.
Definition INVALID_PARAMS : Z := -32602.
Definition INTERNAL_ERROR : Z := -32603.
End ErrorCode.

Record RpcError := {
  errCode : Z;
  errMessage : jsstring;
  errData : option Json
}.

(** [interface JSONRPCResponse]: one line on stdout. *)
Record JSONRPCResponse := {
  respId : Json;
  respResult : option Json;
  respError : option RpcError
}.

(** The server, the session manager it drives, and what it has written
    on stdout.  The server's own diagnostics go to stderr, which is left
    out; what is kept of a logger call is whether its message can be
    evaluated. *)
Record Server := {
  isInitialized : bool;
  session : State;
  stdout : list JSONRPCResponse
}.

Definition write (r : JSONRPCResponse) (srv : Server) : Server :=
  {| isInitialized := isInitialized srv; session := session srv;
     stdout := stdout srv ++ [r] |}.

Definition withSession (s : State) (srv : Server) : Server :=
  {| isInitialized := isInitialized srv; session := s; stdout := stdout srv |}.

(** The methods of the server: they change the server and may throw. *)
Definition Task (A : Type) : Type := Server -> (Error + A) * Server.

Definition sret {A} (a : A) : Task A := fun srv => (inr a, srv).

Definition sbind {A B} (m : Task A) (k : A -> Task B) : Task B :=
  fun srv =>
    match m srv with
    | (inl e, srv') => (inl e, srv')
    | (inr a, srv') => k a srv'
    end.

Definition sthrow {A} (e : Error) : Task A := fun srv => (inl e, srv).

(** [try { m } catch (e) { h e }] *)
Definition stry {A} (m : Task A) (h : Error -> Task A) : Task A :=
  fun srv =>
    match m srv with
    | (inl e, srv') => h e srv'
    | (inr a, srv') => (inr a, srv')
    end.

#[global] Instance Task_ret : MRet Task := @sret.
#[global] Instance Task_bind : MBind Task := fun A B k m => sbind m k.

(** [process.stdout.write(JSON.stringify(response) + '\n')] *)
Definition send (r : JSONRPCResponse) : Task unit :=
  fun srv => (inr tt, write r srv).

(** An operation of the session manager, awaited by the server. *)
Definition lift {A} (m : M A) : Task A :=
  fun srv =>
    match m (session srv) with
    | (r, s) => (r, withSession s srv)
    end.

(** A logger call whose message interpolates [values]: the message is
    evaluated before the call, whatever the log level. *)
Definition log (values : list (option Json)) : Task unit :=
  if interpolates values then sret tt else sthrow NotPrimitive.

Definition sendResult (id : Json) (result : Json) : Task unit :=
  send {| respId := id; respResult := Some result; respError := None |};;
  log [Some id].

Definition sendError (id : Json) (code : Z) (message : jsstring)
    (data : option Json) : Task unit :=
  send {| respId := id; respResult := None;
          respError := Some {| errCode := code; errMessage := message;
                               errData := data |} |};;
  log [Some id].

(** [{ content: [{ type: 'text', text }] }] *)
Definition textContent (text : jsstring) : Json :=
  JObj [field "content"
          (JArr [JObj [field "type" (str "text"); field "text" (JStr text)]])].

Definition tool (name description : string)
    (properties : list (jsstring * Json)) (required : list Json) : Json :=
  JObj [field "name" (str name);
        field "description" (str description);
        field "inputSchema"
          (JObj [field "type" (str "object");
                 field "properties" (JObj properties);
                 field "required" (JArr required)])].

Definition property (type description : string) : Json :=
  JObj [field "type" (str type); field "description" (str description)].

(** The [tools] array of [handleToolsList]. *)
Definition tools : list Json :=
  [ tool "browser_launch" "Start a browser session (visible by default)"
      [field "headless" (property "boolean" "Run browser headless")] [];
    tool "browser_navigate" "Go to a URL"
      [field "url" (property "string" "URL to navigate to")] [str "url"];
    tool "browser_screenshot" "Capture viewport (optionally save to file)"
      [field "filename" (property "string" "Optional filename (relative to SCREENSHOT_DIR)");
       field "returnBase64" (property "boolean" "Return base64 instead of saving only");
       field "fullPage" (property "boolean" "Capture full page")] [];
    tool "browser_quit" "Close the browser session" [] [] ].

(** The tool names the documentation and tests/mcp.smoke.test.ts
    ([requiredTools]) expect. *)
Definition requiredTools : list jsstring :=
  List.map lit
    ["browser_launch"; "browser_navigate"; "browser_find"; "browser_click";
     "browser_type"; "browser_screenshot"; "browser_quit"]%string.

(** [response.result.tools.map(t => t.name)], as the smoke test reads a
    response. *)
Definition toolNames (r : JSONRPCResponse) : list jsstring :=
  match respResult r ≫= get "tools" with
  | Some (JArr items) =>
    omap (fun t => match get "name" t with Some (JStr n) => Some n | _ => None end)
         items
  | _ => []
  end.

(** A line of stdin: blank, not JSON (with the message of the
    [SyntaxError]), or the value [JSON.parse] gave. *)
Inductive Line :=
| Blank
| Malformed (message : jsstring)
| Parsed (request : Json).

Section Handlers.

Context (cfg : Config) (lib : NodeLib) (E : Engine).

Definition handleInitialize (params : option Json) (id : Json) : Task unit :=
  (fun srv =>
     (inr tt, {| isInitialized := true; session := session srv;
                 stdout := stdout srv |}));;
  sendResult id
    (JObj [field "protocolVersion" (str "2024-11-05");
           field "capabilities" (JObj [field "tools" (JObj [])]);
           field "serverInfo"
             (JObj [field "name" (str "playwright-mcp-framework");
                    field "version" (str "0.1.0")])]).

Definition handleToolsList (id : Json) : Task unit :=
  sendResult id (JObj [field "tools" (JArr tools)]).

Definition toolBrowserLaunch (args : Json) (id : Json) : Task unit :=
  stry
    (let headless :=
       match get "headless" args with Some (JBool true) => true | _ => false end in
     lift (launch cfg lib E
             (Some {| optHeadless := Some headless; optSlowMoMs := None |}));;
     sendResult id
       (textContent (lit "Browser launched (headless: " ++ showBool headless ++
                     lit ")")))
    (fun error =>
       sendError id ErrorCode.INTERNAL_ERROR
         (lit "Failed to launch browser: " ++ message error) None).

(** [error.message.includes('not launched') || error.message.includes('No browser')] *)
Definition saysNotLaunched (error : Error) : bool :=
  includes (message error) (lit "not launched") ||
  includes (message error) (lit "No browser").

Definition toolBrowserNavigate (args : Json) (id : Json) : Task unit :=
  stry
    (match get "url" args with
     | Some (JStr url) =>
       if Js.truthy url then
         lift (navigate cfg lib E url);;
         sendResult id (textContent (lit "Navigated to " ++ url))
       else
         sendError id ErrorCode.INVALID_PARAMS
           (lit "Missing or invalid " ++ quoted (lit "url") ++ lit " parameter")
           None
     | _ =>
       sendError id ErrorCode.INVALID_PARAMS
         (lit "Missing or invalid " ++ quoted (lit "url") ++ lit " parameter")
         None
     end)
    (fun error =>
       if saysNotLaunched error then
         sendError id ErrorCode.INTERNAL_ERROR
           (lit "Browser not launched. Call browser_launch first.") None
       else
         sendError id ErrorCode.INTERNAL_ERROR
           (lit "Failed to navigate: " ++ message error) None).

(** [buffer.toString('base64')] of what [screenshot] returned. *)
Definition toBase64 (shot : Shot) : jsstring :=
  match shot with
  | ShotBuffer bytes => base64 lib bytes
  | ShotBase64 s => s
  end.

(** The [try] block of [toolBrowserScreenshot], up to the result text.
    It starts with a logger call whose message interpolates
    [filename || 'none'], [returnBase64 || false] and
    [fullPage || false]. *)
Definition takeScreenshot (args : Json) : M jsstring :=
  (if interpolates
        [Some (orElse (get "filename" args) (str "none"));
         Some (orElse (get "returnBase64" args) (JBool false));
         Some (orElse (get "fullPage" args) (JBool false))]
   then ret tt else throw NotPrimitive);;
  let fullPage :=
    match get "fullPage" args with Some (JBool true) => true | _ => false end in
  screenshotPath ←
    match get "filename" args with
    | Some (JStr filename) =>
      if Js.truthy filename then
        let screenshotPath := join lib (screenshotDir cfg) filename in
        ensureDir E (screenshotDir cfg);;
        ret (Some screenshotPath)
      else ret None
    | _ => ret None
    end;
  let options :=
    {| shotPath := screenshotPath; shotFullPage := Some fullPage;
       shotReturnBase64 := None |} in
  base64Data ←
    match get "returnBase64" args with
    | Some (JBool true) =>
      buffer ← screenshot lib E (Some options);
      ret (Some (toBase64 buffer))
    | _ => screenshot lib E (Some options);; ret None
    end;
  let saved :=
    match screenshotPath with
    | Some path =>
      if Js.truthy path then lit "Screenshot saved to " ++ path else []
    | None => []
    end in
  let resultText :=
    match base64Data with
    | Some data =>
      if Js.truthy data then
        (if Js.truthy saved then saved ++ lit " and " else saved) ++
        lit "returned as base64 (" ++ showN (N.of_nat (length data)) ++
        lit " chars)"
      else saved
    | None => saved
    end in
  ret (if Js.truthy resultText then resultText else lit "Screenshot captured").

Definition toolBrowserScreenshot (args : Json) (id : Json) : Task unit :=
  stry
    (resultText ← lift (takeScreenshot args);
     sendResult id (textContent resultText))
    (fun error =>
       if saysNotLaunched error then
         sendError id ErrorCode.INTERNAL_ERROR
           (lit "Browser not launched. Call browser_launch first.") None
       else
         sendError id ErrorCode.INTERNAL_ERROR
           (lit "Failed to take screenshot: " ++ message error) None).

Definition toolBrowserQuit (args : Json) (id : Json) : Task unit :=
  stry
    (lift (shutdown cfg lib E);;
     sendResult id (textContent (lit "Browser session closed")))
    (fun error =>
       sendError id ErrorCode.INTERNAL_ERROR
         (lit "Failed to close browser: " ++ message error) None).

(** [args || {}] *)
Definition orEmptyObject (args : option Json) : Json :=
  match args with
  | Some a => if Json.truthy a then a else JObj []
  | None => JObj []
  end.

Definition handleToolsCall (params : option Json) (id : Json) : Task unit :=
  match params with
  | Some params =>
    if Json.truthy params && isObjectType params then
      match get "name" params with
      | Some (JStr name) =>
        if Js.truthy name then
          let args := orEmptyObject (get "arguments" params) in
          if Js.eqb name (lit "browser_launch") then
            toolBrowserLaunch args id
          else if Js.eqb name (lit "browser_navigate") then
            toolBrowserNavigate args id
          else if Js.eqb name (lit "browser_screenshot") then
            toolBrowserScreenshot args id
          else if Js.eqb name (lit "browser_quit") then
            toolBrowserQuit args id
          else
            sendError id ErrorCode.METHOD_NOT_FOUND
              (lit "Unknown tool: " ++ name) None
        else
          sendError id ErrorCode.INVALID_PARAMS
            (lit "Invalid params: missing or invalid " ++ quoted (lit "name"))
            None
      | _ =>
        sendError id ErrorCode.INVALID_PARAMS
          (lit "Invalid params: missing or invalid " ++ quoted (lit "name"))
          None
      end
    else
      sendError id ErrorCode.INVALID_PARAMS
        (lit "Invalid params: expected object") None
  | None =>
    sendError id ErrorCode.INVALID_PARAMS
      (lit "Invalid params: expected object") None
  end.

(** [id ?? null] *)
Definition orNull (id : option Json) : Json := default JNull id.

(** [handleRequest(request)], on whatever [JSON.parse] gave: taking
    [method], [params] and [id] out of [null] throws, and every other
    value has them or has them undefined. *)
Definition handleRequest (request : Json) : Task unit :=
  match request with
  | JNull =>
    sthrow (newError (lit "Cannot destructure property 'method' of 'request' as it is null."))
  | _ =>
    let method := get "method" request in
    let params := get "params" request in
    let id := orNull (get "id" request) in
    log [method];;
    match method with
    | Some (JStr name) =>
      if Js.eqb name (lit "initialize") then handleInitialize params id
      else if Js.eqb name (lit "tools/list") then handleToolsList id
      else if Js.eqb name (lit "tools/call") then handleToolsCall params id
      else
        sendError id ErrorCode.METHOD_NOT_FOUND
          (lit "Method not found: " ++ name) None
    | _ =>
      sendError id ErrorCode.METHOD_NOT_FOUND
        (lit "Method not found: " ++ default [] (toStringU method)) None
    end
  end.

(** The listener of [line] events that [start] installs. *)
Definition handleLine (line : Line) : Task unit :=
  match line with
  | Blank => sret tt
  | Malformed message =>
    sendError JNull ErrorCode.PARSE_ERROR (lit "Parse error")
      (Some (JStr message))
  | Parsed request =>
    stry (handleRequest request)
      (fun error =>
         match request with
         | JNull =>
           sthrow (newError (lit "Cannot read properties of null (reading 'id')"))
         | _ =>
           sendError (orNull (get "id" request)) ErrorCode.INTERNAL_ERROR
             (lit "Internal error") (Some (JStr (message error)))
         end)
  end.

End Handlers.

(** A request as [interface JSONRPCRequest] types it: a method, and
    maybe parameters and an id. *)
Definition request (method : jsstring) (params id : option Json) : Json :=
  JObj (field "jsonrpc" (str "2.0") :: field "method" (JStr method) ::
        match params with Some p => [field "params" p] | None => [] end ++
        match id with Some i => [field "id" i] | None => [] end).

(** A [tools/list] request, a [tools/call] request for [browser_quit]. *)
Definition toolsListRequest (params id : option Json) : Json :=
  request (lit "tools/list") params id.

Definition browserQuitRequest (arguments id : option Json) : Json :=
  request (lit "tools/call")
    (Some (JObj (field "name" (str "browser_quit") ::
                 match arguments with
                 | Some a => [field "arguments" a]
                 | None => []
                 end)))
    id.

End MCPServer.

(** ** Concrete engines, libraries and file systems *)

Module Scenarios.
Import BrowserManager.

(** The defaults of src/core/config.ts. *)
Definition defaults : Config :=
  {| headless := false; slowMoMs := 0; defaultTimeoutMs := 30000;
     screenshotDir := lit "./screenshots" |}.

(** The segments of a path between its slashes. *)
Fixpoint segments (p : jsstring) (current : jsstring) : list jsstring :=
  match p with
  | [] => [rev current]
  | c :: rest =>
    if c =? ch "/" then rev current :: segments rest []
    else segments rest (c :: current)
  end.

(** One step of Node's [normalizeString]: empty segments and [.] are
    dropped, [..] takes the segment before it away, where there is one
    that is no [..] itself. *)
Definition pushSegment (allowAboveRoot : bool) (stack : list jsstring)
    (segment : jsstring) : list jsstring :=
  if Js.eqb segment [] then stack
  else if Js.eqb segment (lit ".") then stack
  else if Js.eqb segment (lit "..") then
    match stack with
    | [] => if allowAboveRoot then [segment] else []
    | top :: rest =>
      if Js.eqb top (lit "..") then
        if allowAboveRoot then segment :: stack else stack
      else rest
    end
  else segment :: stack.

Fixpoint joinSegments (segs : list jsstring) : jsstring :=
  match segs with
  | [] => []
  | [seg] => seg
  | seg :: rest => seg ++ lit "/" ++ joinSegments rest
  end.

Definition normalizeString (p : jsstring) (allowAboveRoot : bool) : jsstring :=
  joinSegments (rev (fold_left (pushSegment allowAboveRoot) (segments p []) [])).

(** [path.posix.normalize] *)
Definition normalize (p : jsstring) : jsstring :=
  match p with
  | [] => lit "."
  | _ :: _ =>
    let absolute := startsWith p (lit "/") in
    let trailing := startsWith (rev p) (lit "/") in
    let body := normalizeString p (negb absolute) in
    match body with
    | [] => if absolute then lit "/" else if trailing then lit "./" else lit "."
    | _ :: _ =>
      (if absolute then lit "/" else []) ++ body ++
      (if trailing then lit "/" else [])
    end
  end.

(** [path.posix.resolve(from, to)], where [from] is the absolute working
    directory. *)
Definition posixResolve (from to : jsstring) : jsstring :=
  if startsWith to (lit "/") then lit "/" ++ normalizeString to false
  else lit "/" ++ normalizeString (from ++ lit "/" ++ to) false.

(** [path.posix.join(a, b)] *)
Definition posixJoin (a b : jsstring) : jsstring :=
  match a, b with
  | [], [] => lit "."
  | [], _ => normalize b
  | _, [] => normalize a
  | _, _ => normalize (a ++ lit "/" ++ b)
  end.

(** The scan of [path.posix.dirname] from the end of the path down to
    its second character: where the directory part ends. *)
Fixpoint dirnameEnd (revPath : jsstring) (matchedSlash : bool) : option nat :=
  match revPath with
  | c :: ((_ :: _) as rest) =>
    if c =? ch "/" then
      if matchedSlash then dirnameEnd rest true else Some (length rest)
    else dirnameEnd rest false
  | _ => None
  end.

(** [path.posix.dirname] *)
Definition posixDirname (p : jsstring) : jsstring :=
  match p with
  | [] => lit "."
  | _ :: _ =>
    let hasRoot := startsWith p (lit "/") in
    match dirnameEnd (rev p) true with
    | None => if hasRoot then lit "/" else lit "."
    | Some e => if hasRoot && Nat.eqb e 1 then lit "//" else firstn e p
    end
  end.

Definition base64Alphabet : jsstring :=
  lit "ABCDEFGHIJKLMNOPQRSTUVWXYZabcdefghijklmnopqrstuvwxyz0123456789+/".

Definition sextet (n : N) : N := nth (N.to_nat n) base64Alphabet (ch "=").

(** [buffer.toString('base64')] *)
Fixpoint toBase64String (bytes : list N) : jsstring :=
  match bytes with
  | [] => []
  | [a] => [sextet (a / 4); sextet (a mod 4 * 16); ch "="; ch "="]
  | [a; b] =>
    [sextet (a / 4); sextet (a mod 4 * 16 + b / 16); sextet (b mod 16 * 4);
     ch "="]
  | a :: b :: c :: rest =>
    sextet (a / 4) :: sextet (a mod 4 * 16 + b / 16) ::
    sextet (b mod 16 * 4 + c / 64) :: sextet (c mod 64) ::
    toBase64String rest
  end.

(** The POSIX [path] functions of Node.js and the base64 text of a
    buffer, with the working directory /work. *)
Definition posix : NodeLib :=
  {| isAbsolute := fun p => startsWith p (lit "/");
     resolve := posixResolve;
     join := posixJoin;
     dirname := posixDirname;
     cwd := lit "/work";
     base64 := toBase64String |}.

Definition noon : DateUTC :=
  {| year := 2026; month := 1; day := 27; hours := 15; minutes := 30;
     seconds := 10; milliseconds := 7 |}.

(** An engine on which every call succeeds. *)
Definition obliging : Engine :=
  {| dateNow := fun h => Z.of_nat (length h);
     newDate := fun _ => noon;
     stat := fun _ _ => inr true;
     perform := fun _ _ => None;
     chromiumLaunch := fun _ _ _ => inr 1;
     newContext := fun _ _ => inr 2;
     newPage := fun _ _ => inr 3;
     pageTitle := fun _ _ => inr (lit "Example Domain");
     pageUrl := fun _ _ => lit "https://example.com/";
     tagName := fun _ _ => inr (lit "a");
     innerText := fun _ _ => inr (lit "More information...");
     boundingBox := fun _ _ => inr None;
     pageScreenshot := fun _ _ _ _ => inr [137; 80; 78; 71] |}.

Definition targetClosed : Error := newError (lit "Target closed").

(** The browser starts, and opening a context in it fails. *)
Definition noContext : Engine :=
  {| dateNow := dateNow obliging; newDate := newDate obliging;
     stat := stat obliging; perform := perform obliging;
     chromiumLaunch := chromiumLaunch obliging;
     newContext := fun _ _ => inl targetClosed;
     newPage := newPage obliging; pageTitle := pageTitle obliging;
     pageUrl := pageUrl obliging; tagName := tagName obliging;
     innerText := innerText obliging; boundingBox := boundingBox obliging;
     pageScreenshot := pageScreenshot obliging |}.

(** The element attaches, and reading its inner text fails, as it does
    for an element that is not an [HTMLElement]. *)
Definition noInnerText : Engine :=
  {| dateNow := dateNow obliging; newDate := newDate obliging;
     stat := stat obliging; perform := perform obliging;
     chromiumLaunch := chromiumLaunch obliging;
     newContext := newContext obliging;
     newPage := newPage obliging; pageTitle := pageTitle obliging;
     pageUrl := pageUrl obliging; tagName := fun _ _ => inr (lit "svg");
     innerText := fun _ _ => inl (newError (lit "Node is not an HTMLElement"));
     boundingBox := boundingBox obliging;
     pageScreenshot := pageScreenshot obliging |}.

Definition timeoutError : Error := newError (lit "Timeout exceeded").

(** No element ever matches: waiting, clicking and filling time out. *)
Definition noElement : Engine :=
  {| dateNow := dateNow obliging; newDate := newDate obliging;
     stat := stat obliging;
     perform := fun _ a =>
       match a with
       | WaitFor _ _ _ | Click _ _ | Clear _ _ | Fill _ _ _ => Some timeoutError
       | _ => None
       end;
     chromiumLaunch := chromiumLaunch obliging;
     newContext := newContext obliging;
     newPage := newPage obliging; pageTitle := pageTitle obliging;
     pageUrl := pageUrl obliging; tagName := tagName obliging;
     innerText := innerText obliging; boundingBox := boundingBox obliging;
     pageScreenshot := pageScreenshot obliging |}.

Definition start : State := {| manager := empty; history := [] |}.

(** A session as a successful launch leaves it. *)
Definition launched : State :=
  {| manager := {| browser := Some 1; context := Some 2; page := Some 3;
                   isShuttingDown := false |};
     history := [] |}.

End Scenarios.

Module Runs.
Import BrowserManager Scenarios.




(** The screenshot directory of [defaults] under [posix]. *)
Definition screenshots : jsstring := lit "/work/screenshots".

(** A directory that holds one regular file. *)
Definition oneFile (name : jsstring) : Fs.Fs :=
  {[ screenshots := Fs.NDir [(name, Fs.KFile)] ∅ ]}.

(** The name [a<LF>b.png]. *)
Definition twoLines : jsstring := lit "a" ++ [10] ++ lit "b.png".

(** A directory with two screenshots, a text file, a subdirectory and a
    symbolic link. *)
Definition mixedEntries : list (jsstring * Fs.Kind) :=
  [(lit "smoke.png", Fs.KFile); (lit "error-1.png", Fs.KFile);
   (lit "notes.txt", Fs.KFile); (lit "old.png", Fs.KDir);
   (lit "link.png", Fs.KOther)].

Definition mixed : Fs.Fs := {[ screenshots := Fs.NDir mixedEntries ∅ ]}.

(** Four screenshots, of which the last is reported by [readdir] and not
    found by [unlink]. *)
Definition fourShots : list (jsstring * Fs.Kind) :=
  [(lit "1.png", Fs.KFile); (lit "2.png", Fs.KFile);
   (lit "3.png", Fs.KFile); (lit "4.png", Fs.KFile)].

Definition lastVanishes : Fs.Fs :=
  {[ screenshots := Fs.NDir fourShots {[ lit "4.png" := Fs.ENOENT ]} ]}.

(** A server that has served nothing yet. *)
Definition idle : MCPServer.Server :=
  {| MCPServer.isInitialized := false; MCPServer.session := start; MCPServer.stdout := [] |}.

End Runs.

(** ** Requests and responses of the protocol *)

Module Protocol.
Import BrowserManager MCPServer.

(** A [tools/call] request for the tool [name]. *)
Definition toolCallRequest (name : jsstring) (arguments id : option Json)
  : Json :=
  request (lit "tools/call")
    (Some (JObj (field "name" (JStr name) ::
                 match arguments with
                 | Some a => [field "arguments" a]
                 | None => []
                 end)))
    id.



(** The error response of code [code] and message [message], for [id]. *)
Definition errorResponse (id : Json) (code : Z) (message : jsstring)
  : JSONRPCResponse :=
  {| respId := id; respResult := None;
     respError := Some {| errCode := code; errMessage := message;
                          errData := None |} |}.

(** The names [handleToolsCall] dispatches on. *)
Definition dispatchedTools : list jsstring :=
  List.map lit
    ["browser_launch"; "browser_navigate"; "browser_screenshot";
     "browser_quit"]%string.

(** The methods [handleRequest] dispatches on. *)
Definition dispatchedMethods : list jsstring :=
  List.map lit ["initialize"; "tools/list"; "tools/call"]%string.

End Protocol.

(** ** What the engine was asked to do *)

Module Traces.
Import BrowserManager.

(** The actions the engine was asked to perform, each with its outcome,
    in order. *)
Definition actions (h : list Event) : list (Action * option Error) :=
  omap (fun ev => match ev with Did a r => Some (a, r) | _ => None end) h.

(** The close calls of [quit] on the handles [b], [c] and [p], and what
    [quit] answers: the page first, then the context, then the browser,
    up to the first close that throws. *)
Inductive Closing (b c p : handle)
  : list (Action * option Error) -> Error + unit -> Prop :=
| Closing_page e :
    Closing b c p [(ClosePage p, Some e)] (inl e)
| Closing_context e :
    Closing b c p [(ClosePage p, None); (CloseContext c, Some e)] (inl e)
| Closing_browser e :
    Closing b c p
      [(ClosePage p, None); (CloseContext c, None); (CloseBrowser b, Some e)]
      (inl e)
| Closing_done :
    Closing b c p
      [(ClosePage p, None); (CloseContext c, None); (CloseBrowser b, None)]
      (inr tt).

(** What was asked of the engine and of the file system, in order:
    every interaction but the log lines and the readings of the clock. *)
Definition isRequest (ev : Event) : bool :=
  match ev with
  | Log _ _ | ConsoleError _ _ | DateNow _ | NewDate _ => false
  | _ => true
  end.

Definition requests (h : list Event) : list Event := List.filter isRequest h.

(** The keyboard and mouse input the engine was asked for. *)
Definition isInput (a : Action) : bool :=
  match a with
  | Click _ _ | Clear _ _ | Fill _ _ _ => true
  | _ => false
  end.

Definition inputs (h : list Event) : list Action :=
  List.filter isInput (List.map fst (actions h)).

(** The characters of a file name that is one path segment on Windows
    and on Unix: letters, digits, [-], [_] and [.]. *)
Definition isSafeChar (c : N) : bool :=
  isAlnum c || (c =? ch "-") || (c =? ch "_") || (c =? ch ".").

End Traces.

(** ** Runs of the shutdown coordinator *)

Module Signals.
Import Hooks.

(** The first signal or error among the events. *)
Fixpoint firstTrigger (evs : list Event) : option Trigger :=
  match evs with
  | [] => None
  | Raise t :: _ => Some t
  | _ :: evs' => firstTrigger evs'
  end.

End Signals.

(** ** src/core/config.ts *)

Module ConfigLoader.
Import BrowserManager.

(** White space and line terminators, which [String.prototype.trim] and
    [parseInt] strip: TAB, LF, VT, FF, CR, SP, NBSP, the space
    separators of Unicode, LS, PS and the byte order mark. *)
Definition isWhiteSpace (c : N) : bool :=
  ((9 <=? c) && (c <=? 13)) || (c =? 32) || (c =? 160) || (c =? 5760) ||
  ((8192 <=? c) && (c <=? 8202)) || (c =? 8232) || (c =? 8233) ||
  (c =? 8239) || (c =? 8287) || (c =? 12288) || (c =? 65279).

Fixpoint trimStart (s : jsstring) : jsstring :=
  match s with
  | c :: s' => if isWhiteSpace c then trimStart s' else s
  | [] => []
  end.

(** [s.trim()] *)
Definition trim (s : jsstring) : jsstring :=
  rev (trimStart (rev (trimStart s))).

(** A decimal digit, as the constructor of [Decimal.uint] it stands
    for. *)
Definition digitOf (c : N) : option (Decimal.uint -> Decimal.uint) :=
  if c =? ch "0" then Some Decimal.D0
  else if c =? ch "1" then Some Decimal.D1
  else if c =? ch "2" then Some Decimal.D2
  else if c =? ch "3" then Some Decimal.D3
  else if c =? ch "4" then Some Decimal.D4
  else if c =? ch "5" then Some Decimal.D5
  else if c =? ch "6" then Some Decimal.D6
  else if c =? ch "7" then Some Decimal.D7
  else if c =? ch "8" then Some Decimal.D8
  else if c =? ch "9" then Some Decimal.D9
  else None.

(** The longest prefix of decimal digits. *)
Fixpoint takeDigits (s : jsstring) : Decimal.uint :=
  match s with
  | c :: s' =>
    match digitOf c with
    | Some d => d (takeDigits s')
    | None => Decimal.Nil
    end
  | [] => Decimal.Nil
  end.

(** [parseInt(value, 10)]: leading white space is skipped, a sign is
    read, then the longest run of digits; what follows is ignored.
    [None] is [NaN].  The result is the integer the digits denote: the
    runtime rounds it to the nearest Number above 2^53, and tells -0 from
    0, which this model does not. *)
Definition parseInt (value : jsstring) : option Z :=
  let s := trimStart value in
  let '(negative, s) :=
    match s with
    | c :: s' =>
      if c =? ch "-" then (true, s')
      else if c =? ch "+" then (false, s')
      else (false, s)
    | [] => (false, s)
    end in
  match takeDigits s with
  | Decimal.Nil => None
  | digits =>
    let mathInt := Z.of_N (N.of_uint digits) in
    Some (if negative then (- mathInt)%Z else mathInt)
  end.

Section Runtime.

(** [String.prototype.toLowerCase], which maps code units by the case
    tables of Unicode. *)
Context (toLowerCase : jsstring -> jsstring).

Definition parseBoolean (value : option jsstring) (defaultValue : bool)
  : bool :=
  match value with
  | None => defaultValue
  | Some value =>
    if negb (Js.truthy value) then defaultValue
    else
      let normalized := trim (toLowerCase value) in
      if Js.eqb normalized (lit "true") || Js.eqb normalized (lit "1") ||
         Js.eqb normalized (lit "yes")
      then true
      else if Js.eqb normalized (lit "false") || Js.eqb normalized (lit "0") ||
              Js.eqb normalized (lit "no")
      then false
      else defaultValue
  end.

Definition parseNumber (value : option jsstring) (defaultValue : Z) : Z :=
  match value with
  | None => defaultValue
  | Some value =>
    if negb (Js.truthy value) then defaultValue
    else
      match parseInt value with
      | None => defaultValue
      | Some parsed => if (parsed <? 0)%Z then defaultValue else parsed
      end
  end.

(** The variables of [process.env] the module reads; [None] is an unset
    variable. *)
Record Env := {
  HEADLESS : option jsstring;
  SLOWMO_MS : option jsstring;
  DEFAULT_TIMEOUT_MS : option jsstring;
  SCREENSHOT_DIR : option jsstring
}.

Definition loadConfig (env : Env) : Config :=
  {| headless := parseBoolean (HEADLESS env) false;
     slowMoMs := parseNumber (SLOWMO_MS env) 0;
     defaultTimeoutMs := parseNumber (DEFAULT_TIMEOUT_MS env) 30000;
     screenshotDir :=
       match SCREENSHOT_DIR env with
       | Some dir => if Js.truthy dir then dir else lit "./screenshots"
       | None => lit "./screenshots"
       end |}.

End Runtime.

End ConfigLoader.

(** ** The test client of the protocol server (class McpTestClient) *)

Module McpTestClient.
Import MCPServer.

Definition REQUEST_TIMEOUT_MS : Z := 10000.

(** How the promise of a [call] ended. *)
Inductive Settlement :=
| Resolved (response : JSONRPCResponse)
| Rejected (reason : Error).

(** The fields of the class, and what its closures hold.  A [call]
    creates one promise and one timer; both are named by the number of
    the call, its ticket.  [pendingRequests] maps a request id to the
    ticket of the [PendingRequest] stored under it, [timers] holds the
    timers that are armed, each with the request id and the method its
    callback closes over, [settled] the promises that are no longer
    pending, and [stdin] what was written to the server.  The server
    process is there or not. *)
Record Client := {
  serverProcess : bool;
  pendingRequests : gmap Z nat;
  nextId : Z;
  created : nat;
  settled : gmap nat Settlement;
  timers : gmap nat (Z * jsstring);
  stdin : list Json
}.

(** A client whose server has started. *)
Definition started : Client :=
  {| serverProcess := true; pendingRequests := ∅; nextId := 1; created := 0;
     settled := ∅; timers := ∅; stdin := [] |}.

(** [resolve] or [reject] of the promise [ticket]: a promise that is
    settled stays as it is. *)
Definition settle (ticket : nat) (v : Settlement) (c : Client) : Client :=
  match settled c !! ticket with
  | Some _ => c
  | None =>
    {| serverProcess := serverProcess c;
       pendingRequests := pendingRequests c; nextId := nextId c;
       created := created c; settled := <[ticket := v]> (settled c);
       timers := timers c; stdin := stdin c |}
  end.

(** [clearTimeout(pending.timeout)] *)
Definition clearTimeout (ticket : nat) (c : Client) : Client :=
  {| serverProcess := serverProcess c;
     pendingRequests := pendingRequests c; nextId := nextId c;
     created := created c; settled := settled c;
     timers := delete ticket (timers c); stdin := stdin c |}.

(** [this.pendingRequests.delete(requestId)] *)
Definition forget (requestId : Z) (c : Client) : Client :=
  {| serverProcess := serverProcess c;
     pendingRequests := delete requestId (pendingRequests c);
     nextId := nextId c; created := created c; settled := settled c;
     timers := timers c; stdin := stdin c |}.

(** [call(method, params = {}, id?)]; it answers with the ticket of the
    promise it returns. *)
Definition call (method : jsstring) (params : option Json) (id : option Z)
    (c : Client) : (Error + nat) * Client :=
  if negb (serverProcess c) then
    (inl (newError (lit "MCP server is not running. Call start() first.")), c)
  else
    let requestId := default (nextId c) id in
    let ticket := created c in
    (inr ticket,
     {| serverProcess := serverProcess c;
        pendingRequests := <[requestId := ticket]> (pendingRequests c);
        nextId := match id with
                  | Some _ => nextId c
                  | None => (nextId c + 1)%Z
                  end;
        created := S ticket;
        settled := settled c;
        timers := <[ticket := (requestId, method)]> (timers c);
        stdin := stdin c ++
                 [request method (Some (default (JObj []) params))
                    (Some (JNum requestId))] |}).

(** The callback of the timer of [ticket]; a timer that was cleared or
    has fired does not fire. *)
Definition timerFired (ticket : nat) (c : Client) : Client :=
  match timers c !! ticket with
  | None => c
  | Some (requestId, method) =>
    settle ticket
      (Rejected (newError (lit "Request timeout after " ++
                           showZ REQUEST_TIMEOUT_MS ++
                           lit "ms for method: " ++ method)))
      (forget requestId (clearTimeout ticket c))
  end.

(** How [handleResponse] settles the promise a response is for. *)
Definition outcome (response : JSONRPCResponse) : Settlement :=
  match respError response with
  | Some e =>
    Rejected (newError (lit "JSON-RPC error " ++ showZ (errCode e) ++
                        lit ": " ++ errMessage e))
  | None => Resolved response
  end.

(** [handleResponse(line)], on the value [JSON.parse(line)] gives;
    [None] is a blank line or one that does not parse to a response. *)
Definition handleResponse (line : option JSONRPCResponse) (c : Client)
  : Client :=
  match line with
  | None => c
  | Some response =>
    match respId response with
    | JNum requestId =>
      match pendingRequests c !! requestId with
      | None => c
      | Some ticket =>
        settle ticket (outcome response)
          (forget requestId (clearTimeout ticket c))
      end
    | _ => c
    end
  end.

(** [rejectAllPending(error)] *)
Definition rejectAllPending (error : Error) (c : Client) : Client :=
  let c' :=
    foldr (fun entry c => settle (snd entry) (Rejected error)
                            (clearTimeout (snd entry) c))
          c (map_to_list (pendingRequests c)) in
  {| serverProcess := serverProcess c'; pendingRequests := ∅;
     nextId := nextId c'; created := created c'; settled := settled c';
     timers := timers c'; stdin := stdin c' |}.

(** The listener of the [exit] event of the server process. *)
Definition onExit (code : option Z) (c : Client) : Client :=
  let c' :=
    match code with
    | Some n =>
      if (n =? 0)%Z then c
      else rejectAllPending
             (newError (lit "MCP server exited with code " ++ showZ n)) c
    | None => c
    end in
  {| serverProcess := false; pendingRequests := pendingRequests c';
     nextId := nextId c'; created := created c'; settled := settled c';
     timers := timers c'; stdin := stdin c' |}.

(** What happens to a client: a call with a generated id, a line from
    the server, a timer, an error or the exit of the server process. *)
Inductive Input :=
| Call (method : jsstring) (params : option Json)
| Line (line : option JSONRPCResponse)
| Timer (ticket : nat)
| ProcessError (error : Error)
| ProcessExit (code : option Z).

Definition step (c : Client) (i : Input) : Client :=
  match i with
  | Call method params => snd (call method params None c)
  | Line line => handleResponse line c
  | Timer ticket => timerFired ticket c
  | ProcessError error => rejectAllPending error c
  | ProcessExit code => onExit code c
  end.

Definition run (inputs : list Input) : Client := fold_left step inputs started.

(** The promises that wait for an answer are those of the pending
    requests, one apiece, each with its timer armed. *)
Definition wellFormed (c : Client) : Prop :=
  (forall i k, pendingRequests c !! i = Some k ->
     settled c !! k = None /\ (i < nextId c)%Z /\ (k < created c)%nat /\
     exists method, timers c !! k = Some (i, method)) /\
  (forall k i method, timers c !! k = Some (i, method) ->
     pendingRequests c !! i = Some k) /\
  (forall k v, settled c !! k = Some v -> (k < created c)%nat).

End McpTestClient.

(** ** More concrete cases *)

Module Cases.
Import BrowserManager Scenarios Runs MCPServer McpTestClient.

(** The screenshot directory does not exist yet. *)
Definition freshDisk : Engine :=
  {| dateNow := dateNow obliging; newDate := newDate obliging;
     stat := fun _ _ => inl Fs.ENOENT; perform := perform obliging;
     chromiumLaunch := chromiumLaunch obliging;
     newContext := newContext obliging;
     newPage := newPage obliging; pageTitle := pageTitle obliging;
     pageUrl := pageUrl obliging; tagName := tagName obliging;
     innerText := innerText obliging; boundingBox := boundingBox obliging;
     pageScreenshot := pageScreenshot obliging |}.

(** A server whose session is launched. *)
Definition serving : Server :=
  {| isInitialized := true; session := launched; stdout := [] |}.

(** A request for a method the server does not know. *)
Definition resourcesList : Json :=
  request (lit "resources/list") None (Some (JNum 7)).

(** An id that cannot be converted to a string. *)
Definition oddId : Json := JObj [field "toString" (JNum 5)].

(** A client with two calls under way, [initialize] under id 1 and
    [tools/list] under id 2. *)
Definition twoCalls : list Input :=
  [Call (lit "initialize") None; Call (lit "tools/list") None].

(** The server's answer to the second of them. *)
Definition toolsListed : JSONRPCResponse :=
  {| respId := JNum 2; respResult := Some (JObj [field "tools" (JArr tools)]);
     respError := None |}.

End Cases.

(** ** Frame conditions *)

Module Frame.
Import BrowserManager.

(** [m] leaves the fields of the manager as they are, whether it returns
    or throws. *)
Definition keeps {A} (m : M A) : Prop :=
  forall s, manager (snd (m s)) = manager s.

(** [m] returns: it never throws. *)
Definition total {A} (m : M A) : Prop :=
  forall s, exists a s', m s = (inr a, s').

(** [m] asks the engine for no click, clear or fill. *)
Definition noInput {A} (m : M A) : Prop :=
  forall s,
    Traces.inputs (history (snd (m s))) = Traces.inputs (history s).

End Frame.

Arguments lit : simpl never.
Arguments ch : simpl never.

(** * Properties *)

(** ** The shutdown coordinator *)

Section HooksFacts.
Import Hooks.

Lemma step_exited p ev c : exited p = Some c -> step p ev = p.
Proof. intros H. unfold step. now rewrite H. Qed.

Lemma run_exited evs : forall p c, exited p = Some c -> run p evs = p.
Proof.
  induction evs as [|ev evs IH]; intros p c H; [reflexivity|].
  cbn. rewrite (step_exited _ _ _ H). now apply (IH p c).
Qed.

Lemma run_snoc p evs ev : run p (evs ++ [ev]) = step (run p evs) ev.
Proof. unfold run. now rewrite fold_left_app. Qed.

Lemma run_cons p ev evs : run p (ev :: evs) = run (step p ev) evs.
Proof. reflexivity. Qed.

Lemma step_raise p t : exited p = None -> step p (Raise t) = handler t p.
Proof. intros H. unfold step. now rewrite H. Qed.

(** A trigger that finds a shutdown in progress starts nothing: the flag,
    the timer, the pending cleanup and the exit status stay as they are. *)
Lemma handler_ignored p t :
  isShuttingDown p = true ->
  let p' := handler t p in
  isShuttingDown p' = true /\ shutdownTimeout p' = shutdownTimeout p /\
  cleanupPending p' = cleanupPending p /\ exited p' = exited p.
Proof.
  intros H. destruct t; cbn; unfold performShutdown; cbn; rewrite H; cbn; auto.
Qed.

(** The first trigger arms the timer and starts the cleanup with its own
    exit code. *)
Lemma handler_first p t :
  isShuttingDown p = false ->
  let p' := handler t p in
  isShuttingDown p' = true /\ shutdownTimeout p' = Some (triggerCode t) /\
  cleanupPending p' = Some (triggerCode t) /\ exited p' = exited p.
Proof.
  intros H. destruct t; cbn; unfold performShutdown; cbn; rewrite H; cbn; auto.
Qed.

(** Triggers that arrive while the cleanup runs change nothing of it. *)
Lemma run_triggers_ignored ts : forall p,
  isShuttingDown p = true -> exited p = None ->
  let p' := run p (List.map Raise ts) in
  isShuttingDown p' = true /\ shutdownTimeout p' = shutdownTimeout p /\
  cleanupPending p' = cleanupPending p /\ exited p' = None.
Proof.
  induction ts as [|t ts IH]; intros p Hs He; [cbn; auto|].
  cbn [List.map]. cbn zeta. rewrite run_cons, (step_raise _ _ He).
  destruct (handler_ignored p t Hs) as (H1 & H2 & H3 & H4).
  rewrite He in H4.
  destruct (IH (handler t p) H1 H4) as (I1 & I2 & I3 & I4).
  cbn zeta in I1, I2, I3, I4.
  rewrite I1, I2, I3, I4, H2, H3. auto.
Qed.

(** C9.  A trigger that arrives while a shutdown is in progress is
    ignored; otherwise, whatever further triggers arrive while the cleanup
    callback runs, the process exits with the code of the first trigger
    (130 for the interrupt signal, 0 for the termination signal, 1 for an
    uncaught exception or an unhandled rejection) when the callback
    succeeds, and also when it never settles and the safety timer ends
    the process; it exits with 1 when the callback fails. *)
Theorem performShutdown_exit_codes (p : Process) (t : Trigger) (later : list Trigger) :
  exited p = None ->
  (isShuttingDown p = true ->
     let p' := step p (Raise t) in
     isShuttingDown p' = true /\ shutdownTimeout p' = shutdownTimeout p /\
     cleanupPending p' = cleanupPending p /\ exited p' = None) /\
  (isShuttingDown p = false ->
     exited (run p (Raise t :: List.map Raise later ++ [CleanupResolved]))
       = Some (triggerCode t) /\
     exited (run p (Raise t :: List.map Raise later ++ [TimerFired]))
       = Some (triggerCode t) /\
     exited (run p (Raise t :: List.map Raise later ++ [CleanupRejected]))
       = Some 1%Z).
Proof.
  intros He. split; intros Hs.
  - unfold step. rewrite He.
    destruct (handler_ignored p t Hs) as (H1 & H2 & H3 & H4).
    rewrite He in H4. auto.
  - destruct (handler_first p t Hs) as (H1 & H2 & H3 & H4).
    rewrite He in H4.
    destruct (run_triggers_ignored later (handler t p) H1 H4) as (I1 & I2 & I3 & I4).
    cbn zeta in *.
    rewrite !run_cons, !run_snoc, (step_raise _ _ He).
    unfold step. rewrite I4.
    unfold cleanupResolved, cleanupRejected, timerFired.
    rewrite I3, H3, I2, H2. cbn. auto.
Qed.

Lemma performShutdown_exit_codes_witness :
  exited (run initial [Raise SIGINT; Raise SIGTERM; CleanupResolved]) = Some 130%Z /\
  exited (run initial [Raise UncaughtException; Raise SIGINT; TimerFired]) = Some 1%Z /\
  exited (run initial [Raise SIGTERM; Raise SIGINT; CleanupRejected]) = Some 1%Z.
Proof.
  split; [|split].
  - exact (proj1 (proj2 (performShutdown_exit_codes initial SIGINT [SIGTERM] eq_refl) eq_refl)).
  - exact (proj1 (proj2 (proj2 (performShutdown_exit_codes initial UncaughtException [SIGINT] eq_refl) eq_refl))).
  - exact (proj2 (proj2 (proj2 (performShutdown_exit_codes initial SIGTERM [SIGINT] eq_refl) eq_refl))).
Defined.

(** X22.  When the cleanup neither succeeds nor fails within the grace period,
    the timer ends the process with the code of the first trigger. *)
Lemma force_exit_code (p : Process) (t : Trigger) (later : list Trigger) :
  exited p = None -> isShuttingDown p = false ->
  exited (run p (Raise t :: List.map Raise later ++ [TimerFired]))
    = Some (triggerCode t).
Proof.
  intros He Hs.
  destruct (handler_first p t Hs) as (H1 & H2 & H3 & H4).
  rewrite He in H4.
  destruct (run_triggers_ignored later (handler t p) H1 H4) as (I1 & I2 & I3 & I4).
  cbn zeta in *.
  rewrite run_cons, run_snoc, (step_raise _ _ He).
  unfold step. rewrite I4.
  unfold timerFired. rewrite I2, H2. reflexivity.
Qed.

(** *** Every run of the coordinator *)

Lemma firstTrigger_snoc evs ev :
  Signals.firstTrigger (evs ++ [ev])
  = match Signals.firstTrigger evs with
    | Some t => Some t
    | None => match ev with Raise t => Some t | _ => None end
    end.
Proof.
  induction evs as [|ev' evs IH]; [now destruct ev|].
  destruct ev'; cbn; auto.
Qed.

(** What holds of the coordinator after any events, from the start of the
    process. *)
Lemma run_invariant evs :
  let p := run initial evs in
  match Signals.firstTrigger evs with
  | None => p = initial
  | Some t =>
    isShuttingDown p = true /\
    cleanupPending p = Some (triggerCode t) /\
    (shutdownTimeout p = None \/ shutdownTimeout p = Some (triggerCode t)) /\
    (exited p = None \/ exited p = Some (triggerCode t) \/
     exited p = Some ExitCode.ERROR)
  end.
Proof.
  induction evs as [|ev evs IH] using rev_ind; [reflexivity|].
  cbn zeta in *. rewrite run_snoc, firstTrigger_snoc.
  destruct (Signals.firstTrigger evs) as [t|].
  - destruct IH as (H1 & H2 & H3 & H4).
    unfold step. destruct (exited (run initial evs)) as [c|] eqn:He;
      [rewrite He; auto|].
    destruct ev as [t'| | |]; cbn iota.
    + destruct (handler_ignored _ t' H1) as (I1 & I2 & I3 & I4).
      cbn zeta in I1, I2, I3, I4. rewrite I1, I2, I3, I4, He. auto.
    + unfold cleanupResolved. rewrite H2. cbn. auto 6.
    + unfold cleanupRejected. rewrite H2. cbn. auto 6.
    + unfold timerFired.
      destruct H3 as [H3|H3]; rewrite H3; cbn; rewrite ?He; auto 6.
  - rewrite IH. destruct ev as [t'| | |]; try reflexivity.
    destruct t'; cbn; auto 6.
Qed.

(** X20.  Whatever signals and errors arrive, in whatever order, and however
    the cleanup ends, the process exits with the code of the first of
    them or with 1, and it does not exit before one has arrived. *)
Theorem exit_code_of_run (evs : list Event) (c : Z) :
  exited (run initial evs) = Some c ->
  exists t,
    Signals.firstTrigger evs = Some t /\
    (c = triggerCode t \/ c = ExitCode.ERROR).
Proof.
  intros He. pose proof (run_invariant evs) as H. cbn zeta in H.
  destruct (Signals.firstTrigger evs) as [t|].
  - exists t. split; [reflexivity|].
    destruct H as (_ & _ & _ & [H|[H|H]]); rewrite H in He;
      [discriminate| |]; injection He as <-; auto.
  - rewrite H in He. discriminate.
Qed.

(** X21.  Once a shutdown is in progress it stays in progress, and the cleanup
    it started is the only one: no later signal, error, completion or
    timeout starts another or changes the exit code it was started
    with. *)
Theorem shutdown_in_progress_permanent (p : Process) (evs : list Event) :
  isShuttingDown p = true ->
  isShutdownInProgress (run p evs) = true /\
  cleanupPending (run p evs) = cleanupPending p.
Proof.
  revert p. induction evs as [|ev evs IH]; intros p Hs; [auto|].
  rewrite run_cons.
  assert (H : isShuttingDown (step p ev) = true /\
              cleanupPending (step p ev) = cleanupPending p).
  { unfold step. destruct (exited p); [auto|].
    destruct ev as [t| | |]; cbn iota.
    - destruct (handler_ignored p t Hs) as (I1 & _ & I3 & _).
      split; [exact I1|exact I3].
    - unfold cleanupResolved.
      destruct (cleanupPending p) eqn:Hc; cbn; rewrite ?Hc; auto.
    - unfold cleanupRejected.
      destruct (cleanupPending p) eqn:Hc; cbn; rewrite ?Hc; auto.
    - unfold timerFired. destruct (shutdownTimeout p); cbn; auto. }
  destruct H as [H1 H2]. destruct (IH _ H1) as [I1 I2].
  split; [exact I1|]. now rewrite I2.
Qed.

End HooksFacts.

(** ** The protocol server: requests and responses *)

Section ServerBasics.
Import BrowserManager MCPServer.

Lemma get_method method params id :
  get "method" (request method params id) = Some (JStr method).
Proof. reflexivity. Qed.

Lemma get_params method params id :
  get "params" (request method params id) = params.
Proof. destruct params, id; reflexivity. Qed.

Lemma get_id method params id :
  get "id" (request method params id) = id.
Proof. destruct params, id; reflexivity. Qed.

Lemma interpolates_string s : interpolates [Some (JStr s)] = true.
Proof. reflexivity. Qed.

(** What [sendResult] and [sendError] leave, whether or not the logger
    call after the write throws. *)
Lemma sendResult_snd id result srv :
  snd (sendResult id result srv)
  = write {| respId := id; respResult := Some result; respError := None |} srv.
Proof.
  unfold sendResult, mbind, Task_bind, sbind, send, log.
  now destruct (interpolates [Some id]).
Qed.

Lemma sendError_snd id code message data srv :
  snd (sendError id code message data srv)
  = write {| respId := id; respResult := None;
             respError := Some {| errCode := code; errMessage := message;
                                  errData := data |} |} srv.
Proof.
  unfold sendError, mbind, Task_bind, sbind, send, log.
  now destruct (interpolates [Some id]).
Qed.

Lemma sendResult_fst id result srv :
  fst (sendResult id result srv)
  = if interpolates [Some id] then inr tt else inl NotPrimitive.
Proof.
  unfold sendResult, mbind, Task_bind, sbind, send, log.
  now destruct (interpolates [Some id]).
Qed.


(** A request with a method that is a string goes to the handler of the
    method. *)
Lemma handleRequest_request cfg lib E method params id srv :
  handleRequest cfg lib E (request method params id) srv
  = (if Js.eqb method (lit "initialize") then
       handleInitialize params (orNull id)
     else if Js.eqb method (lit "tools/list") then handleToolsList (orNull id)
     else if Js.eqb method (lit "tools/call") then
       handleToolsCall cfg lib E params (orNull id)
     else
       sendError (orNull id) ErrorCode.METHOD_NOT_FOUND
         (lit "Method not found: " ++ method) None) srv.
Proof.
  unfold handleRequest.
  change (match request method params id with JNull => ?a | _ => ?b end)
    with b.
  cbn zeta. rewrite get_method, get_params, get_id. reflexivity.
Qed.

End ServerBasics.

(** ** The protocol server: [tools/list] *)

Section ToolsList.
Import BrowserManager MCPServer.

Context (cfg : Config) (lib : NodeLib) (E : Engine).

(** C1.  A [tools/list] request is answered with one response, whose
    tools are named browser_launch, browser_navigate, browser_screenshot
    and browser_quit: four of the seven documented names.  browser_find,
    browser_click and browser_type, which the smoke test requires, are
    not listed. *)
Theorem tools_list_names (params id : option Json) (srv : Server) :
  exists r,
    stdout (snd (handleRequest cfg lib E (toolsListRequest params id) srv))
      = stdout srv ++ [r] /\
    respId r = orNull id /\
    toolNames r = List.map lit
      ["browser_launch"; "browser_navigate"; "browser_screenshot";
       "browser_quit"]%string /\
    toolNames r <> requiredTools /\
    ~ In (lit "browser_find") (toolNames r) /\
    ~ In (lit "browser_click") (toolNames r) /\
    ~ In (lit "browser_type") (toolNames r).
Proof.
  unfold toolsListRequest. rewrite handleRequest_request.
  change (Js.eqb (lit "tools/list") (lit "initialize")) with false.
  change (Js.eqb (lit "tools/list") (lit "tools/list")) with true.
  cbn iota. unfold handleToolsList. rewrite sendResult_snd.
  eexists. split; [reflexivity|]. split; [reflexivity|].
  split; [reflexivity|].
  repeat split; vm_compute; intros H.
  - discriminate H.
  - repeat (destruct H as [H|H]; [discriminate H|]). exact H.
  - repeat (destruct H as [H|H]; [discriminate H|]). exact H.
  - repeat (destruct H as [H|H]; [discriminate H|]). exact H.
Qed.

End ToolsList.

(** ** Names of error screenshots *)

Section NameFacts.

Lemma isDigit_uintDigits u : Forall (fun c => isDigit c = true) (uintDigits u).
Proof. induction u; cbn [uintDigits]; constructor; auto. Qed.

Lemma isDigit_showN n : Forall (fun c => isDigit c = true) (showN n).
Proof. apply isDigit_uintDigits. Qed.

Lemma below_forallb (P : N -> bool) (k : nat) :
  forallb P (List.map N.of_nat (seq 0 k)) = true ->
  forall n, n < N.of_nat k -> P n = true.
Proof.
  intros H n Hn. rewrite forallb_forall in H. apply H.
  apply in_map_iff. exists (N.to_nat n). split; [apply N2Nat.id|].
  apply in_seq. lia.
Qed.

Lemma length_showN_2 n : n < 100 -> (length (showN n) <= 2)%nat.
Proof.
  intros H. apply Nat.leb_le.
  apply (below_forallb (fun n => (length (showN n) <=? 2)%nat) 100);
    [vm_compute; reflexivity|exact H].
Qed.

Lemma length_showN_3 n : n < 1000 -> (length (showN n) <= 3)%nat.
Proof.
  intros H. apply Nat.leb_le.
  apply (below_forallb (fun n => (length (showN n) <=? 3)%nat) 1000);
    [vm_compute; reflexivity|exact H].
Qed.

Lemma length_showN_4 n : n < 10000 -> (length (showN n) <= 4)%nat.
Proof.
  intros H. apply Nat.leb_le.
  apply (below_forallb (fun n => (length (showN n) <=? 4)%nat)
           (N.to_nat 10000));
    [vm_compute; reflexivity|exact H].
Qed.

Lemma isDigit_padStart w s :
  Forall (fun c => isDigit c = true) s ->
  Forall (fun c => isDigit c = true) (padStart w s).
Proof.
  intros H. unfold padStart. apply Forall_app. split; [|exact H].
  induction (w - length s)%nat; cbn; constructor; auto.
Qed.

Lemma length_padStart w s :
  (length s <= w)%nat -> length (padStart w s) = w.
Proof.
  intros H. unfold padStart. rewrite length_app, repeat_length. lia.
Qed.

Lemma isDigit_bounds c : isDigit c = true -> 48 <= c <= 57.
Proof.
  unfold isDigit. change (ch "0") with 48. change (ch "9") with 57.
  intros H. apply andb_true_iff in H as [H1 H2].
  apply N.leb_le in H1, H2. lia.
Qed.

Lemma removeDashColon_app s t :
  removeDashColon (s ++ t) = removeDashColon s ++ removeDashColon t.
Proof. apply List.filter_app. Qed.

Lemma removeDashColon_digits s :
  Forall (fun c => isDigit c = true) s -> removeDashColon s = s.
Proof.
  induction 1 as [|c s Hc _ IH]; [reflexivity|].
  unfold removeDashColon in *. cbn [List.filter]. rewrite IH.
  apply isDigit_bounds in Hc.
  change (ch "-") with 45. change (ch ":") with 58.
  replace (c =? 45) with false by (symmetry; apply N.eqb_neq; lia).
  replace (c =? 58) with false by (symmetry; apply N.eqb_neq; lia).
  reflexivity.
Qed.

Lemma removeMillis_cons c s :
  c <> ch "." -> removeMillis (c :: s) = c :: removeMillis s.
Proof.
  intros H. apply N.eqb_neq in H.
  destruct s as [|d1 [|d2 [|d3 r]]]; try reflexivity.
  change (removeMillis (c :: d1 :: d2 :: d3 :: r))
    with (if (c =? ch ".") && isDigit d1 && isDigit d2 && isDigit d3 then r
          else c :: removeMillis (d1 :: d2 :: d3 :: r)).
  now rewrite H.
Qed.

Lemma removeMillis_skip pre rest :
  Forall (fun c => c <> ch ".") pre ->
  removeMillis (pre ++ rest) = pre ++ removeMillis rest.
Proof.
  induction 1 as [|c pre Hc _ IH]; [reflexivity|].
  cbn [app]. rewrite removeMillis_cons by exact Hc. now rewrite IH.
Qed.

Lemma removeMillis_found d1 d2 d3 rest :
  isDigit d1 = true -> isDigit d2 = true -> isDigit d3 = true ->
  removeMillis (ch "." :: d1 :: d2 :: d3 :: rest) = rest.
Proof.
  intros H1 H2 H3.
  change (removeMillis (ch "." :: d1 :: d2 :: d3 :: rest))
    with (if (ch "." =? ch ".") && isDigit d1 && isDigit d2 && isDigit d3
          then rest
          else ch "." :: removeMillis (d1 :: d2 :: d3 :: rest)).
  now rewrite H1, H2, H3.
Qed.

Lemma digits_no_dot s :
  Forall (fun c => isDigit c = true) s -> Forall (fun c => c <> ch ".") s.
Proof.
  intros H. eapply Forall_impl; [exact H|].
  intros c Hc. apply isDigit_bounds in Hc.
  change (ch ".") with 46. lia.
Qed.

(** For a date of the runtime, the timestamp of an error screenshot is
    the ISO 8601 one without dashes, colons and milliseconds. *)
Lemma timestampOf_compact d :
  wfDate d -> BrowserManager.timestampOf d = compactTimestamp d.
Proof.
  intros (Hy & Hmo & Hd & Hh & Hmi & Hs & Hms).
  unfold BrowserManager.timestampOf, toISOString, isoYear, compactTimestamp.
  replace ((0 <=? year d)%Z && (year d <=? 9999)%Z) with true
    by (symmetry; apply andb_true_iff; split; apply Z.leb_le; lia).
  set (Y := padStart 4 (showN (Z.abs_N (year d)))).
  set (Mo := padStart 2 (showN (month d))).
  set (D := padStart 2 (showN (day d))).
  set (H := padStart 2 (showN (hours d))).
  set (Mi := padStart 2 (showN (minutes d))).
  set (S := padStart 2 (showN (seconds d))).
  set (Ms := padStart 3 (showN (milliseconds d))).
  assert (dY : Forall (fun c => isDigit c = true) Y)
    by apply isDigit_padStart, isDigit_showN.
  assert (dMo : Forall (fun c => isDigit c = true) Mo)
    by apply isDigit_padStart, isDigit_showN.
  assert (dD : Forall (fun c => isDigit c = true) D)
    by apply isDigit_padStart, isDigit_showN.
  assert (dH : Forall (fun c => isDigit c = true) H)
    by apply isDigit_padStart, isDigit_showN.
  assert (dMi : Forall (fun c => isDigit c = true) Mi)
    by apply isDigit_padStart, isDigit_showN.
  assert (dS : Forall (fun c => isDigit c = true) S)
    by apply isDigit_padStart, isDigit_showN.
  assert (dMs : Forall (fun c => isDigit c = true) Ms)
    by apply isDigit_padStart, isDigit_showN.
  assert (lMs : length Ms = 3%nat)
    by (apply length_padStart, length_showN_3; exact Hms).
  rewrite !removeDashColon_app.
  rewrite (removeDashColon_digits Y dY), (removeDashColon_digits Mo dMo),
    (removeDashColon_digits D dD), (removeDashColon_digits H dH),
    (removeDashColon_digits Mi dMi), (removeDashColon_digits S dS),
    (removeDashColon_digits Ms dMs).
  change (removeDashColon (lit "-")) with (@nil N).
  change (removeDashColon (lit ":")) with (@nil N).
  change (removeDashColon (lit "T")) with (lit "T").
  change (removeDashColon (lit ".")) with (lit ".").
  change (removeDashColon (lit "Z")) with (lit "Z").
  cbn [app].
  rewrite !(app_assoc _ _ (lit "." ++ _)).
  rewrite removeMillis_skip.
  - destruct Ms as [|d1 [|d2 [|d3 [|d4 r]]]]; try discriminate lMs.
    inversion dMs as [|? ? E1 dMs1]; subst.
    inversion dMs1 as [|? ? E2 dMs2]; subst.
    inversion dMs2 as [|? ? E3 _]; subst.
    change (lit "." ++ [d1; d2; d3] ++ lit "Z")
      with (ch "." :: d1 :: d2 :: d3 :: lit "Z").
    rewrite removeMillis_found by assumption.
    rewrite <- !app_assoc. reflexivity.
  - repeat first [ apply digits_no_dot; assumption
                 | apply Forall_app; split ].
    vm_compute. repeat constructor. discriminate.
Qed.

(** *** File names that are one path segment *)

Lemma isSafeChar_digit c : isDigit c = true -> Traces.isSafeChar c = true.
Proof.
  intros H. unfold Traces.isSafeChar, isAlnum. rewrite H.
  now rewrite !orb_true_r.
Qed.

Lemma isSafeChar_digits s :
  Forall (fun c => isDigit c = true) s ->
  Forall (fun c => Traces.isSafeChar c = true) s.
Proof. intros H. eapply Forall_impl; [exact H|]. apply isSafeChar_digit. Qed.

Lemma isSafeChar_replaceRuns s : forall inRun,
  Forall (fun c => Traces.isSafeChar c = true) (replaceRuns inRun s).
Proof.
  induction s as [|c s IH]; intros inRun; cbn [replaceRuns]; [constructor|].
  destruct (isAlnum c) eqn:Hc.
  - constructor; [|apply IH]. unfold Traces.isSafeChar. now rewrite Hc.
  - destruct inRun; [apply IH|]. constructor; [reflexivity|apply IH].
Qed.

Lemma Forall_stripLeading (P : N -> Prop) s :
  Forall P s -> Forall P (stripLeading s).
Proof.
  induction 1 as [|c s Hc Hs IH]; cbn [stripLeading]; [constructor|].
  destruct (c =? ch "_"); [exact IH|now constructor].
Qed.

Lemma Forall_stripUnderscores (P : N -> Prop) s :
  Forall P s -> Forall P (stripUnderscores s).
Proof.
  intros H. unfold stripUnderscores, stripTrailing.
  apply Forall_rev, Forall_stripLeading, Forall_rev.
  now apply Forall_stripLeading.
Qed.

(** X19.  The file name of an error screenshot is made of letters, digits,
    [-], [_] and [.] only, whatever the step name holds: it has no path
    separator, no colon and no white space, so the screenshot lands in
    the screenshot directory itself. *)
Theorem error_screenshot_name_safe (E : BrowserManager.Engine)
    (stepName : jsstring) (s : BrowserManager.State) :
  wfDate (BrowserManager.newDate E (BrowserManager.history s)) ->
  exists name s',
    BrowserManager.buildErrorScreenshotName E stepName s = (inr name, s') /\
    Forall (fun c => Traces.isSafeChar c = true) name.
Proof.
  intros Hwf. eexists _, _. split; [reflexivity|].
  rewrite (timestampOf_compact _ Hwf). unfold compactTimestamp.
  repeat first
    [ apply isSafeChar_digits, isDigit_padStart, isDigit_showN
    | apply Forall_stripUnderscores, isSafeChar_replaceRuns
    | apply Forall_app; split
    | (vm_compute; repeat constructor) ].
Qed.

End NameFacts.

(** ** The session manager *)

Section ManagerFacts.
Import BrowserManager Frame.

Context (cfg : Config) (lib : NodeLib) (E : Engine).

Lemma bind_inr {A B} (m : M A) (k : A -> M B) s a s' :
  m s = (inr a, s') -> (m ≫= k) s = k a s'.
Proof. intros H. unfold mbind, M_bind, bind. now rewrite H. Qed.

Lemma bind_inl {A B} (m : M A) (k : A -> M B) s e s' :
  m s = (inl e, s') -> (m ≫= k) s = (inl e, s').
Proof. intros H. unfold mbind, M_bind, bind. now rewrite H. Qed.

Lemma tryCatch_inr {A} (m : M A) h s a s' :
  m s = (inr a, s') -> tryCatch m h s = (inr a, s').
Proof. intros H. unfold tryCatch. now rewrite H. Qed.

Lemma tryCatch_inl {A} (m : M A) h s e s' :
  m s = (inl e, s') -> tryCatch m h s = h e s'.
Proof. intros H. unfold tryCatch. now rewrite H. Qed.

(** *** Operations that keep the handles *)

Lemma keeps_ret {A} (a : A) : keeps (mret a).
Proof. intros s. reflexivity. Qed.

Lemma keeps_ret' {A} (a : A) : keeps (ret a).
Proof. intros s. reflexivity. Qed.

Lemma keeps_throw {A} e : keeps (@throw A e).
Proof. intros s. reflexivity. Qed.

Lemma keeps_bind {A B} (m : M A) (k : A -> M B) :
  keeps m -> (forall a, keeps (k a)) -> keeps (m ≫= k).
Proof.
  intros Hm Hk s. unfold mbind, M_bind, bind.
  specialize (Hm s). destruct (m s) as [[e|a] s1]; cbn in *; [exact Hm|].
  now rewrite Hk.
Qed.

Lemma keeps_tryCatch {A} (m : M A) h :
  keeps m -> (forall e, keeps (h e)) -> keeps (tryCatch m h).
Proof.
  intros Hm Hh s. unfold tryCatch.
  specialize (Hm s). destruct (m s) as [[e|a] s1]; cbn in *; [|exact Hm].
  now rewrite Hh.
Qed.

Lemma keeps_getManager : keeps getManager.
Proof. intros s. reflexivity. Qed.

Lemma keeps_ask {R} (answer : list Event -> R) ev : keeps (ask answer ev).
Proof. intros s. reflexivity. Qed.

Lemma keeps_call {R} (answer : list Event -> Error + R) ev : keeps (call answer ev).
Proof. intros s. reflexivity. Qed.

Lemma keeps_emit ev : keeps (emit ev).
Proof. intros s. reflexivity. Qed.

Lemma keeps_logger level msg : keeps (logger level msg).
Proof. intros s. reflexivity. Qed.

Lemma keeps_doAction a : keeps (doAction E a).
Proof. intros s. reflexivity. Qed.

Lemma keeps_if {A} (b : bool) (m1 m2 : M A) :
  keeps m1 -> keeps m2 -> keeps (if b then m1 else m2).
Proof. now destruct b. Qed.

Create HintDb keeps.
Hint Resolve keeps_ret keeps_ret' keeps_throw keeps_getManager keeps_ask
  keeps_call keeps_emit keeps_logger keeps_doAction : keeps.

Ltac keeps_step :=
  first
    [ apply keeps_bind; [|intros ?]
    | apply keeps_tryCatch; [|intros ?]
    | apply keeps_if
    | match goal with
      | |- keeps (match ?x with _ => _ end) => destruct x
      end
    | solve [auto with keeps] ].

Ltac keeps_tac := repeat keeps_step.

Lemma keeps_ensureDir dirPath : keeps (ensureDir E dirPath).
Proof. unfold ensureDir. keeps_tac. Qed.
Hint Resolve keeps_ensureDir : keeps.

Lemma keeps_ensureLaunched operation : keeps (ensureLaunched operation).
Proof. unfold ensureLaunched. keeps_tac. Qed.
Hint Resolve keeps_ensureLaunched : keeps.

Lemma keeps_thePage : keeps thePage.
Proof. unfold thePage. keeps_tac. Qed.
Hint Resolve keeps_thePage : keeps.

Lemma keeps_screenshot options : keeps (screenshot lib E options).
Proof. unfold screenshot. keeps_tac. Qed.
Hint Resolve keeps_screenshot : keeps.

Lemma keeps_buildErrorScreenshotName stepName :
  keeps (buildErrorScreenshotName E stepName).
Proof. unfold buildErrorScreenshotName. keeps_tac. Qed.
Hint Resolve keeps_buildErrorScreenshotName : keeps.

Lemma keeps_captureErrorScreenshot stepName :
  keeps (captureErrorScreenshot cfg lib E stepName).
Proof. unfold captureErrorScreenshot. keeps_tac. Qed.
Hint Resolve keeps_captureErrorScreenshot : keeps.

Lemma keeps_runStep {T} stepName (fn : M T) :
  keeps fn -> keeps (runStep cfg lib E stepName fn).
Proof. intros H. unfold runStep. keeps_tac. Qed.

Lemma keeps_navigate url : keeps (navigate cfg lib E url).
Proof. unfold navigate. keeps_tac. Qed.

Lemma keeps_getTitle : keeps (getTitle E).
Proof. unfold getTitle. keeps_tac. Qed.

Lemma keeps_getUrl : keeps (getUrl E).
Proof. unfold getUrl. keeps_tac. Qed.

Lemma keeps_waitForSelector selector options :
  keeps (waitForSelector cfg lib E selector options).
Proof. unfold waitForSelector. keeps_tac. Qed.

Lemma keeps_find selector : keeps (find selector).
Proof. unfold find. keeps_tac. Qed.

Lemma keeps_click selector options : keeps (click cfg lib E selector options).
Proof. unfold click. keeps_tac. Qed.

Lemma keeps_type selector text options :
  keeps (type cfg lib E selector text options).
Proof. unfold type. keeps_tac. Qed.

Lemma keeps_getElementInfo selector options :
  keeps (getElementInfo cfg lib E selector options).
Proof. unfold getElementInfo. keeps_tac. Qed.

Lemma keeps_void {A} (m : M A) : keeps m -> keeps (void m).
Proof. intros H. unfold void. keeps_tac. Qed.

(** *** The step runner *)

Lemma total_tryCatch {A} (m : M A) h :
  (forall e, total (h e)) -> total (tryCatch m h).
Proof.
  intros Hh s. unfold tryCatch. destruct (m s) as [[e|a] s1]; [apply Hh|eauto].
Qed.

Lemma total_logger level msg : total (logger level msg).
Proof. intros s. eexists _, _. reflexivity. Qed.

Lemma total_emit ev : total (emit ev).
Proof. intros s. eexists _, _. reflexivity. Qed.

Lemma total_captureErrorScreenshot stepName :
  total (captureErrorScreenshot cfg lib E stepName).
Proof. apply total_tryCatch. intros e. apply total_logger. Qed.

Lemma runStep_inl {T} stepName (fn : M T) s e s2 :
  fn (entered E stepName s) = (inl e, s2) ->
  runStep cfg lib E stepName fn s =
    (inl e, snd (captureErrorScreenshot cfg lib E stepName
                   (failed E stepName s e s2))).
Proof.
  intros H. unfold runStep, mbind, M_bind, bind, tryCatch, ask, logger, emit.
  fold (entered E stepName s). rewrite H.
  fold (failed E stepName s e s2).
  destruct (total_captureErrorScreenshot stepName (failed E stepName s e s2))
    as ([] & s4 & H4).
  unfold throw. now rewrite H4.
Qed.

Lemma runStep_inr {T} stepName (fn : M T) s a s2 :
  fn (entered E stepName s) = (inr a, s2) ->
  runStep cfg lib E stepName fn s = (inr a, completed E stepName s s2).
Proof.
  intros H. unfold runStep, mbind, M_bind, bind, tryCatch, ask, logger, emit.
  fold (entered E stepName s). now rewrite H.
Qed.

(** [runStep] throws exactly when [fn] does, and then the same error. *)
Lemma runStep_result {T} stepName (fn : M T) s :
  fst (runStep cfg lib E stepName fn s) = fst (fn (entered E stepName s)).
Proof.
  destruct (fn (entered E stepName s)) as [[e|a] s2] eqn:H.
  - now rewrite (runStep_inl _ _ _ _ _ H).
  - now rewrite (runStep_inr _ _ _ _ _ H).
Qed.

Lemma runStep_manager {T} stepName (fn : M T) s :
  manager (snd (runStep cfg lib E stepName fn s))
  = manager (snd (fn (entered E stepName s))).
Proof.
  destruct (fn (entered E stepName s)) as [[e|a] s2] eqn:H.
  - rewrite (runStep_inl _ _ _ _ _ H). cbn [snd].
    now rewrite keeps_captureErrorScreenshot.
  - now rewrite (runStep_inr _ _ _ _ _ H).
Qed.

(** *** launch *)

Lemma launch_active options s b :
  browser (manager s) = Some b ->
  fst (launch cfg lib E options s) = inl AlreadyLaunchedError /\
  manager (snd (launch cfg lib E options s)) = manager s.
Proof.
  intros Hb. unfold launch. rewrite runStep_result, runStep_manager.
  unfold mbind, M_bind, bind, getManager. cbn. rewrite Hb. cbn. auto.
Qed.

(** From [H : m s = (r, s1)], the fact that [s1] has the fields of [s],
    for an [m] that keeps them. *)
Ltac keeps_from H :=
  match type of H with
  | ?m ?s = (?r, ?s1) =>
    let K := fresh "K" in
    assert (K : keeps m) by keeps_tac;
    specialize (K s); rewrite H in K; cbn [snd manager record] in K
  end.

(** Run the first computation of a [bind] that returns by computation. *)
Ltac pure_step :=
  match goal with
  | |- context [(?m ≫= ?k) ?s] => rewrite (bind_inr m k s _ _ eq_refl)
  end.

(** Case analysis on the outcome of the first computation of a [bind]. *)
Ltac bind_step H :=
  match goal with
  | |- context [(?m ≫= ?k) ?s] =>
    let s1 := fresh "s" in
    destruct (m s) as [[?e|?a] s1] eqn:H;
    [rewrite (bind_inl m k s _ _ H) | rewrite (bind_inr m k s _ _ H)]
  end.

(** A launch that returns has set the three handles. *)
Lemma launch_inr options s u s' :
  launch cfg lib E options s = (inr u, s') ->
  exists b c p,
    manager s' = {| browser := Some b; context := Some c; page := Some p;
                    isShuttingDown := isShuttingDown (manager s) |}.
Proof.
  intros H.
  assert (Hr : fst (launch cfg lib E options s) = inr u) by now rewrite H.
  assert (Hm : manager (snd (launch cfg lib E options s)) = manager s')
    by now rewrite H.
  clear H. revert Hr Hm. unfold launch. rewrite runStep_result, runStep_manager.
  assert (He : manager (entered E (lit "launch") s) = manager s) by reflexivity.
  revert He. generalize (entered E (lit "launch") s). intros s0 He.
  pure_step.
  destruct (browser (manager s0)) eqn:Hb; [discriminate|].
  pure_step.
  bind_step H2; [discriminate|]. keeps_from H2.
  bind_step H3; [discriminate|]. keeps_from H3.
  pure_step.
  bind_step H4; [discriminate|]. keeps_from H4.
  pure_step.
  bind_step H5; [discriminate|]. keeps_from H5.
  pure_step.
  cbn. intros _ <-.
  rewrite K2. cbn. rewrite K1. cbn. rewrite K0, K, He. eauto.
Qed.

(** *** Operations on a manager without a session *)

Lemma ensureLaunched_inl operation s :
  notLaunched (manager s) ->
  ensureLaunched operation s = (inl (NotLaunchedError operation), s).
Proof.
  intros H. unfold ensureLaunched. pure_step.
  destruct H as [H|H]; rewrite H; [reflexivity|].
  now destruct (browser (manager s)).
Qed.

Lemma ensureLaunched_inr operation s b p :
  browser (manager s) = Some b -> page (manager s) = Some p ->
  ensureLaunched operation s = (inr tt, s).
Proof.
  intros Hb Hp. unfold ensureLaunched. pure_step. now rewrite Hb, Hp.
Qed.

(** C4.  navigate, getTitle, getUrl, waitForSelector, find, click, type,
    getElementInfo, screenshot and quit, called on a manager without a
    session (no browser handle or no page handle, as before any launch
    and after a quit), throw the not-launched error that names the
    operation and leave the state as it is: no field changes, and nothing
    is asked of the engine, the clock or the file system, nor logged. *)

Lemma guarded_inl {A} operation (k : unit -> M A) s :
  notLaunched (manager s) ->
  (ensureLaunched operation ≫= k) s = (inl (NotLaunchedError operation), s).
Proof.
  intros H. apply bind_inl. now apply ensureLaunched_inl.
Qed.

Lemma void_inl {A} (m : M A) s e s' :
  m s = (inl e, s') -> void m s = (inl e, s').
Proof. intros H. unfold void. now apply bind_inl. Qed.

Lemma void_inr {A} (m : M A) s a s' :
  m s = (inr a, s') -> void m s = (inr tt, s').
Proof. intros H. unfold void. now rewrite (bind_inr _ _ _ _ _ H). Qed.

(** C4.  navigate, getTitle, getUrl, waitForSelector, find, click, type,
    getElementInfo, screenshot and quit, called on a manager without a
    session (no browser handle or no page handle, as before any launch
    and after a quit), throw the not-launched error that names the
    operation and leave the state as it is: no field changes, and nothing
    is asked of the engine, the clock or the file system, nor logged. *)
Theorem not_launched_error (op : Op) (name : jsstring) (s : State) :
  guardName op = Some name ->
  notLaunched (manager s) ->
  exec cfg lib E op s = (inl (NotLaunchedError name), s).
Proof.
  intros Hop Hs.
  destruct op; cbn in Hop; inversion Hop; subst name; clear Hop;
    cbn [exec]; try apply void_inl; now apply guarded_inl.
Qed.

(** *** A second launch *)

(** While a browser handle is there, every operation but [quit] and
    [shutdown] leaves the fields as they are, whether it returns or
    throws. *)
Lemma exec_keeps_session op s b :
  teardown op = false ->
  browser (manager s) = Some b ->
  manager (snd (exec cfg lib E op s)) = manager s.
Proof.
  intros Hop Hb. destruct op; try discriminate Hop; cbn [exec].
  - apply (launch_active _ _ _ Hb).
  - apply keeps_navigate.
  - apply keeps_void, keeps_getTitle.
  - apply keeps_void, keeps_getUrl.
  - apply keeps_waitForSelector.
  - apply keeps_void, keeps_find.
  - apply keeps_click.
  - apply keeps_type.
  - apply keeps_void, keeps_getElementInfo.
  - apply keeps_void, keeps_screenshot.
Qed.

Lemma execAll_keeps_session ops : forall s b,
  forallb (fun op => negb (teardown op)) ops = true ->
  browser (manager s) = Some b ->
  manager (execAll cfg lib E ops s) = manager s.
Proof.
  induction ops as [|op ops IH]; intros s b Hops Hb; [reflexivity|].
  cbn in Hops. apply andb_true_iff in Hops as [Hop Hops].
  apply negb_true_iff in Hop.
  change (execAll cfg lib E (op :: ops) s)
    with (execAll cfg lib E ops (snd (exec cfg lib E op s))).
  pose proof (exec_keeps_session op s b Hop Hb) as K.
  rewrite (IH _ b Hops); [exact K|]. now rewrite K.
Qed.

(** C3.  After a launch that succeeded, and any operations other than
    [quit] and [shutdown] since, whatever they returned or threw, a
    second launch throws the already-launched error and leaves the
    browser, context and page handles (and the shutdown flag) as the
    first launch set them. *)
Theorem second_launch_rejected
    (options0 options : option LaunchOptions) (ops : list Op)
    (s0 s1 : State) :
  launch cfg lib E options0 s0 = (inr tt, s1) ->
  forallb (fun op => negb (teardown op)) ops = true ->
  let s := execAll cfg lib E ops s1 in
  fst (launch cfg lib E options s) = inl AlreadyLaunchedError /\
  manager (snd (launch cfg lib E options s)) = manager s /\
  manager s = manager s1 /\
  exists b c p,
    browser (manager s) = Some b /\ context (manager s) = Some c /\
    page (manager s) = Some p.
Proof.
  intros H0 Hops s.
  destruct (launch_inr _ _ _ _ H0) as (b & c & p & Hm).
  assert (Hb : browser (manager s1) = Some b) by now rewrite Hm.
  assert (Hs : manager s = manager s1)
    by apply (execAll_keeps_session ops s1 b Hops Hb).
  assert (Hb' : browser (manager s) = Some b) by now rewrite Hs.
  destruct (launch_active options s b Hb') as [H1 H2].
  repeat split; try assumption.
  exists b, c, p. rewrite Hs, Hm. auto.
Qed.

(** *** quit and shutdown *)

(** [quit] on a launched session clears the three handles, also when a
    [close] throws. *)
Lemma quit_clears s b p :
  browser (manager s) = Some b -> page (manager s) = Some p ->
  manager (snd (quit cfg lib E s)) = cleared (manager s).
Proof.
  intros Hb Hp. unfold quit.
  rewrite (bind_inr _ _ _ _ _ (ensureLaunched_inr _ s b p Hb Hp)).
  rewrite runStep_manager.
  assert (He : manager (entered E (lit "quit") s) = manager s) by reflexivity.
  revert He. generalize (entered E (lit "quit") s). intros [m h] He.
  cbn in He. subst m. destruct s as [[ob oc op isd] h0]. cbn in *. subst.
  unfold mbind, M_bind, bind, tryCatch, getManager, doAction, setPage,
    setContext, setBrowser, setManager, throw, ret, cleared.
  cbn. destruct oc;
  repeat (match goal with
          | |- context [perform E ?h ?a] => destruct (perform E h a) eqn:?
          end; cbn); reflexivity.
Qed.

Lemma shutdown_total : total (shutdown cfg lib E).
Proof.
  intros s. unfold shutdown. pure_step.
  destruct (isShuttingDown (manager s)); [eexists _, _; reflexivity|].
  pure_step. unfold tryFinally.
  match goal with
  | |- context [tryCatch ?m ?h ?s0] =>
    destruct (total_tryCatch m h (fun e => total_emit _) s0)
      as ([] & s1 & H1); rewrite H1
  end.
  cbn. eexists _, _. reflexivity.
Qed.

(** A call that finds a shutdown in progress returns at once. *)
Lemma shutdown_reentrant s :
  isShuttingDown (manager s) = true -> shutdown cfg lib E s = (inr tt, s).
Proof. intros H. unfold shutdown. pure_step. now rewrite H. Qed.

(** Without a browser handle, [shutdown] does nothing. *)
Lemma shutdown_noop s :
  isShuttingDown (manager s) = false -> browser (manager s) = None ->
  shutdown cfg lib E s = (inr tt, s).
Proof.
  intros Hf Hb. unfold shutdown. pure_step. rewrite Hf. pure_step.
  destruct s as [[ob oc op isd] h]. cbn in *. subst.
  reflexivity.
Qed.

(** On a launched session, [shutdown] clears the three handles, whether
    the inner [quit] returned or threw. *)
Lemma shutdown_clears s b p :
  isShuttingDown (manager s) = false ->
  browser (manager s) = Some b -> page (manager s) = Some p ->
  manager (snd (shutdown cfg lib E s)) = cleared (manager s).
Proof.
  intros Hf Hb Hp. unfold shutdown. pure_step. rewrite Hf. pure_step.
  unfold tryFinally, tryCatch. pure_step. cbn [manager browser].
  rewrite Hb.
  match goal with
  | |- context [quit cfg lib E ?s1] =>
    pose proof (quit_clears s1 b p eq_refl Hp) as Hq;
    destruct (quit cfg lib E s1) as [[e|[]] s2]
  end; cbn in *; rewrite Hq; unfold cleared; now rewrite ?Hf.
Qed.

Lemma truncateText_short text :
  (length text <= 200)%nat -> truncateText text = text.
Proof.
  intros H. unfold truncateText.
  replace (200 <? length text)%nat with false
    by (symmetry; apply Nat.ltb_ge; exact H).
  now rewrite andb_false_r.
Qed.

Lemma truncateText_long text :
  (200 < length text)%nat -> truncateText text = firstn 200 text ++ lit "...".
Proof.
  intros H. unfold truncateText.
  replace (200 <? length text)%nat with true
    by (symmetry; apply Nat.ltb_lt; exact H).
  destruct text; [inversion H|reflexivity].
Qed.

Lemma truncateText_length text : (length (truncateText text) <= 203)%nat.
Proof.
  destruct (Nat.le_gt_cases (length text) 200) as [H|H].
  - rewrite truncateText_short by exact H. lia.
  - rewrite truncateText_long by exact H.
    rewrite length_app, length_firstn.
    change (length (lit "...")) with 3%nat. lia.
Qed.

Lemma thePage_inr s p : page (manager s) = Some p -> thePage s = (inr p, s).
Proof. intros H. unfold thePage. pure_step. now rewrite H. Qed.

Lemma doAction_inv a s r s1 :
  doAction E a s = (r, s1) ->
  s1 = record (Did a (perform E (history s) a)) s /\
  r = match perform E (history s) a with Some e => inl e | None => inr tt end.
Proof. unfold doAction. intros H. injection H as <- <-. auto. Qed.

Lemma call_inv {R} (answer : list Event -> Error + R) ev s r s1 :
  call answer ev s = (r, s1) ->
  s1 = record (ev r) s /\ r = answer (history s).
Proof. unfold call. intros H. injection H as <- <-. auto. Qed.

Lemma history_record ev s : history (record ev s) = history s ++ [ev].
Proof. reflexivity. Qed.

(** What [inspect] answers, by the answers of the engine. *)
Lemma inspect_outcome selector timeout s p :
  page (manager s) = Some p ->
  let loc := first (locator p selector) in
  exists info s' new,
    inspect E selector timeout s = (inr info, s') /\
    manager s' = manager s /\
    history s' = history s ++ new /\
    ((exists tag raw box,
        In (Did (WaitFor loc Attached timeout) None) new /\
        In (TagName loc (inr tag)) new /\
        In (InnerText loc (inr raw)) new /\
        In (BoundingBox loc (inr box)) new /\
        info = {| infoSelector := selector; infoFound := true;
                  infoTag := Some tag; infoText := Some (truncateText raw);
                  infoBoundingBox := box |})
     \/
     (exists e,
        info = notFound selector /\
        (In (Did (WaitFor loc Attached timeout) (Some e)) new \/
         In (TagName loc (inl e)) new \/
         In (InnerText loc (inl e)) new \/
         In (BoundingBox loc (inl e)) new))).
Proof.
  intros Hp loc. unfold inspect, tryCatch.
  rewrite (bind_inr _ _ _ _ _ (thePage_inr s p Hp)). cbv zeta. fold loc.
  bind_step H1; apply doAction_inv in H1 as [-> H1];
    destruct (perform E (history s) (WaitFor loc Attached timeout)) as [e1|] eqn:P1;
    try discriminate H1.
  { eexists _, _, _. split; [reflexivity|]. split; [reflexivity|].
    split; [cbn; rewrite <- app_assoc; reflexivity|].
    right. exists e1. split; [reflexivity|]. cbn. naive_solver. }
  clear H1.
  bind_step H2; apply call_inv in H2 as [-> H2]; symmetry in H2.
  { eexists _, _, _. split; [reflexivity|]. split; [reflexivity|].
    split; [cbn; rewrite <- !app_assoc; reflexivity|].
    right. exists e. split; [reflexivity|]. cbn. naive_solver. }
  bind_step H3; apply call_inv in H3 as [-> H3]; symmetry in H3.
  { eexists _, _, _. split; [reflexivity|]. split; [reflexivity|].
    split; [cbn; rewrite <- !app_assoc; reflexivity|].
    right. exists e. split; [reflexivity|]. cbn. naive_solver. }
  bind_step H4; apply call_inv in H4 as [-> H4]; symmetry in H4.
  { eexists _, _, _. split; [reflexivity|]. split; [reflexivity|].
    split; [cbn; rewrite <- !app_assoc; reflexivity|].
    right. exists e. split; [reflexivity|]. cbn. naive_solver. }
  eexists _, _, _. split; [reflexivity|]. split; [reflexivity|].
  split; [cbn; rewrite <- !app_assoc; reflexivity|].
  left. exists a0, a1, a2. cbn. naive_solver.
Qed.

(** What [getElementInfo] does on a launched session: it never throws.
    It returns [found: true] with the tag, the text and the bounding box when
    the wait for the element to attach and the three reads that follow
    (tag name, inner text, bounding box) all succeed; the text is the
    inner text when that has at most 200 code units, and its first 200
    code units followed by "..." when it is longer.  It returns
    [found: false], and nothing else but the selector, when the wait or
    one of the three reads throws.  It leaves the handles as they are. *)
Theorem getElementInfo_outcome (selector : jsstring)
    (options : option WaitOptions) (s : State) (b p : handle) :
  browser (manager s) = Some b -> page (manager s) = Some p ->
  let loc := first (locator p selector) in
  let timeout := default (defaultTimeoutMs cfg) (options ≫= waitTimeoutMs) in
  exists info s' new,
    getElementInfo cfg lib E selector options s = (inr info, s') /\
    manager s' = manager s /\
    history s' = history s ++ new /\
    ((exists tag raw box,
        In (Did (WaitFor loc Attached timeout) None) new /\
        In (TagName loc (inr tag)) new /\
        In (InnerText loc (inr raw)) new /\
        In (BoundingBox loc (inr box)) new /\
        info = {| infoSelector := selector; infoFound := true;
                  infoTag := Some tag; infoText := Some (truncateText raw);
                  infoBoundingBox := box |} /\
        ((length raw <= 200)%nat -> truncateText raw = raw) /\
        ((200 < length raw)%nat ->
           truncateText raw = firstn 200 raw ++ lit "..."))
     \/
     (exists e,
        info = notFound selector /\
        (In (Did (WaitFor loc Attached timeout) (Some e)) new \/
         In (TagName loc (inl e)) new \/
         In (InnerText loc (inl e)) new \/
         In (BoundingBox loc (inl e)) new))).
Proof.
  intros Hb Hp loc timeout.
  unfold getElementInfo.
  rewrite (bind_inr _ _ _ _ _ (ensureLaunched_inr _ s b p Hb Hp)).
  fold timeout.
  set (name := lit "get element info for " ++ quoted selector).
  destruct (inspect_outcome selector timeout (entered E name s) p Hp)
    as (info & s2 & inner & Hi & Hm & Hh & Hcases).
  fold loc in Hcases.
  rewrite (runStep_inr _ _ _ _ _ Hi).
  exists info, (completed E name s s2).
  eexists. split; [reflexivity|]. split; [exact Hm|].
  split.
  { unfold completed. rewrite !history_record, Hh. unfold entered.
    rewrite !history_record, <- !app_assoc. reflexivity. }
  destruct Hcases as [(tag & raw & box & I1 & I2 & I3 & I4 & ->)|(e & -> & I)].
  - left. exists tag, raw, box.
    repeat split; try (apply in_app_iff; right; apply in_app_iff; right;
                       apply in_app_iff; left; assumption).
    + apply truncateText_short.
    + apply truncateText_long.
  - right. exists e. split; [reflexivity|].
    repeat destruct I as [I|I];
      [left|right; left|right; right; left|right; right; right];
      apply in_app_iff; right; apply in_app_iff; right;
      apply in_app_iff; left; assumption.
Qed.

(** *** The error screenshot *)

Lemma captureErrorScreenshot_no_page stepName s :
  page (manager s) = None ->
  captureErrorScreenshot cfg lib E stepName s
  = (inr tt,
     record (Log DEBUG (lit "Cannot capture error screenshot: No page available")) s).
Proof.
  intros Hp. unfold captureErrorScreenshot, tryCatch. pure_step.
  now rewrite Hp.
Qed.




(** *** The invariant, where it holds *)

Lemma consistent_cleared m : consistent (cleared m).
Proof. unfold consistent, cleared. cbn. tauto. Qed.

Lemma exec_keeps op :
  match op with
  | OpLaunch _ | OpQuit | OpShutdown => True
  | _ => keeps (exec cfg lib E op)
  end.
Proof.
  destruct op; cbn [exec]; try exact I;
    try apply keeps_void;
    first [ apply keeps_navigate | apply keeps_getTitle | apply keeps_getUrl
          | apply keeps_waitForSelector | apply keeps_find | apply keeps_click
          | apply keeps_type | apply keeps_getElementInfo
          | apply keeps_screenshot ].
Qed.

(** X17.  Every operation but [launch] keeps the invariant. *)
Lemma exec_consistent op s :
  (forall options, op <> OpLaunch options) ->
  consistent (manager s) ->
  consistent (manager (snd (exec cfg lib E op s))).
Proof.
  intros Hop Hc.
  assert (Hcases : (exists b p, browser (manager s) = Some b /\ page (manager s) = Some p)
                   \/ notLaunched (manager s)).
  { unfold notLaunched. destruct (browser (manager s)) as [b|]; [|now right; left].
    destruct (page (manager s)) as [p|]; [left; eauto|now right; right]. }
  pose proof (exec_keeps op) as K.
  destruct op; try (rewrite K; exact Hc); cbn [exec].
  - now destruct (Hop options).
  - destruct Hcases as [(b & p & Hb & Hp)|Hn].
    + rewrite (quit_clears s b p Hb Hp). apply consistent_cleared.
    + unfold quit. now rewrite (guarded_inl _ _ s Hn).
  - destruct (isShuttingDown (manager s)) eqn:Hf.
    + now rewrite shutdown_reentrant.
    + destruct Hcases as [(b & p & Hb & Hp)|Hn].
      * rewrite (shutdown_clears s b p Hf Hb Hp). apply consistent_cleared.
      * assert (Hb : browser (manager s) = None).
        { destruct Hn as [Hn|Hn]; [exact Hn|].
          destruct (browser (manager s)) eqn:Hb; [|reflexivity].
          exfalso. apply (proj2 Hc); [rewrite Hb; discriminate|exact Hn]. }
        now rewrite (shutdown_noop s Hf Hb).
Qed.

(** A launch that returns establishes the invariant. *)
Lemma launch_consistent options s u s' :
  launch cfg lib E options s = (inr u, s') -> consistent (manager s').
Proof.
  intros H. destruct (launch_inr _ _ _ _ H) as (b & c & p & ->).
  unfold consistent. cbn. split; discriminate.
Qed.

(** X18.  A launch that throws leaves the fields as they were, or, when it
    fails after the browser has started, leaves the new browser handle
    behind. *)
Lemma launch_inl options s e s' :
  launch cfg lib E options s = (inl e, s') ->
  manager s' = manager s \/
  exists b, browser (manager s) = None /\ browser (manager s') = Some b /\
            page (manager s') = page (manager s).
Proof.
  intros H.
  assert (Hr : fst (launch cfg lib E options s) = inl e) by now rewrite H.
  assert (Hm : manager (snd (launch cfg lib E options s)) = manager s')
    by now rewrite H.
  clear H. revert Hr Hm. unfold launch. rewrite runStep_result, runStep_manager.
  assert (He : manager (entered E (lit "launch") s) = manager s) by reflexivity.
  revert He. generalize (entered E (lit "launch") s). intros s0 He.
  pure_step.
  destruct (browser (manager s0)) eqn:Hb.
  { cbn. intros _ <-. now left. }
  rewrite He in Hb.
  pure_step.
  bind_step H2; keeps_from H2.
  { cbn. intros _ <-. left. now rewrite K, He. }
  bind_step H3; keeps_from H3.
  { cbn. intros _ <-. left. now rewrite K0, K, He. }
  pure_step.
  bind_step H4; keeps_from H4.
  { cbn. intros _ <-. right. exists a0. rewrite K1. cbn.
    rewrite K0, K, He. auto. }
  pure_step.
  bind_step H5; keeps_from H5.
  { cbn. intros _ <-. right. exists a0. rewrite K2. cbn. rewrite K1. cbn.
    rewrite K0, K, He. auto. }
  pure_step. cbn. discriminate.
Qed.

(** *** What [quit] closes *)

Import Traces.

Lemma actions_app h1 h2 : actions (h1 ++ h2) = actions h1 ++ actions h2.
Proof. apply omap_app. Qed.

Lemma actions_record ev s :
  actions (history (record ev s))
  = actions (history s) ++
    match ev with Did a r => [(a, r)] | _ => [] end.
Proof. cbn. rewrite actions_app. now destruct ev. Qed.

Lemma actions_entered stepName s :
  actions (history (entered E stepName s)) = actions (history s).
Proof. unfold entered. rewrite !actions_record. now rewrite !app_nil_r. Qed.

Lemma actions_completed stepName s s2 :
  actions (history (completed E stepName s s2)) = actions (history s2).
Proof. unfold completed. rewrite !actions_record. now rewrite !app_nil_r. Qed.

Lemma actions_failed stepName s e s2 :
  actions (history (failed E stepName s e s2)) = actions (history s2).
Proof. unfold failed. rewrite !actions_record. now rewrite !app_nil_r. Qed.

Lemma requests_app h1 h2 : requests (h1 ++ h2) = requests h1 ++ requests h2.
Proof. apply List.filter_app. Qed.

Lemma requests_record ev s :
  requests (history (record ev s))
  = requests (history s) ++ if isRequest ev then [ev] else [].
Proof. cbn [record history]. now rewrite requests_app. Qed.

Lemma requests_entered stepName s :
  requests (history (entered E stepName s)) = requests (history s).
Proof. unfold entered. rewrite !requests_record. now rewrite !app_nil_r. Qed.

Lemma requests_completed stepName s s2 :
  requests (history (completed E stepName s s2)) = requests (history s2).
Proof. unfold completed. rewrite !requests_record. now rewrite !app_nil_r. Qed.

Lemma requests_failed stepName s e s2 :
  requests (history (failed E stepName s e s2)) = requests (history s2).
Proof. unfold failed. rewrite !requests_record. now rewrite !app_nil_r. Qed.

(** X12.  On a launched session [quit] closes the page, then the context,
    then the browser, and stops at the first close that throws: the
    handles that come after are never closed.  It answers with that
    error, or returns when the three closes succeeded.  In every case
    the three handles are cleared, and nothing else is asked of the
    engine or of the file system: no screenshot is taken (the error
    screenshot finds no page), no directory is looked up or made, and
    nothing is read from the page.  Apart from those closes [quit] only
    reads the clock and logs. *)
Theorem quit_outcome (s : State) (b c p : handle) :
  browser (manager s) = Some b -> context (manager s) = Some c ->
  page (manager s) = Some p ->
  exists trace,
    Closing b c p trace (fst (quit cfg lib E s)) /\
    requests (history (snd (quit cfg lib E s)))
    = requests (history s) ++ List.map (fun ar => Did (fst ar) (snd ar)) trace /\
    manager (snd (quit cfg lib E s)) = cleared (manager s).
Proof.
  intros Hb Hc Hp. unfold quit.
  rewrite (bind_inr _ _ _ _ _ (ensureLaunched_inr _ s b p Hb Hp)).
  set (name := lit "quit").
  match goal with
  | |- context [runStep cfg lib E name ?f s] => set (fn := f)
  end.
  pose proof (requests_entered name s) as Ha.
  assert (He : manager (entered E name s) = manager s) by reflexivity.
  remember (entered E name s) as s0 eqn:Es0.
  destruct s0 as [m0 h0]. cbn [manager] in He. cbn [history] in Ha. subst m0.
  assert (Hout : exists trace r,
             Closing b c p trace r /\
             fn {| manager := manager s; history := h0 |}
             = (r, {| manager := cleared (manager s);
                      history := h0 ++ List.map (fun ar => Did (fst ar) (snd ar)) trace |})).
  { destruct s as [[ob oc op isd] h]. cbn in Hb, Hc, Hp. subst ob oc op.
    unfold fn, tryCatch, mbind, M_bind, bind, getManager, doAction, setPage,
      setContext, setBrowser, setManager, throw, ret, cleared, record.
    cbn.
    destruct (perform E h0 (ClosePage p)) as [e1|] eqn:R1; cbn.
    { eexists _, _. split; [apply Closing_page|]. reflexivity. }
    destruct (perform E (h0 ++ [Did (ClosePage p) None]) (CloseContext c))
      as [e2|] eqn:R2; cbn.
    { eexists _, _. split; [apply Closing_context|]. cbn.
      now rewrite <- app_assoc. }
    destruct (perform E ((h0 ++ [Did (ClosePage p) None]) ++
                         [Did (CloseContext c) None]) (CloseBrowser b))
      as [e3|] eqn:R3; cbn.
    { eexists _, _. split; [apply Closing_browser|]. cbn.
      now rewrite <- !app_assoc. }
    eexists _, _. split; [apply Closing_done|]. cbn.
    now rewrite <- !app_assoc. }
  destruct Hout as (trace & r & Hcl & Hfn). rewrite Es0 in Hfn.
  assert (Htrace : requests (List.map (fun ar => Did (fst ar) (snd ar)) trace)
                   = List.map (fun ar => Did (fst ar) (snd ar)) trace).
  { clear. induction trace as [|[a r] t IH]; [reflexivity|].
    cbn. f_equal. exact IH. }
  exists trace. destruct r as [e|[]].
  - rewrite (runStep_inl _ _ _ _ _ Hfn). cbn [fst snd].
    rewrite captureErrorScreenshot_no_page by reflexivity. cbn [snd].
    split; [exact Hcl|]. split; [|reflexivity].
    rewrite requests_record. cbn [isRequest]. rewrite app_nil_r, requests_failed.
    cbn [history]. now rewrite requests_app, Ha, Htrace.
  - rewrite (runStep_inr _ _ _ _ _ Hfn). cbn [fst snd].
    split; [exact Hcl|]. split; [|reflexivity].
    rewrite requests_completed. cbn [history].
    now rewrite requests_app, Ha, Htrace.
Qed.

(** *** Clicking and typing *)

Lemma inputs_app h1 h2 : inputs (h1 ++ h2) = inputs h1 ++ inputs h2.
Proof. unfold inputs. now rewrite actions_app, List.map_app, List.filter_app. Qed.

Lemma inputs_record ev s :
  inputs (history (record ev s))
  = inputs (history s) ++
    match ev with
    | Did a _ => if isInput a then [a] else []
    | _ => []
    end.
Proof.
  cbn [record history]. rewrite inputs_app. f_equal.
  destruct ev; try reflexivity.
Qed.

Lemma noInput_ret {A} (a : A) : noInput (mret a).
Proof. intros s. reflexivity. Qed.

Lemma noInput_ret' {A} (a : A) : noInput (ret a).
Proof. intros s. reflexivity. Qed.

Lemma noInput_throw {A} e : noInput (@throw A e).
Proof. intros s. reflexivity. Qed.

Lemma noInput_bind {A B} (m : M A) (k : A -> M B) :
  noInput m -> (forall a, noInput (k a)) -> noInput (m ≫= k).
Proof.
  intros Hm Hk s. unfold mbind, M_bind, bind.
  specialize (Hm s). destruct (m s) as [[e|a] s1]; cbn in *; [exact Hm|].
  now rewrite Hk.
Qed.

Lemma noInput_tryCatch {A} (m : M A) h :
  noInput m -> (forall e, noInput (h e)) -> noInput (tryCatch m h).
Proof.
  intros Hm Hh s. unfold tryCatch.
  specialize (Hm s). destruct (m s) as [[e|a] s1]; cbn in *; [|exact Hm].
  now rewrite Hh.
Qed.

Lemma noInput_getManager : noInput getManager.
Proof. intros s. reflexivity. Qed.

Lemma noInput_ask {R} (answer : list Event -> R) ev :
  (forall r a o, ev r <> Did a o) -> noInput (ask answer ev).
Proof.
  intros H s. unfold ask. cbn [snd]. rewrite inputs_record.
  specialize (H (answer (history s))).
  destruct (ev (answer (history s))); try apply app_nil_r. now destruct (H a r).
Qed.

Lemma noInput_call {R} (answer : list Event -> Error + R) ev :
  (forall r a o, ev r <> Did a o) -> noInput (call answer ev).
Proof.
  intros H s. unfold call. cbn [snd]. rewrite inputs_record.
  specialize (H (answer (history s))).
  destruct (ev (answer (history s))); try apply app_nil_r. now destruct (H a r).
Qed.

Lemma noInput_emit ev :
  (forall a o, ev <> Did a o) -> noInput (emit ev).
Proof.
  intros H s. unfold emit. cbn [snd]. rewrite inputs_record.
  destruct ev; try apply app_nil_r. now destruct (H a r).
Qed.

Lemma noInput_logger level msg : noInput (logger level msg).
Proof. apply noInput_emit. discriminate. Qed.

Lemma noInput_doAction a : isInput a = false -> noInput (doAction E a).
Proof.
  intros H s. unfold doAction. cbn [snd]. rewrite inputs_record, H.
  apply app_nil_r.
Qed.

Ltac noInput_step :=
  first
    [ apply noInput_bind; [|intros ?]
    | apply noInput_tryCatch; [|intros ?]
    | apply noInput_ret | apply noInput_ret' | apply noInput_throw
    | apply noInput_getManager | apply noInput_logger
    | apply noInput_ask; discriminate
    | apply noInput_call; discriminate
    | apply noInput_emit; discriminate
    | apply noInput_doAction; reflexivity
    | match goal with
      | |- noInput (match ?x with _ => _ end) => destruct x
      | |- noInput (if ?x then _ else _) => destruct x
      end ].

Ltac noInput_tac := repeat noInput_step.

Lemma noInput_ensureDir dirPath : noInput (ensureDir E dirPath).
Proof. unfold ensureDir. noInput_tac. Qed.

Lemma noInput_ensureLaunched operation : noInput (ensureLaunched operation).
Proof. unfold ensureLaunched. noInput_tac. Qed.

Lemma noInput_screenshot options : noInput (screenshot lib E options).
Proof.
  unfold screenshot, thePage.
  repeat first [ apply noInput_ensureDir | apply noInput_ensureLaunched
               | noInput_step ].
Qed.

Lemma noInput_captureErrorScreenshot stepName :
  noInput (captureErrorScreenshot cfg lib E stepName).
Proof.
  unfold captureErrorScreenshot, buildErrorScreenshotName.
  repeat first [ apply noInput_screenshot | noInput_step ].
Qed.

(** What [runStep] adds to the inputs is what [fn] adds to them. *)
Lemma inputs_runStep {T} stepName (fn : M T) s :
  inputs (history (snd (runStep cfg lib E stepName fn s)))
  = inputs (history (snd (fn (entered E stepName s)))).
Proof.
  destruct (fn (entered E stepName s)) as [[e|a] s2] eqn:H.
  - rewrite (runStep_inl _ _ _ _ _ H). cbn [snd].
    rewrite noInput_captureErrorScreenshot. unfold failed.
    rewrite !inputs_record. now rewrite !app_nil_r.
  - rewrite (runStep_inr _ _ _ _ _ H). cbn [snd]. unfold completed.
    rewrite !inputs_record. now rewrite !app_nil_r.
Qed.

Lemma inputs_entered stepName s :
  inputs (history (entered E stepName s)) = inputs (history s).
Proof. unfold entered. rewrite !inputs_record. now rewrite !app_nil_r. Qed.

(** X13.  On a launched session [click] asks the engine for one click on the
    locator of the selector, with the timeout of the options or else the
    configured default, and for no other input.  It returns when the
    click succeeded; when the click threw, it throws an error that names
    the selector and the timeout, quotes the message of the engine's
    error and keeps that error as its cause. *)
Theorem click_outcome (selector : jsstring) (options : option ClickOptions)
    (s : State) (b p : handle) :
  browser (manager s) = Some b -> page (manager s) = Some p ->
  let timeout := default (defaultTimeoutMs cfg) (options ≫= clickTimeoutMs) in
  let h0 := history (entered E (lit "click " ++ quoted selector) s) in
  let out := click cfg lib E selector options s in
  fst out
  = match perform E h0 (Click (locator p selector) timeout) with
    | None => inr tt
    | Some e =>
      inl (newErrorCause
             (lit "Click failed for selector " ++ quoted selector ++
              lit " (timeout " ++ showZ timeout ++ lit "ms): " ++ message e) e)
    end /\
  inputs (history (snd out))
  = inputs (history s) ++ [Click (locator p selector) timeout].
Proof.
  intros Hb Hp timeout h0 out. unfold out, click. fold timeout.
  rewrite (bind_inr _ _ _ _ _ (ensureLaunched_inr _ s b p Hb Hp)).
  rewrite runStep_result, inputs_runStep.
  set (s0 := entered E (lit "click " ++ quoted selector) s).
  assert (Hp0 : page (manager s0) = Some p) by exact Hp.
  unfold tryCatch. rewrite (bind_inr _ _ _ _ _ (thePage_inr s0 p Hp0)).
  unfold doAction. fold h0.
  change (history s0) with h0.
  destruct (perform E h0 (Click (locator p selector) timeout)) as [e|];
    cbn [fst snd throw]; (split; [reflexivity|]);
    rewrite inputs_record; cbn [isInput]; f_equal; apply inputs_entered.
Qed.

(** X14.  On a launched session [type] clears the element and then fills it,
    both with the timeout of the options or else the configured default;
    it does not clear when the options say [clear: false], and it does
    not fill when clearing threw.  It returns when the fill succeeded;
    the error of a clear or fill that threw is wrapped the way [click]
    wraps the error of a click. *)
Theorem type_outcome (selector text : jsstring) (options : option TypeOptions)
    (s : State) (b p : handle) :
  browser (manager s) = Some b -> page (manager s) = Some p ->
  let timeout := default (defaultTimeoutMs cfg) (options ≫= typeTimeoutMs) in
  let clear := default true (options ≫= typeClear) in
  let loc := locator p selector in
  let wrap e :=
    newErrorCause
      (lit "Type failed for selector " ++ quoted selector ++
       lit " (timeout " ++ showZ timeout ++ lit "ms): " ++ message e) e in
  let h0 := history (entered E (lit "type into " ++ quoted selector) s) in
  let out := type cfg lib E selector text options s in
  if clear then
    match perform E h0 (Clear loc timeout) with
    | Some e =>
      fst out = inl (wrap e) /\
      inputs (history (snd out)) = inputs (history s) ++ [Clear loc timeout]
    | None =>
      fst out
      = match perform E (h0 ++ [Did (Clear loc timeout) None])
                (Fill loc text timeout) with
        | None => inr tt
        | Some e => inl (wrap e)
        end /\
      inputs (history (snd out))
      = inputs (history s) ++ [Clear loc timeout; Fill loc text timeout]
    end
  else
    fst out
    = match perform E h0 (Fill loc text timeout) with
      | None => inr tt
      | Some e => inl (wrap e)
      end /\
    inputs (history (snd out)) = inputs (history s) ++ [Fill loc text timeout].
Proof.
  intros Hb Hp timeout clear loc wrap h0 out. unfold out, type.
  fold timeout. fold clear.
  rewrite (bind_inr _ _ _ _ _ (ensureLaunched_inr _ s b p Hb Hp)).
  rewrite runStep_result, inputs_runStep.
  set (s0 := entered E (lit "type into " ++ quoted selector) s).
  assert (Hp0 : page (manager s0) = Some p) by exact Hp.
  assert (Hi : inputs h0 = inputs (history s)) by apply inputs_entered.
  unfold tryCatch. rewrite (bind_inr _ _ _ _ _ (thePage_inr s0 p Hp0)).
  fold loc. destruct clear.
  - destruct (perform E h0 (Clear loc timeout)) as [e|] eqn:R1.
    + assert (Hin : (doAction E (Clear loc timeout)
                     ≫= λ _ : (), doAction E (Fill loc text timeout)) s0
                    = (inl e, record (Did (Clear loc timeout) (Some e)) s0)).
      { unfold mbind, M_bind, bind, doAction. change (history s0) with h0.
        now rewrite R1. }
      rewrite Hin. cbn [fst snd throw]. split; [reflexivity|].
      rewrite inputs_record. cbn [isInput]. now rewrite <- Hi.
    + set (s1 := record (Did (Clear loc timeout) None) s0).
      assert (Hin : (doAction E (Clear loc timeout)
                     ≫= λ _ : (), doAction E (Fill loc text timeout)) s0
                    = doAction E (Fill loc text timeout) s1).
      { unfold mbind, M_bind, bind, doAction at 1. change (history s0) with h0.
        now rewrite R1. }
      rewrite Hin. unfold doAction.
      change (history s1) with (h0 ++ [Did (Clear loc timeout) None]).
      destruct (perform E (h0 ++ [Did (Clear loc timeout) None])
                  (Fill loc text timeout)) as [e|];
        cbn [fst snd throw]; (split; [reflexivity|]);
        rewrite inputs_record; cbn [isInput]; unfold s1;
        rewrite inputs_record; cbn [isInput];
        change (history s0) with h0; rewrite Hi; now rewrite <- app_assoc.
  - pure_step. unfold doAction.
    change (history s0) with h0.
    destruct (perform E h0 (Fill loc text timeout)) as [e|];
      cbn [fst snd throw]; (split; [reflexivity|]);
      rewrite inputs_record; cbn [isInput]; now rewrite <- Hi.
Qed.

(** *** shutdown *)

(** X15.  [shutdown] never throws, whatever the state of the session and
    whatever the engine does, and it leaves the shutdown flag as it found
    it: an error of the inner [quit] goes to the console. *)
Theorem shutdown_never_throws (s : State) :
  exists s',
    shutdown cfg lib E s = (inr tt, s') /\
    isShuttingDown (manager s') = isShuttingDown (manager s).
Proof.
  unfold shutdown. pure_step.
  destruct (isShuttingDown (manager s)) eqn:Hf.
  { eexists. split; [reflexivity|exact Hf]. }
  pure_step. unfold tryFinally.
  match goal with
  | |- context [tryCatch ?m ?h ?s0] =>
    destruct (total_tryCatch m h (fun e => total_emit _) s0)
      as ([] & s1 & H1); rewrite H1
  end.
  cbn. eexists. split; reflexivity.
Qed.

(** X16.  [shutdown] is idempotent on a session that satisfies the invariant:
    a second call, right after the first, returns without asking
    anything of the engine and without changing anything. *)
Theorem shutdown_twice (s : State) :
  consistent (manager s) ->
  let s' := snd (shutdown cfg lib E s) in
  shutdown cfg lib E s' = (inr tt, s').
Proof.
  intros Hc s'. unfold s'.
  destruct (isShuttingDown (manager s)) eqn:Hf.
  { rewrite (shutdown_reentrant s Hf). cbn [snd].
    exact (shutdown_reentrant s Hf). }
  destruct (browser (manager s)) as [b|] eqn:Hb.
  - destruct (page (manager s)) as [p|] eqn:Hp.
    + pose proof (shutdown_clears s b p Hf Hb Hp) as Hm.
      apply shutdown_noop; rewrite Hm; [exact Hf|reflexivity].
    + exfalso. apply (proj2 Hc); [rewrite Hb; discriminate|exact Hp].
  - rewrite (shutdown_noop s Hf Hb). cbn [snd].
    exact (shutdown_noop s Hf Hb).
Qed.

End ManagerFacts.

Section Teardown.
Import BrowserManager Frame Scenarios.

(** C2.  The invariant fails after a launch in which the browser starts
    and opening the context throws: the launch throws that error, and
    the manager is left with the browser handle and no page handle. *)
Theorem failed_launch_leaves_browser :
  let r := launch defaults posix noContext None start in
  fst r = inl targetClosed /\
  manager (snd r) = {| browser := Some 1; context := None; page := None;
                       isShuttingDown := false |} /\
  snd r = execAll defaults posix noContext [OpLaunch None] start /\
  ~ consistent (manager (snd r)).
Proof.
  cbv zeta. split; [reflexivity|]. split; [reflexivity|].
  split; [reflexivity|].
  intros [_ H]. apply H; [discriminate|reflexivity].
Qed.

(** C5.  After that launch, [shutdown] returns without throwing and logs
    the not-launched error of its inner [quit], and the browser handle is
    still set: the handles are not cleared. *)
Theorem shutdown_after_failed_launch :
  let s1 := execAll defaults posix noContext [OpLaunch None] start in
  let r := shutdown defaults posix noContext s1 in
  fst r = inr tt /\
  manager (snd r) = {| browser := Some 1; context := None; page := None;
                       isShuttingDown := false |} /\
  history (snd r) =
    history s1 ++
    [ConsoleError (lit "Error during shutdown:") (NotLaunchedError (lit "quit"))].
Proof.
  cbv zeta. split; [reflexivity|]. split; reflexivity.
Qed.

End Teardown.

(** ** The protocol server: [browser_quit] *)

Section BrowserQuit.
Import BrowserManager Frame MCPServer.

Context (cfg : Config) (lib : NodeLib) (E : Engine).

Lemma browser_quit_dispatch arguments id srv :
  handleRequest cfg lib E (browserQuitRequest arguments id) srv
  = toolBrowserQuit cfg lib E (orEmptyObject arguments) (orNull id) srv.
Proof.
  unfold browserQuitRequest. rewrite handleRequest_request.
  destruct arguments; reflexivity.
Qed.

Lemma shutdown_without_browser s :
  browser (manager s) = None -> shutdown cfg lib E s = (inr tt, s).
Proof.
  intros Hb. destruct (isShuttingDown (manager s)) eqn:Hf.
  - now apply shutdown_reentrant.
  - now apply shutdown_noop.
Qed.

(** C10.  A [tools/call] of browser_quit that finds no browser handle
    (no launch yet, or a quit since), with an id that can be written in
    a log line (a string, a number, null, none at all), is answered with
    one response, the result
    [{content: [{type: "text", text: "Browser session closed"}]}], not
    with an error, and changes nothing else: the tool calls [shutdown],
    which returns without doing anything. *)
Theorem browser_quit_without_session (arguments id : option Json) (srv : Server) :
  browser (manager (session srv)) = None ->
  toStringJs (orNull id) <> None ->
  handleRequest cfg lib E (browserQuitRequest arguments id) srv
  = (inr tt,
     {| isInitialized := isInitialized srv; session := session srv;
        stdout :=
          stdout srv ++
          [{| respId := orNull id;
              respResult :=
                Some (JObj [(lit "content",
                             JArr [JObj [(lit "type", JStr (lit "text"));
                                         (lit "text",
                                          JStr (lit "Browser session closed"))]])]);
              respError := None |}] |}).
Proof.
  intros Hb Hid. rewrite browser_quit_dispatch.
  unfold toolBrowserQuit, stry, mbind, Task_bind, sbind, lift.
  rewrite (shutdown_without_browser _ Hb).
  unfold sendResult, mbind, Task_bind, sbind, send, log, interpolates.
  cbn [forallb toStringU].
  destruct (toStringJs (orNull id)); [|now destruct Hid].
  cbn. now destruct srv.
Qed.

End BrowserQuit.

(** ** The glob patterns of [matchesPattern] *)

Section GlobFacts.
Import Glob.

Lemma isEscaped_cases c :
  isEscaped c = true ->
  In c (lit ".+?^${}()|[]\").
Proof.
  unfold isEscaped. intros H. apply existsb_exists in H as (x & Hx & E).
  apply N.eqb_eq in E. now subst.
Qed.

Lemma regexPattern_encode p : regexPattern p = flat_map encode p.
Proof.
  unfold regexPattern, escapeSpecial, starToDotStar.
  induction p as [|c p IH]; [reflexivity|].
  cbn [flat_map]. rewrite flat_map_app, IH. f_equal.
  unfold encode. destruct (isEscaped c) eqn:He.
  - apply isEscaped_cases in He. vm_compute in He.
    repeat (destruct He as [<-|He]; [reflexivity|]). destruct He.
  - cbn [flat_map]. rewrite app_nil_r. reflexivity.
Qed.

Lemma noStarHead_encode c rest : noStarHead (encode c ++ rest).
Proof.
  unfold encode. destruct (isEscaped c); [vm_compute; discriminate|].
  destruct (c =? ch "*") eqn:E; [vm_compute; discriminate|].
  cbn. now apply N.eqb_neq.
Qed.

Lemma noStarHead_flat_map p :
  noStarHead (flat_map encode p ++ lit "$").
Proof.
  destruct p as [|c p]; [vm_compute; discriminate|].
  cbn [flat_map]. rewrite <- app_assoc. apply noStarHead_encode.
Qed.

Lemma not_escaped c :
  isEscaped c = false ->
  (c =? ch "^") = false /\ (c =? ch "$") = false /\
  (c =? ch "\") = false /\ (c =? ch ".") = false /\
  isSyntaxChar c = (c =? ch "*").
Proof.
  unfold isEscaped, isSyntaxChar. intros He.
  change (lit ".+?^${}()|[]\")
    with [46; 43; 63; 94; 36; 123; 125; 40; 41; 124; 91; 93; 92] in He.
  change (lit "^$\.*+?()[]{}|")
    with [94; 36; 92; 46; 42; 43; 63; 40; 41; 91; 93; 123; 125; 124].
  change (ch "^") with 94. change (ch "$") with 36.
  change (ch "\") with 92. change (ch ".") with 46. change (ch "*") with 42.
  cbn [existsb] in *.
  repeat (apply orb_false_elim in He as [? He]).
  repeat match goal with H : (c =? _) = false |- _ => rewrite H; clear H end.
  cbn. rewrite ?orb_false_r. auto.
Qed.

Lemma parse_encode c rest :
  noStarHead rest ->
  parse (encode c ++ rest) = cons (globTerm c) <$> parse rest.
Proof.
  intros Hrest. unfold encode, globTerm.
  destruct (isEscaped c) eqn:He.
  - apply isEscaped_cases in He. vm_compute in He.
    repeat (destruct He as [<-|He];
            [destruct rest as [|q rest]; [reflexivity|];
             cbn in Hrest; apply N.eqb_neq in Hrest;
             cbn [app parse]; cbn; rewrite Hrest; reflexivity|]).
    destruct He.
  - destruct (not_escaped c He) as (H1 & H2 & H3 & H4 & H5).
    destruct (c =? ch "*") eqn:Hstar.
    + apply N.eqb_eq in Hstar. subst c. reflexivity.
    + destruct rest as [|q rest].
      * cbn [app parse]. rewrite H1, H2, H3, H4, H5. reflexivity.
      * cbn in Hrest. apply N.eqb_neq in Hrest.
        cbn [app parse]. rewrite H1, H2, H3, H4, H5, Hrest. reflexivity.
Qed.

(** The source [matchesPattern] builds is a regular expression of the
    fragment: the pattern, character by character, between the two
    anchors. *)
Lemma parse_regexSource p :
  parse (regexSource p) = Some (Bol :: List.map globTerm p ++ [Eol]).
Proof.
  unfold regexSource. rewrite regexPattern_encode.
  change (parse (lit "^" ++ flat_map encode p ++ lit "$"))
    with (cons Bol <$> parse (flat_map encode p ++ lit "$")).
  assert (H : parse (flat_map encode p ++ lit "$")
              = Some (List.map globTerm p ++ [Eol])).
  { induction p as [|c p IH]; [reflexivity|].
    cbn [flat_map List.map]. rewrite <- app_assoc.
    rewrite parse_encode by apply noStarHead_flat_map.
    now rewrite IH. }
  now rewrite H.
Qed.

Lemma matchHere_glob p : forall atStart s,
  matchHere (List.map globTerm p ++ [Eol]) atStart s = globMatch p s.
Proof.
  induction p as [|c p IH]; intros atStart s.
  - cbn. now rewrite andb_true_r.
  - cbn [List.map app globMatch]. unfold globTerm at 1.
    destruct (c =? ch "*") eqn:Hstar.
    + cbn [matchHere]. revert atStart.
      induction s as [|d s IHs]; intros atStart.
      * now rewrite IH, !orb_false_r.
      * rewrite IH. f_equal. cbn [atomMatches]. f_equal. apply IHs.
    + cbn [matchHere atomMatches]. destruct s as [|d s]; [reflexivity|].
      now rewrite IH.
Qed.

Lemma searchFrom_Bol r s : searchFrom (Bol :: r) false s = false.
Proof. induction s as [|c s IH]; cbn; [reflexivity|exact IH]. Qed.

(** [matchesPattern] always returns, and tells whether the whole file
    name matches the pattern. *)
Lemma matchesPattern_globMatch filename pattern :
  matchesPattern filename pattern = Some (globMatch pattern filename).
Proof.
  unfold matchesPattern. rewrite parse_regexSource. cbn [fmap option_fmap option_map].
  f_equal. unfold test.
  destruct filename as [|c s]; cbn [searchFrom].
  - rewrite orb_false_r. cbn [matchHere andb]. apply matchHere_glob.
  - rewrite searchFrom_Bol, orb_false_r. cbn [matchHere andb].
    apply matchHere_glob.
Qed.

(** [globMatch] decides [Glob]. *)
Lemma globMatch_Glob p : forall s, globMatch p s = true <-> Glob p s.
Proof.
  induction p as [|c p IH]; intros s.
  - destruct s; cbn; split; intros H; try discriminate; try constructor.
    inversion H.
  - cbn [globMatch]. destruct (c =? ch "*") eqn:Hstar.
    + apply N.eqb_eq in Hstar. subst c. split.
      * induction s as [|d s IHs]; intros H.
        -- rewrite orb_false_r in H. apply (Glob_star p [] []); [constructor|].
           now apply IH.
        -- apply orb_true_iff in H as [H|H].
           ++ apply (Glob_star p [] (d :: s)); [constructor|]. now apply IH.
           ++ apply andb_true_iff in H as [Hd H]. apply negb_true_iff in Hd.
              specialize (IHs H). inversion IHs as [|p' run s' Hrun Hg|]; subst.
              ** apply (Glob_star p (d :: run) s'); [constructor; auto|exact Hg].
              ** congruence.
      * intros H. inversion H as [|p' run s' Hrun Hg|]; subst; [|congruence].
        clear H. induction Hrun as [|d run Hd _ IHrun].
        -- cbn [app]. apply IH in Hg. destruct s'; cbn; now rewrite Hg.
        -- cbn [app]. rewrite IHrun, Hd. cbn. apply orb_true_r.
    + apply N.eqb_neq in Hstar. split.
      * destruct s as [|d s]; [discriminate|]. intros H.
        apply andb_true_iff in H as [Hd H]. apply N.eqb_eq in Hd. subst d.
        apply Glob_chr; [exact Hstar|]. now apply IH.
      * intros H. inversion H as [| |c' p' s' Hc Hg]; subst; [congruence|].
        rewrite N.eqb_refl. cbn. now apply IH.
Qed.

(** *** Patterns without and with a wildcard *)

Lemma globMatch_literal p : forall s,
  ~ In (ch "*") p -> globMatch p s = Js.eqb s p.
Proof.
  induction p as [|c p IH]; intros s Hp; [now destruct s|].
  cbn [globMatch].
  assert (Hc : (c =? ch "*") = false).
  { apply N.eqb_neq. intros ->. apply Hp. now left. }
  rewrite Hc. destruct s as [|d s]; [reflexivity|].
  cbn [Js.eqb]. rewrite IH; [reflexivity|]. intros H. apply Hp. now right.
Qed.

Lemma Glob_literal p : forall s, ~ In (ch "*") p -> Glob p s -> s = p.
Proof.
  induction p as [|c p IH]; intros s Hp H.
  - now inversion H.
  - inversion H as [|p' run s' Hrun Hg|c' p' s' Hc Hg]; subst.
    + destruct Hp. now left.
    + f_equal. apply IH; [|exact Hg]. intros Hin. apply Hp. now right.
Qed.

Lemma Glob_refl p : ~ In (ch "*") p -> Glob p p.
Proof.
  induction p as [|c p IH]; intros Hp; [constructor|].
  apply Glob_chr.
  - intros ->. apply Hp. now left.
  - apply IH. intros H. apply Hp. now right.
Qed.

(** X23.  A pattern without [*] matches its own text and nothing else: the
    characters that are special in a regular expression, the dot among
    them, stand for themselves, and the match is anchored at both ends. *)
Theorem matchesPattern_literal (filename pattern : jsstring) :
  ~ In (ch "*") pattern ->
  matchesPattern filename pattern = Some (Js.eqb filename pattern).
Proof.
  intros Hp. rewrite matchesPattern_globMatch. f_equal.
  now apply globMatch_literal.
Qed.

(** X24.  A pattern [*suffix], such as the default [*.png], matches the names
    that end with the suffix and whose part before it holds no line
    terminator. *)
Theorem matchesPattern_suffix (filename suffix : jsstring) :
  ~ In (ch "*") suffix ->
  matchesPattern filename (ch "*" :: suffix) = Some true <->
  exists stem,
    filename = stem ++ suffix /\
    Forall (fun c => isLineTerminator c = false) stem.
Proof.
  intros Hs. rewrite matchesPattern_globMatch. split.
  - intros H0.
    assert (H : globMatch (ch "*" :: suffix) filename = true) by congruence.
    clear H0. apply globMatch_Glob in H.
    inversion H as [|p run s Hrun Hg|c p s Hc Hg]; subst; [|congruence].
    exists run. split; [|exact Hrun]. f_equal. now apply Glob_literal.
  - intros (stem & -> & Hstem). f_equal. apply globMatch_Glob.
    apply Glob_star; [exact Hstem|]. now apply Glob_refl.
Qed.

End GlobFacts.

(** ** cleanDirectory *)

Section FsFacts.
Import Fs.

Context (dirPath : jsstring) (pattern : option jsstring).

Lemma kindOf_without_ne name n entries :
  n <> name -> kindOf name (without n entries) = kindOf name entries.
Proof.
  intros Hne. induction entries as [|[n' k] entries IH]; [reflexivity|].
  unfold without in *. cbn [kindOf].
  destruct (decide (n' = n)) as [->|Hn].
  - rewrite filter_cons_False by (cbn; tauto).
    destruct (decide (n = name)); [congruence|exact IH].
  - rewrite filter_cons_True by exact Hn. cbn [kindOf].
    destruct (decide (n' = name)); [reflexivity|exact IH].
Qed.

Lemma elem_of_without name kind n entries :
  (name, kind) ∈ without n entries <-> name <> n /\ (name, kind) ∈ entries.
Proof. unfold without. rewrite list_elem_of_filter. reflexivity. Qed.

Lemma listing_names_NoDup entries : NoDup (listing entries).*1.
Proof.
  induction entries as [|[n k] entries IH]; [constructor|].
  cbn [listing fmap list_fmap fst]. apply NoDup_cons. split.
  - intros Hin. apply list_elem_of_fmap in Hin as ([n' k'] & -> & Hin).
    apply elem_of_without in Hin as [Hne _]. now apply Hne.
  - unfold without. generalize (listing entries) IH. clear.
    intros l Hl. induction l as [|[n' k'] l IHl]; [constructor|].
    cbn [fmap list_fmap fst] in Hl. apply NoDup_cons in Hl as [Hn' Hl].
    destruct (decide (n' = n)) as [->|Hne].
    + rewrite filter_cons_False by (cbn; tauto). now apply IHl.
    + rewrite filter_cons_True by exact Hne.
      cbn [fmap list_fmap fst]. apply NoDup_cons. split; [|now apply IHl].
      intros Hin. apply Hn'. apply list_elem_of_fmap in Hin as (e & -> & Hin).
      apply list_elem_of_filter in Hin as [_ Hin].
      apply list_elem_of_fmap. now exists e.
Qed.

Lemma listing_kindOf entries : forall name kind,
  (name, kind) ∈ listing entries -> kindOf name entries = Some kind.
Proof.
  induction entries as [|[n k] entries IH]; intros name kind Hin;
    [inversion Hin|].
  cbn [listing] in Hin. cbn [kindOf].
  apply elem_of_cons in Hin as [[= -> ->]|Hin].
  - now destruct (decide (n = n)).
  - apply elem_of_without in Hin as [Hne Hin].
    destruct (decide (n = name)); [congruence|now apply IH].
Qed.

(** Listing and removing by name commute. *)
Lemma listing_filter (P : jsstring -> Prop) `{!forall n, Decision (P n)}
    entries :
  listing (filter (fun e => P (fst e)) entries)
  = filter (fun e => P (fst e)) (listing entries).
Proof.
  induction entries as [|[n k] entries IH]; [reflexivity|].
  cbn [listing]. destruct (decide (P n)) as [Hn|Hn].
  - rewrite !filter_cons_True by exact Hn. cbn [listing]. f_equal.
    rewrite IH. unfold without. rewrite !list_filter_filter.
    apply list_filter_iff. intros e. tauto.
  - rewrite !filter_cons_False by exact Hn. rewrite IH.
    unfold without. rewrite list_filter_filter.
    apply list_filter_iff. intros [n' k']. cbn. split; [|tauto].
    intros Hp. split; [exact Hp|]. intros ->. now apply Hn.
Qed.

Lemma remaining_nil entries : remaining [] entries = entries.
Proof.
  unfold remaining. induction entries as [|e entries IH]; [reflexivity|].
  rewrite filter_cons_True by apply not_elem_of_nil. now rewrite IH.
Qed.

Lemma remaining_cons name names entries :
  remaining names (without name entries) = remaining (name :: names) entries.
Proof.
  unfold remaining, without. rewrite list_filter_filter.
  apply list_filter_iff. intros e. rewrite not_elem_of_cons. tauto.
Qed.

(** What the loop tests is [selected]. *)
Lemma matches_selected name kind :
  isFile kind = true ->
  match pattern with
  | Some p => if Js.truthy p then Glob.matchesPattern name p else Some true
  | None => Some true
  end = Some (selected pattern (name, kind)).
Proof.
  intros Hfile. unfold selected. cbn [fst snd]. rewrite Hfile, andb_true_l.
  destruct pattern as [p|]; [|reflexivity].
  destruct (Js.truthy p); [apply matchesPattern_globMatch|reflexivity].
Qed.

(** The loop deletes the selected entries in order, counts them, and
    stops at the first whose [unlink] fails. *)
Lemma cleanLoop_sweep denied l : forall es n fs,
  fs !! dirPath = Some (NDir es denied) ->
  NoDup l.*1 ->
  (forall name kind, (name, kind) ∈ l -> kindOf name es = Some kind) ->
  cleanLoop dirPath pattern l n fs
  = (match snd (sweep pattern denied l) with
     | None => inr (n + length (fst (sweep pattern denied l)))%nat
     | Some e => inl e
     end,
     <[dirPath := NDir (remaining (fst (sweep pattern denied l)) es) denied]> fs).
Proof.
  induction l as [|[name kind] l IH]; intros es n fs Hdir Hnd Hin.
  - cbn. rewrite Nat.add_0_r, remaining_nil. now rewrite insert_id.
  - cbn [fmap list_fmap fst] in Hnd. apply NoDup_cons in Hnd as [Hname Hnd].
    assert (Hrest : forall name' kind',
               (name', kind') ∈ l -> kindOf name' es = Some kind').
    { intros. apply Hin. now right. }
    assert (Hentry : kindOf name es = Some kind) by (apply Hin; left).
    cbn [cleanLoop sweep].
    destruct (isFile kind) eqn:Hfile.
    2:{ assert (Hsel : selected pattern (name, kind) = false)
          by (unfold selected; cbn [snd]; now rewrite Hfile).
        rewrite Hsel. now apply IH. }
    rewrite (matches_selected name kind Hfile).
    destruct (selected pattern (name, kind)) eqn:Hsel; [|now apply IH].
    unfold unlink. rewrite Hdir.
    destruct (denied !! name) as [e|] eqn:Hden.
    { cbn [fst snd]. rewrite remaining_nil. now rewrite insert_id. }
    rewrite Hentry. destruct kind; try discriminate Hfile.
    rewrite (IH (without name es)).
    + destruct (sweep pattern denied l) as [names stop]. cbn [fst snd length].
      rewrite insert_insert_eq, remaining_cons. f_equal.
      destruct stop; [reflexivity|]. f_equal. lia.
    + apply lookup_insert_eq.
    + exact Hnd.
    + intros name' kind' Hin'. rewrite kindOf_without_ne; [now apply Hrest|].
      intros ->. apply Hname. apply list_elem_of_fmap.
      now exists (name', kind').
Qed.

(** On a path that is a directory, [cleanDirectory] deletes the selected
    entries in the order of the directory up to the first whose [unlink]
    fails.  When none fails it returns their number; when one fails with
    ENOENT it returns 0, whatever it has deleted; and it throws any other
    error.  Every other entry and every other path is kept. *)
Lemma cleanDirectory_directory fs entries denied :
  fs !! dirPath = Some (NDir entries denied) ->
  let names := fst (sweep pattern denied (listing entries)) in
  let fs' := <[dirPath := NDir (remaining names entries) denied]> fs in
  cleanDirectory dirPath pattern fs
  = match snd (sweep pattern denied (listing entries)) with
    | None => (inr (length names), fs')
    | Some e => if isENOENT e then (inr 0%nat, fs') else (inl e, fs')
    end.
Proof.
  intros Hdir. cbn zeta.
  unfold cleanDirectory, pathExists, statIsDirectory, readdir.
  rewrite Hdir. cbn [negb].
  rewrite (cleanLoop_sweep denied (listing entries) entries 0 fs Hdir).
  - destruct (snd (sweep pattern denied (listing entries))); reflexivity.
  - apply listing_names_NoDup.
  - apply listing_kindOf.
Qed.

(** On a path that does not exist it returns 0 and changes nothing. *)
Lemma cleanDirectory_missing fs :
  fs !! dirPath = None -> cleanDirectory dirPath pattern fs = (inr 0%nat, fs).
Proof.
  intros Hdir. unfold cleanDirectory, pathExists. now rewrite Hdir.
Qed.

(** After a run, a second run over what is left deletes nothing and
    stops where the first one stopped. *)
Lemma sweep_remaining denied l : forall names,
  NoDup l.*1 ->
  (forall x, x ∈ fst (sweep pattern denied l) -> x ∈ names) ->
  (forall x, x ∈ names -> x ∈ l.*1 -> x ∈ fst (sweep pattern denied l)) ->
  sweep pattern denied (remaining names l)
  = ([], snd (sweep pattern denied l)).
Proof.
  induction l as [|[name kind] l IH]; intros names Hnd Hsub Hsup;
    [reflexivity|].
  cbn [fmap list_fmap fst] in Hnd. apply NoDup_cons in Hnd as [Hname Hnd].
  unfold remaining in *. cbn [sweep] in *.
  destruct (selected pattern (name, kind)) eqn:Hsel.
  - destruct (denied !! name) as [e|] eqn:Hden.
    + cbn [fst snd] in *.
      rewrite filter_cons_True.
      * cbn [sweep]. now rewrite Hsel, Hden.
      * cbn [fst]. intros Hin. specialize (Hsup name Hin).
        apply not_elem_of_nil with name. apply Hsup. left.
    + destruct (sweep pattern denied l) as [names' stop] eqn:Hsw.
      cbn [fst snd] in *.
      rewrite filter_cons_False by (cbn [fst]; intros H; apply H, Hsub; left).
      apply IH; [exact Hnd| |].
      * intros x Hx. apply Hsub. now right.
      * intros x Hx Hl. specialize (Hsup x Hx).
        assert (Hx' : x ∈ name :: names') by (apply Hsup; now right).
        apply elem_of_cons in Hx' as [->|Hx']; [now destruct Hname|exact Hx'].
  - assert (IH' : sweep pattern denied (filter (fun e => fst e ∉ names) l)
                  = ([], snd (sweep pattern denied l))).
    { apply IH; [exact Hnd|exact Hsub|].
      intros x Hx Hl. apply Hsup; [exact Hx|now right]. }
    destruct (decide (name ∈ names)) as [Hin|Hin].
    + rewrite filter_cons_False by (cbn [fst]; tauto). exact IH'.
    + rewrite filter_cons_True by exact Hin. cbn [sweep]. now rewrite Hsel.
Qed.

Lemma sweep_names_listed denied l x :
  x ∈ fst (sweep pattern denied l) -> x ∈ l.*1.
Proof.
  induction l as [|[name kind] l IH]; cbn [sweep]; [intros H; inversion H|].
  cbn [fmap list_fmap fst].
  destruct (selected pattern (name, kind)).
  - destruct (denied !! name); [intros H; inversion H|].
    destruct (sweep pattern denied l) as [names stop]. cbn [fst] in *.
    intros H. apply elem_of_cons in H as [->|H]; [left|right; now apply IH].
  - intros H. right. now apply IH.
Qed.

(** X25.  Cleaning is idempotent: after a [cleanDirectory] that
    returned, a second one with the same pattern finds nothing to delete,
    returns 0 and leaves the file system as it is.  This holds also when
    the first one returned because an [unlink] failed with ENOENT: the
    second one stops at that entry again. *)
Theorem cleanDirectory_idempotent (fs fs' : Fs) (n : nat) :
  cleanDirectory dirPath pattern fs = (inr n, fs') ->
  cleanDirectory dirPath pattern fs' = (inr 0%nat, fs').
Proof.
  intros H. destruct (fs !! dirPath) as [[|entries denied]|] eqn:Hdir.
  - unfold cleanDirectory, pathExists, statIsDirectory in H.
    rewrite Hdir in H. cbn in H. discriminate H.
  - rewrite (cleanDirectory_directory fs entries denied Hdir) in H.
    cbn zeta in H.
    set (names := fst (sweep pattern denied (listing entries))) in *.
    set (kept := remaining names entries) in *.
    assert (Hfs' : fs' = <[dirPath := NDir kept denied]> fs /\
                   match snd (sweep pattern denied (listing entries)) with
                   | None => True
                   | Some e => isENOENT e = true
                   end).
    { destruct (snd (sweep pattern denied (listing entries))) as [e|].
      - destruct (isENOENT e); [|discriminate H]. now injection H as _ <-.
      - now injection H as _ <-. }
    destruct Hfs' as [-> Hstop].
    rewrite (cleanDirectory_directory _ kept denied)
      by apply lookup_insert_eq.
    cbn zeta.
    assert (Hsw : sweep pattern denied (listing kept)
                  = ([], snd (sweep pattern denied (listing entries)))).
    { pose proof (listing_filter (fun n => n ∉ names) entries) as Hl.
      cbn beta in Hl. unfold kept, remaining. rewrite Hl.
      apply (sweep_remaining denied (listing entries) names).
      - apply listing_names_NoDup.
      - intros x Hx. exact Hx.
      - intros x Hx _. exact Hx. }
    rewrite Hsw. cbn [fst snd length]. rewrite remaining_nil.
    rewrite insert_insert_eq.
    destruct (snd (sweep pattern denied (listing entries))) as [e|];
      [now rewrite Hstop|reflexivity].
  - rewrite (cleanDirectory_missing fs Hdir) in H. injection H as _ <-.
    now apply cleanDirectory_missing.
Qed.

End FsFacts.

Section CleanAll.
Import Fs.





End CleanAll.

(** ** cleanScreenshots *)

Section CleanScreenshots.
Import BrowserManager Fs Glob.

Lemma selected_Glob p name kind :
  selected (Some p) (name, kind) = true <->
  kind = KFile /\ (p = [] \/ Glob p name).
Proof.
  unfold selected. cbn [fst snd]. rewrite andb_true_iff. split.
  - intros [Hk Hp]. split; [now destruct kind|].
    destruct p as [|c p]; [now left|right]. cbn [Js.truthy] in Hp.
    now apply globMatch_Glob.
  - intros [-> [->|Hp]]; split; try reflexivity.
    destruct p as [|c p]; [reflexivity|]. cbn [Js.truthy].
    now apply globMatch_Glob.
Qed.

End CleanScreenshots.

Section Counterexamples.
Import BrowserManager Scenarios Runs.


(** C7.  The code does not do what the claim says, nor what its own
    comments say.  On this engine the element attaches within the timeout
    (the wait succeeds, and so does the read of the tag name); reading
    its inner text throws; and [getElementInfo] answers [found: false]
    and logs "Element not found" with the timeout, for an element that
    was found.  The [catch] meant for the wait that times out also
    catches the reads that follow it. *)
Theorem attached_but_not_found :
  let loc := first (locator 3 (lit "svg")) in
  let r := getElementInfo defaults posix noInnerText (lit "svg") None launched in
  In (Did (WaitFor loc Attached 30000) None) (history (snd r)) /\
  In (TagName loc (inr (lit "svg"))) (history (snd r)) /\
  In (Log DEBUG (lit "Element not found: " ++ quoted (lit "svg") ++
                 lit " (timeout 30000ms)")) (history (snd r)) /\
  fst r = inr (notFound (lit "svg")).
Proof.
  cbv zeta.
  split; [vm_compute; repeat (first [left; reflexivity | right])|].
  split; [vm_compute; repeat (first [left; reflexivity | right])|].
  split; [vm_compute; repeat (first [left; reflexivity | right])|].
  vm_compute. reflexivity.
Qed.

(** C8.  The code does not do what the claim says.  Of four screenshots
    that match [*.png], the last is one that [unlink] does not find:
    cleanScreenshots deletes the first three, and returns 0 and logs
    "Deleted 0 screenshot(s)", since the [catch] that is meant for a
    directory that disappeared also catches the [unlink] that failed,
    after files were deleted.  And the name [a<LF>b.png], which matches
    [*.png] when [*] stands for any run of characters, is not deleted:
    the [.] of the regular expression [.*] matches no line terminator. *)
Theorem cleanScreenshots_miscounts :
  let r := cleanScreenshots defaults posix None lastVanishes in
  fst (fst r) = inr 0%nat /\
  snd (fst r) !! screenshots
  = Some (Fs.NDir [(lit "4.png", Fs.KFile)] {[ lit "4.png" := Fs.ENOENT ]}) /\
  last (snd r) = Some (Log INFO (lit "Deleted 0 screenshot(s)")) /\
  Glob.GlobSpec (lit "*.png") twoLines /\
  fst (cleanScreenshots defaults posix (Some (lit "*.png")) (oneFile twoLines))
  = (inr 0%nat, oneFile twoLines).
Proof.
  cbv zeta. split; [vm_compute; reflexivity|].
  split; [vm_compute; reflexivity|]. split; [vm_compute; reflexivity|].
  split; [|vm_compute; reflexivity].
  change (lit "*.png") with (ch "*" :: lit ".png").
  change twoLines with ((lit "a" ++ [10] ++ lit "b") ++ lit ".png").
  apply Glob.GlobSpec_star.
  repeat (apply Glob.GlobSpec_chr; [discriminate|]).
  apply Glob.GlobSpec_nil.
Qed.

End Counterexamples.

Section Witnesses.
Import BrowserManager Scenarios Runs MCPServer.

Lemma second_launch_rejected_witness :
  let ops := [OpNavigate (lit "https://example.com"); OpClick (lit "a") None;
              OpGetTitle] in
  let s1 := snd (launch defaults posix obliging None start) in
  let s := execAll defaults posix obliging ops s1 in
  fst (launch defaults posix obliging None s) = inl AlreadyLaunchedError /\
  manager (snd (launch defaults posix obliging None s)) = manager s.
Proof.
  cbv zeta.
  destruct (second_launch_rejected defaults posix obliging None None
              [OpNavigate (lit "https://example.com"); OpClick (lit "a") None;
               OpGetTitle]
              start (snd (launch defaults posix obliging None start)))
    as (H1 & H2 & _).
  - vm_compute. reflexivity.
  - reflexivity.
  - split; [exact H1|exact H2].
Defined.

Lemma not_launched_error_witness :
  exec defaults posix obliging (OpClick (lit "a") None) start
  = (inl (NotLaunchedError (lit "click")), start).
Proof.
  apply (not_launched_error defaults posix obliging (OpClick (lit "a") None)
           (lit "click") start).
  - reflexivity.
  - left. reflexivity.
Defined.

Lemma wfDate_noon : wfDate noon.
Proof. unfold wfDate. cbn. lia. Qed.


Lemma getElementInfo_outcome_witness :
  exists info s',
    getElementInfo defaults posix obliging (lit "a") None launched = (inr info, s') /\
    manager s' = manager launched.
Proof.
  destruct (getElementInfo_outcome defaults posix obliging (lit "a") None
              launched 1 3 eq_refl eq_refl)
    as (info & s' & new & H1 & H2 & _).
  exists info, s'. split; [exact H1|exact H2].
Defined.

Lemma browser_quit_without_session_witness :
  handleRequest defaults posix obliging
    (browserQuitRequest (Some (JObj [])) (Some (JNum 7))) idle
  = (inr tt,
     {| isInitialized := false; session := start;
        stdout :=
          [{| respId := JNum 7;
              respResult :=
                Some (JObj [(lit "content",
                             JArr [JObj [(lit "type", JStr (lit "text"));
                                         (lit "text",
                                          JStr (lit "Browser session closed"))]])]);
              respError := None |}] |}).
Proof.
  rewrite (browser_quit_without_session defaults posix obliging
             (Some (JObj [])) (Some (JNum 7)) idle).
  - reflexivity.
  - reflexivity.
  - discriminate.
Defined.

(** [cleanScreenshots()] on a directory with two screenshots, a text
    file, a subdirectory and a link deletes the two screenshots. *)
Example cleanScreenshots_mixed :
  let r := cleanScreenshots defaults posix None mixed in
  fst (fst r) = inr 2%nat /\
  snd (fst r) !! screenshots
  = Some (Fs.NDir [(lit "notes.txt", Fs.KFile); (lit "old.png", Fs.KDir);
                   (lit "link.png", Fs.KOther)] ∅).
Proof. cbv zeta. split; vm_compute; reflexivity. Qed.

End Witnesses.

(** ** The protocol server: dispatch, validation and errors *)

Section ServerFacts.
Import BrowserManager Frame MCPServer Protocol.

Context (cfg : Config) (lib : NodeLib) (E : Engine).

Lemma eqb_refl s : Js.eqb s s = true.
Proof. induction s as [|c s IH]; cbn; [reflexivity|]. now rewrite N.eqb_refl. Qed.

Lemma eqb_eq s : forall t, Js.eqb s t = true <-> s = t.
Proof.
  induction s as [|c s IH]; intros [|d t]; cbn; split; intros H;
    try discriminate; try reflexivity.
  - apply andb_true_iff in H as [H1 H2]. apply N.eqb_eq in H1. apply IH in H2.
    now subst.
  - injection H as -> ->. now rewrite N.eqb_refl, eqb_refl.
Qed.

Lemma eqb_neq s t : s <> t -> Js.eqb s t = false.
Proof.
  intros H. destruct (Js.eqb s t) eqn:E1; [|reflexivity].
  now apply eqb_eq in E1.
Qed.

Lemma null_or_not (request : Json) : request = JNull \/ request <> JNull.
Proof. destruct request; [now left|now right..]. Qed.

Lemma nonnull_match {A} (request : Json) (a b : A) :
  request <> JNull ->
  match request with JNull => a | _ => b end = b.
Proof. intros H. destruct request; [contradiction|reflexivity..]. Qed.

(** Taking the fields out of [null] throws before anything is done. *)
Lemma handleRequest_null srv :
  handleRequest cfg lib E JNull srv
  = (inl (newError (lit "Cannot destructure property 'method' of 'request' as it is null.")),
     srv).
Proof. reflexivity. Qed.


Lemma get_orEmptyObject key args :
  get key (orEmptyObject (Some args)) = get key args.
Proof.
  destruct args as [|[]|n|s| |]; try reflexivity; cbn.
  - now destruct (n =? 0)%Z.
  - now destruct (Js.truthy s).
Qed.

(** Unfolding the methods of the server down to the monad. *)
Ltac task :=
  unfold handleInitialize, handleToolsList, handleToolsCall,
    toolBrowserLaunch, toolBrowserNavigate, toolBrowserScreenshot,
    toolBrowserQuit, sendResult, sendError, stry, log, send, lift, sthrow,
    sret, mbind, Task_bind, sbind;
  cbv zeta beta.

(** Case analysis on a scrutinee that holds no other. *)
Ltac inner_case :=
  match goal with
  | |- context [match ?x with _ => _ end] =>
    lazymatch x with
    | context [match _ with _ => _ end] => fail
    | _ => destruct x eqn:?
    end
  end; cbv beta iota.

(** The two cases of [handleRequest]: [null], and a value whose fields
    may be anything. *)
Ltac dispatch request :=
  destruct (null_or_not request) as [->|Hnull];
    [rewrite ?handleRequest_null|
     unfold handleRequest; rewrite ?(nonnull_match request) by exact Hnull;
     cbv zeta beta;
     generalize (get "method" request) (get "params" request)
                (orNull (get "id" request));
     intros method params id].



(** The JSON value [null] is not answered at all: the listener throws
    twice, the second time in its own [catch]. *)
Lemma null_line_unanswered srv :
  exists e, handleLine cfg lib E (Parsed JNull) srv = (inl e, srv).
Proof. eexists. reflexivity. Qed.

(** X2.  A request that is answered with an error other than the internal
    error (method not found, invalid params) has not touched the session:
    no field of the manager changed, and nothing was asked of the engine
    or logged by the manager.  Requests are validated before any
    operation runs, and every failure of an operation is reported as the
    internal error. *)
Theorem rejected_request_leaves_session
    (request : Json) (srv : Server) (r : JSONRPCResponse) (e : RpcError) :
  last (stdout (snd (handleRequest cfg lib E request srv))) = Some r ->
  respError r = Some e ->
  errCode e <> ErrorCode.INTERNAL_ERROR ->
  session (snd (handleRequest cfg lib E request srv)) = session srv.
Proof.
  dispatch request; [reflexivity|].
  task. repeat inner_case.
  all: cbn [snd session stdout write withSession]; try reflexivity.
  all: rewrite ?last_snoc; intros [= <-]; cbn; intros [= <-]; cbn; intros Hc;
    first [ reflexivity | now destruct Hc ].
Qed.

(** X3.  Only a [tools/call] that names one of the four dispatched tools can
    change the session: [initialize], [tools/list], unknown methods and
    calls of any other tool leave the manager and its history as they
    are. *)
Theorem session_changed_by_tools_only (request : Json) (srv : Server) :
  session (snd (handleRequest cfg lib E request srv)) <> session srv ->
  get "method" request = Some (JStr (lit "tools/call")) /\
  exists name,
    get "params" request ≫= get "name" = Some (JStr name) /\
    In name dispatchedTools.
Proof.
  destruct (null_or_not request) as [->|Hnull];
    [intros Hs; now destruct Hs|].
  unfold handleRequest. rewrite (nonnull_match request) by exact Hnull.
  cbv zeta beta. generalize (orNull (get "id" request)). intros id.
  unfold handleInitialize, handleToolsList, handleToolsCall, sendResult,
    sendError, log, send, sthrow, sret, mbind, Task_bind, sbind.
  cbv zeta beta.
  repeat match goal with
         | |- context [match ?x with _ => _ end] =>
           lazymatch x with
           | context [match _ with _ => _ end] => fail
           | context [toolBrowserLaunch] => fail
           | context [toolBrowserNavigate] => fail
           | context [toolBrowserScreenshot] => fail
           | context [toolBrowserQuit] => fail
           | _ => destruct x eqn:?; cbv beta iota
           end
         end;
    try (cbn [snd session write]; intros Hs; now destruct Hs);
    intros _;
    repeat match goal with
           | H : Js.eqb _ _ = true |- _ => apply eqb_eq in H
           end;
    subst; (split; [reflexivity|]); eexists; (split; [cbn; eassumption|]);
    cbn; auto 6.
Qed.

Lemma dispatch_tool name arguments id srv :
  Js.truthy name = true ->
  handleRequest cfg lib E (toolCallRequest name arguments id) srv
  = (let args := orEmptyObject arguments in
     let id := orNull id in
     if Js.eqb name (lit "browser_launch") then
       toolBrowserLaunch cfg lib E args id
     else if Js.eqb name (lit "browser_navigate") then
       toolBrowserNavigate cfg lib E args id
     else if Js.eqb name (lit "browser_screenshot") then
       toolBrowserScreenshot cfg lib E args id
     else if Js.eqb name (lit "browser_quit") then
       toolBrowserQuit cfg lib E args id
     else
       sendError id ErrorCode.METHOD_NOT_FOUND (lit "Unknown tool: " ++ name)
         None) srv.
Proof.
  intros Hn. unfold toolCallRequest. rewrite handleRequest_request.
  change (Js.eqb (lit "tools/call") (lit "initialize")) with false.
  change (Js.eqb (lit "tools/call") (lit "tools/list")) with false.
  change (Js.eqb (lit "tools/call") (lit "tools/call")) with true.
  cbn iota. unfold handleToolsCall.
  cbn [Json.truthy isObjectType andb].
  assert (Hget : forall l, get "name" (JObj (field "name" (JStr name) :: l))
                           = Some (JStr name)) by reflexivity.
  rewrite Hget, Hn.
  assert (Hargs : get "arguments"
                    (JObj (field "name" (JStr name) ::
                           match arguments with
                           | Some a => [field "arguments" a]
                           | None => []
                           end)) = arguments)
    by now destruct arguments.
  now rewrite Hargs.
Qed.

(** X4.  A [tools/call] that names a tool other than browser_launch,
    browser_navigate, browser_screenshot and browser_quit is answered
    with the method-not-found error "Unknown tool: " followed by the
    name, and changes nothing else.  This is the answer to
    browser_find, browser_click and browser_type. *)
Theorem unknown_tool_not_found
    (name : jsstring) (arguments id : option Json) (srv : Server) :
  Js.truthy name = true -> ~ In name dispatchedTools ->
  snd (handleRequest cfg lib E (toolCallRequest name arguments id) srv)
  = write (errorResponse (orNull id) ErrorCode.METHOD_NOT_FOUND
             (lit "Unknown tool: " ++ name)) srv.
Proof.
  intros Hn Hd. rewrite (dispatch_tool _ _ _ _ Hn). cbn zeta.
  rewrite !eqb_neq; [now rewrite sendError_snd| | | |];
    intros ->; apply Hd; cbn; auto.
Qed.

(** X5.  browser_navigate with a url, called before any launch or after a
    quit, is answered with the internal error "Browser not launched.
    Call browser_launch first." and leaves the session untouched: the
    manager's not-launched error is recognised by its message. *)
Theorem navigate_tool_without_session
    (args : Json) (url : jsstring) (id : option Json) (srv : Server) :
  get "url" args = Some (JStr url) -> Js.truthy url = true ->
  notLaunched (manager (session srv)) ->
  snd (handleRequest cfg lib E
         (toolCallRequest (lit "browser_navigate") (Some args) id) srv)
  = write (errorResponse (orNull id) ErrorCode.INTERNAL_ERROR
             (lit "Browser not launched. Call browser_launch first.")) srv.
Proof.
  intros Hu Ht Hn. rewrite dispatch_tool by reflexivity. cbn zeta.
  change (Js.eqb (lit "browser_navigate") (lit "browser_launch")) with false.
  change (Js.eqb (lit "browser_navigate") (lit "browser_navigate")) with true.
  cbn iota.
  unfold toolBrowserNavigate. rewrite get_orEmptyObject, Hu, Ht.
  unfold stry, mbind, Task_bind, sbind, lift, navigate.
  rewrite (guarded_inl _ _ _ Hn).
  assert (Hs : saysNotLaunched (NotLaunchedError (lit "navigate")) = true)
    by (vm_compute; reflexivity).
  rewrite Hs, sendError_snd. now destruct srv.
Qed.

(** X6.  browser_screenshot without a file name, called before any launch or
    after a quit, is answered with the same internal error and leaves
    the session untouched; this when the other two arguments, whatever
    their types, can be written in the log line the tool starts with
    (an object with a property [toString] cannot). *)
Theorem screenshot_tool_without_session
    (args : Json) (id : option Json) (srv : Server) :
  get "filename" args = None ->
  toStringJs (orElse (get "returnBase64" args) (JBool false)) <> None ->
  toStringJs (orElse (get "fullPage" args) (JBool false)) <> None ->
  notLaunched (manager (session srv)) ->
  snd (handleRequest cfg lib E
         (toolCallRequest (lit "browser_screenshot") (Some args) id) srv)
  = write (errorResponse (orNull id) ErrorCode.INTERNAL_ERROR
             (lit "Browser not launched. Call browser_launch first.")) srv.
Proof.
  intros Hf Hr Hp Hn. rewrite dispatch_tool by reflexivity. cbn zeta.
  change (Js.eqb (lit "browser_screenshot") (lit "browser_launch")) with false.
  change (Js.eqb (lit "browser_screenshot") (lit "browser_navigate")) with false.
  change (Js.eqb (lit "browser_screenshot") (lit "browser_screenshot")) with true.
  cbn iota.
  unfold toolBrowserScreenshot, takeScreenshot.
  rewrite !get_orEmptyObject, Hf.
  assert (Hi : interpolates
                 [Some (orElse None (str "none"));
                  Some (orElse (get "returnBase64" args) (JBool false));
                  Some (orElse (get "fullPage" args) (JBool false))] = true).
  { unfold interpolates. cbn [forallb toStringU orElse].
    destruct (toStringJs (orElse (get "returnBase64" args) (JBool false)));
      [|now destruct Hr].
    destruct (toStringJs (orElse (get "fullPage" args) (JBool false)));
      [|now destruct Hp].
    reflexivity. }
  rewrite Hi.
  assert (Hs : saysNotLaunched (NotLaunchedError (lit "screenshot")) = true)
    by (vm_compute; reflexivity).
  assert (Hshot : forall {A} options (k : Shot -> M A),
             (screenshot lib E options ≫= k) (session srv)
             = (inl (NotLaunchedError (lit "screenshot")), session srv)).
  { intros A options k. apply bind_inl. unfold screenshot.
    now apply guarded_inl. }
  unfold stry, lift. unfold mbind at 1, Task_bind, sbind.
  repeat match goal with
  | |- context [(?m ≫= ?k) (session srv)] =>
    rewrite (bind_inr m k (session srv) _ _ eq_refl)
  end.
  destruct (get "returnBase64" args) as [[| [] | | | |]|];
    rewrite (bind_inl _ _ _ _ _ (Hshot _ _ _)), Hs, sendError_snd;
    now destruct srv.
Qed.

(** X8.  browser_launch on a session that already has a browser is answered
    with the internal error that carries the manager's already-launched
    message, and the handles stay as they are. *)
Theorem launch_tool_when_launched
    (arguments id : option Json) (srv : Server) (b : handle) :
  browser (manager (session srv)) = Some b ->
  let srv' := snd (handleRequest cfg lib E
                     (toolCallRequest (lit "browser_launch") arguments id) srv) in
  stdout srv' = stdout srv ++
    [errorResponse (orNull id) ErrorCode.INTERNAL_ERROR
       (lit "Failed to launch browser: Browser is already launched. Call quit() before launching again.")] /\
  manager (session srv') = manager (session srv).
Proof.
  intros Hb. cbn zeta. rewrite dispatch_tool by reflexivity. cbn zeta.
  change (Js.eqb (lit "browser_launch") (lit "browser_launch")) with true.
  cbn iota. unfold toolBrowserLaunch, stry, lift.
  unfold mbind, Task_bind, sbind.
  match goal with
  | |- context [launch cfg lib E ?o (session srv)] =>
    destruct (launch_active cfg lib E o (session srv) b Hb) as [H1 H2];
    destruct (launch cfg lib E o (session srv)) as [[e|u] s]
  end; cbn in H1, H2; [|discriminate H1].
  injection H1 as ->. rewrite sendError_snd.
  split; [reflexivity|exact H2].
Qed.

(** X9.  browser_quit is answered with the result
    [{content: [{type: "text", text: "Browser session closed"}]}] in
    every state of the session and whatever the engine does: [shutdown]
    never throws.  The error answer "Failed to close browser" is sent
    in one case only, after that result, for an id that cannot be
    written in the log line of [sendResult] (an object with a property
    [toString]): such a request is answered twice.  When the session
    was launched (and no shutdown was in progress) its three handles are
    cleared. *)
Theorem browser_quit_answer
    (arguments id : option Json) (srv : Server) :
  let srv' := snd (handleRequest cfg lib E
                     (toolCallRequest (lit "browser_quit") arguments id) srv) in
  stdout srv' = stdout srv ++
    {| respId := orNull id;
       respResult :=
         Some (JObj [(lit "content",
                      JArr [JObj [(lit "type", JStr (lit "text"));
                                  (lit "text",
                                   JStr (lit "Browser session closed"))]])]);
       respError := None |} ::
    match toStringJs (orNull id) with
    | Some _ => []
    | None =>
      [errorResponse (orNull id) ErrorCode.INTERNAL_ERROR
         (lit "Failed to close browser: Cannot convert object to primitive value")]
    end /\
  (isShuttingDown (manager (session srv)) = false ->
   ~ notLaunched (manager (session srv)) ->
   manager (session srv') = cleared (manager (session srv))).
Proof.
  cbn zeta. rewrite dispatch_tool by reflexivity. cbn zeta.
  change (Js.eqb (lit "browser_quit") (lit "browser_launch")) with false.
  change (Js.eqb (lit "browser_quit") (lit "browser_navigate")) with false.
  change (Js.eqb (lit "browser_quit") (lit "browser_screenshot")) with false.
  change (Js.eqb (lit "browser_quit") (lit "browser_quit")) with true.
  cbn iota. unfold toolBrowserQuit, stry, lift.
  unfold mbind, Task_bind, sbind.
  destruct (shutdown_total cfg lib E (session srv)) as ([] & s' & Hs).
  rewrite Hs.
  assert (Hsent :
    forall srv0,
      let sent := sendResult (orNull id)
                    (textContent (lit "Browser session closed")) srv0 in
      let srv1 :=
        match sent with
        | (inl error, srv2) =>
          snd (sendError (orNull id) ErrorCode.INTERNAL_ERROR
                 (lit "Failed to close browser: " ++ message error) None srv2)
        | (inr _, srv2) => srv2
        end in
      session srv1 = session srv0 /\
      stdout srv1 = stdout srv0 ++
        {| respId := orNull id;
           respResult := Some (textContent (lit "Browser session closed"));
           respError := None |} ::
        match toStringJs (orNull id) with
        | Some _ => []
        | None =>
          [errorResponse (orNull id) ErrorCode.INTERNAL_ERROR
             (lit "Failed to close browser: Cannot convert object to primitive value")]
        end).
  { intros srv0. cbv zeta.
    unfold sendResult, sendError, mbind, Task_bind, sbind, send, log,
      interpolates.
    cbn [forallb toStringU].
    destruct (toStringJs (orNull id)); cbn; [now split|].
    split; [reflexivity|]. now rewrite <- app_assoc. }
  specialize (Hsent (withSession s' srv)). cbv zeta in Hsent.
  destruct Hsent as [Hsession Hstdout].
  match goal with
  | |- stdout (snd ?x) = _ /\ _ =>
    match type of Hstdout with
    | stdout ?y = _ => assert (Hxy : snd x = y)
    end
  end.
  { destruct (sendResult (orNull id)
                (textContent (lit "Browser session closed"))
                (withSession s' srv)) as [[e|[]] srv2]; [|reflexivity].
    destruct (sendError (orNull id) ErrorCode.INTERNAL_ERROR
                (lit "Failed to close browser: " ++ message e) None srv2);
      reflexivity. }
  rewrite Hxy. split; [exact Hstdout|].
  intros Hf Hn. rewrite Hsession. cbn [session withSession].
  destruct (browser (manager (session srv))) as [b|] eqn:Hb;
    [|destruct Hn; now left].
  destruct (page (manager (session srv))) as [p|] eqn:Hp;
    [|destruct Hn; now right].
  pose proof (shutdown_clears cfg lib E (session srv) b p Hf Hb Hp) as Hc.
  rewrite Hs in Hc. exact Hc.
Qed.

(** X10.  The server never reads the configured [headless] (the
    HEADLESS environment variable): browser_launch passes the flag of
    its arguments, false when there is none, and no other request looks
    at it.  Every request is handled alike under two configurations that
    agree on the delay, the timeout and the screenshot directory. *)
Theorem configured_headless_unused
    (cfg' : Config) (request : Json) (srv : Server) :
  slowMoMs cfg' = slowMoMs cfg ->
  defaultTimeoutMs cfg' = defaultTimeoutMs cfg ->
  screenshotDir cfg' = screenshotDir cfg ->
  handleRequest cfg' lib E request srv = handleRequest cfg lib E request srv.
Proof.
  destruct cfg' as [h' slow' timeout' dir'].
  cbn [slowMoMs defaultTimeoutMs screenshotDir]. intros -> -> ->.
  destruct (null_or_not request) as [->|Hnull]; [reflexivity|].
  unfold handleRequest. rewrite !(nonnull_match request) by exact Hnull.
  cbv zeta.
  destruct (get "method" request) as [[| | |name| |]|]; reflexivity.
Qed.

(** X11.  The server does not require [initialize]: what it answers and what
    it does to the session is the same whether or not it has been
    initialized. *)
Theorem initialization_not_required
    (b : bool) (request : Json) (srv : Server) :
  let srv1 := snd (handleRequest cfg lib E request
                     {| isInitialized := b; session := session srv;
                        stdout := stdout srv |}) in
  let srv2 := snd (handleRequest cfg lib E request srv) in
  stdout srv1 = stdout srv2 /\ session srv1 = session srv2.
Proof.
  cbn zeta. dispatch request; [split; reflexivity|].
  task. repeat (inner_case; cbn [session withSession]).
  all: split; reflexivity.
Qed.

(** X7.  browser_screenshot with a file name prepares the screenshot
    directory before the manager checks the session: called without a
    session while the directory is missing, it creates the directory and
    only then answers that the browser is not launched; this when the
    other two arguments, whatever their types, can be written in the log
    line the tool starts with. *)
Theorem screenshot_tool_creates_directory_first
    (args : Json) (filename : jsstring) (id : option Json) (srv : Server)
    (e : Error) :
  get "filename" args = Some (JStr filename) -> Js.truthy filename = true ->
  toStringJs (orElse (get "returnBase64" args) (JBool false)) <> None ->
  toStringJs (orElse (get "fullPage" args) (JBool false)) <> None ->
  notLaunched (manager (session srv)) ->
  let dir := screenshotDir cfg in
  let h := history (session srv) in
  stat E h dir = inl e -> Fs.isENOENT e = true ->
  perform E (h ++ [Stat dir (inl e)]) (Mkdir dir) = None ->
  snd (handleRequest cfg lib E
         (toolCallRequest (lit "browser_screenshot") (Some args) id) srv)
  = write (errorResponse (orNull id) ErrorCode.INTERNAL_ERROR
             (lit "Browser not launched. Call browser_launch first."))
      (withSession
         {| manager := manager (session srv);
            history := h ++ [Stat dir (inl e); Did (Mkdir dir) None] |} srv).
Proof.
  intros Hf Ht Hr Hp Hn dir h Hstat Henoent Hmk.
  rewrite dispatch_tool by reflexivity. cbn zeta.
  change (Js.eqb (lit "browser_screenshot") (lit "browser_launch")) with false.
  change (Js.eqb (lit "browser_screenshot") (lit "browser_navigate")) with false.
  change (Js.eqb (lit "browser_screenshot") (lit "browser_screenshot")) with true.
  cbn iota.
  unfold toolBrowserScreenshot, takeScreenshot.
  rewrite !get_orEmptyObject, Hf, Ht.
  assert (Hi : interpolates
                 [Some (orElse (Some (JStr filename)) (str "none"));
                  Some (orElse (get "returnBase64" args) (JBool false));
                  Some (orElse (get "fullPage" args) (JBool false))] = true).
  { unfold interpolates. cbn [forallb toStringU orElse Json.truthy].
    rewrite Ht. cbn [toStringJs].
    destruct (toStringJs (orElse (get "returnBase64" args) (JBool false)));
      [|now destruct Hr].
    destruct (toStringJs (orElse (get "fullPage" args) (JBool false)));
      [|now destruct Hp].
    reflexivity. }
  rewrite Hi.
  set (s1 := {| manager := manager (session srv);
                history := h ++ [Stat dir (inl e); Did (Mkdir dir) None] |}).
  assert (Hdir : ensureDir E dir (session srv) = (inr tt, s1)).
  { unfold ensureDir, tryCatch, call, mbind, M_bind, bind. fold h.
    rewrite Hstat. cbn. rewrite Henoent. unfold doAction. cbn. fold h.
    rewrite Hmk. unfold s1, record. cbn. now rewrite <- app_assoc. }
  assert (Hs : saysNotLaunched (NotLaunchedError (lit "screenshot")) = true)
    by (vm_compute; reflexivity).
  assert (Hn1 : notLaunched (manager s1)) by exact Hn.
  assert (Hshot : forall {A} options (k : Shot -> M A),
             (screenshot lib E options ≫= k) s1
             = (inl (NotLaunchedError (lit "screenshot")), s1)).
  { intros A options k. apply bind_inl. unfold screenshot.
    now apply guarded_inl. }
  unfold stry, lift. unfold mbind at 1, Task_bind, sbind.
  match goal with
  | |- context [(?m ≫= ?k) (session srv)] =>
    rewrite (bind_inr m k (session srv) _ _ eq_refl)
  end.
  match goal with
  | |- context [(?m ≫= ?k) (session srv)] =>
    assert (Hm : m (session srv) = (inr (Some (join lib dir filename)), s1))
  end.
  { unfold mbind at 1, M_bind, bind. fold dir. now rewrite Hdir. }
  rewrite (bind_inr _ _ _ _ _ Hm).
  destruct (get "returnBase64" args) as [[| [] | | | |]|];
    rewrite (bind_inl _ _ _ _ _ (Hshot _ _ _)), Hs, sendError_snd;
    reflexivity.
Qed.

End ServerFacts.

(** ** The configuration *)

Section ConfigFacts.
Import BrowserManager ConfigLoader.

Lemma parseNumber_nonnegative value defaultValue :
  (0 <= defaultValue)%Z -> (0 <= parseNumber value defaultValue)%Z.
Proof.
  intros Hd. unfold parseNumber. destruct value as [value|]; [|exact Hd].
  destruct (negb (Js.truthy value)); [exact Hd|].
  destruct (parseInt value) as [parsed|]; [|exact Hd].
  destruct (parsed <? 0)%Z eqn:Hp; [exact Hd|]. now apply Z.ltb_ge.
Qed.

(** X27.  Whatever the environment holds, the configuration that is loaded has
    a slow-motion delay and a default timeout that are not negative, and
    a screenshot directory that is not the empty string: a variable that
    is unset, empty, not a number or negative gives way to the default. *)
Theorem loadConfig_invariant (toLowerCase : jsstring -> jsstring) (env : Env) :
  let config := loadConfig toLowerCase env in
  (0 <= slowMoMs config)%Z /\ (0 <= defaultTimeoutMs config)%Z /\
  Js.truthy (screenshotDir config) = true.
Proof.
  cbn zeta. unfold loadConfig. cbn [slowMoMs defaultTimeoutMs screenshotDir].
  split; [now apply parseNumber_nonnegative|].
  split; [now apply parseNumber_nonnegative|].
  destruct (SCREENSHOT_DIR env) as [dir|]; [|reflexivity].
  now destruct (Js.truthy dir) eqn:Hd.
Qed.

Lemma trimStart_app ws s :
  Forall (fun c => isWhiteSpace c = true) ws ->
  trimStart (ws ++ s) = trimStart s.
Proof.
  induction 1 as [|c ws Hc _ IH]; [reflexivity|].
  cbn [app trimStart]. now rewrite Hc.
Qed.

Lemma takeDigits_uintDigits u rest :
  match rest with c :: _ => digitOf c = None | [] => True end ->
  takeDigits (uintDigits u ++ rest) = u.
Proof.
  intros Hrest. induction u; cbn [uintDigits app takeDigits];
    try (change (digitOf (ch "0")) with (Some Decimal.D0);
         change (digitOf (ch "1")) with (Some Decimal.D1);
         change (digitOf (ch "2")) with (Some Decimal.D2);
         change (digitOf (ch "3")) with (Some Decimal.D3);
         change (digitOf (ch "4")) with (Some Decimal.D4);
         change (digitOf (ch "5")) with (Some Decimal.D5);
         change (digitOf (ch "6")) with (Some Decimal.D6);
         change (digitOf (ch "7")) with (Some Decimal.D7);
         change (digitOf (ch "8")) with (Some Decimal.D8);
         change (digitOf (ch "9")) with (Some Decimal.D9);
         cbn iota; now f_equal).
  destruct rest as [|c rest]; [reflexivity|]. cbn [takeDigits].
  now rewrite Hrest.
Qed.

(** X28.  [parseNumber] reads a number the way [parseInt] does: white space
    before the digits is skipped and whatever follows them is ignored,
    so that [30000ms] is read as 30000.  The decimal text of a natural
    number, so surrounded, is read back as that number. *)
Theorem parseNumber_reads_decimal
    (ws rest : jsstring) (n : N) (defaultValue : Z) :
  Forall (fun c => isWhiteSpace c = true) ws ->
  match rest with c :: _ => digitOf c = None | [] => True end ->
  n < 2 ^ 53 ->
  parseNumber (Some (ws ++ showN n ++ rest)) defaultValue = Z.of_N n.
Proof.
  intros Hws Hrest _. unfold parseNumber.
  assert (Hnil : N.to_uint n <> Decimal.Nil).
  { destruct n as [|p]; [discriminate|]. apply DecimalPos.Unsigned.to_uint_nonnil. }
  assert (Hne : exists c s, showN n ++ rest = c :: s /\
                            isWhiteSpace c = false /\
                            (c =? ch "-") = false /\ (c =? ch "+") = false).
  { unfold showN. destruct (N.to_uint n) eqn:Hu;
      [now destruct Hnil|eexists _, _; repeat split; reflexivity ..]. }
  destruct Hne as (c & s & Hcs & Hc1 & Hc2 & Hc3).
  assert (Ht : Js.truthy (ws ++ showN n ++ rest) = true).
  { rewrite Hcs. now destruct ws. }
  rewrite Ht. cbn [negb]. unfold parseInt.
  rewrite trimStart_app by exact Hws.
  rewrite Hcs. cbn [trimStart]. rewrite Hc1, Hc2, Hc3. rewrite <- Hcs.
  unfold showN. rewrite (takeDigits_uintDigits _ _ Hrest).
  pose proof (DecimalN.Unsigned.of_to n) as Hof.
  assert (Hpos : (Z.of_N n <? 0)%Z = false)
    by (apply Z.ltb_ge, N2Z.is_nonneg).
  destruct (N.to_uint n); [now destruct Hnil|..];
    cbn iota; rewrite Hof, Hpos; reflexivity.
Qed.

End ConfigFacts.

(** ** The test client *)

Section ClientFacts.
Import BrowserManager MCPServer McpTestClient.

Lemma wellFormed_started : wellFormed started.
Proof.
  unfold wellFormed, started. cbn [pendingRequests timers settled].
  split; [|split]; [intros i k H|intros k i m H|intros k v H];
    rewrite lookup_empty in H; discriminate.
Qed.

(** Settling the promise of a pending request, as a response and a
    timeout do. *)
Lemma settle_pending c i k v :
  wellFormed c -> pendingRequests c !! i = Some k ->
  let c' := settle k v (forget i (clearTimeout k c)) in
  wellFormed c' /\
  settled c' = <[k := v]> (settled c) /\
  pendingRequests c' = delete i (pendingRequests c) /\
  timers c' = delete k (timers c).
Proof.
  intros (H1 & H2 & H3) Hik.
  destruct (H1 i k Hik) as (Hs & Hi & Hk & m & Ht).
  cbn zeta. unfold settle. cbn [settled forget clearTimeout]. rewrite Hs.
  cbn. split; [|auto]. unfold wellFormed. cbn. repeat split.
  - apply lookup_delete_Some in H as [Hne Hj].
    destruct (H1 _ _ Hj) as (Hs' & _).
    rewrite lookup_insert_ne; [exact Hs'|].
    intros <-. destruct (H1 _ _ Hj) as (_ & _ & _ & m' & Ht').
    rewrite Ht in Ht'. injection Ht' as ->. now destruct Hne.
  - apply lookup_delete_Some in H as [Hne Hj]. now destruct (H1 _ _ Hj) as (_ & ? & _).
  - apply lookup_delete_Some in H as [Hne Hj]. now destruct (H1 _ _ Hj) as (_ & _ & ? & _).
  - apply lookup_delete_Some in H as [Hne Hj].
    destruct (H1 _ _ Hj) as (_ & _ & _ & m' & Ht'). exists m'.
    rewrite lookup_delete_ne; [exact Ht'|].
    intros <-. rewrite Ht in Ht'. injection Ht' as ->. now destruct Hne.
  - intros k0 i0 m0 H. apply lookup_delete_Some in H as [Hne Hj].
    apply lookup_delete_Some. split; [|now apply (H2 _ _ m0)].
    intros <-. apply H2 in Hj. rewrite Hik in Hj. injection Hj as ->.
    now destruct Hne.
  - intros k0 v0 H. apply lookup_insert_Some in H as [[<- _]|[_ H]];
      [exact Hk|now apply (H3 _ v0)].
Qed.

Lemma wellFormed_call method params c :
  wellFormed c -> wellFormed (snd (call method params None c)).
Proof.
  intros Hw. pose proof Hw as (H1 & H2 & H3). unfold call.
  destruct (serverProcess c); cbn [negb snd]; [|exact Hw].
  unfold wellFormed. cbn [pendingRequests timers settled nextId created default].
  split; [|split].
  - intros i k H. apply lookup_insert_Some in H as [[<- <-]|[Hne H]].
    + split; [|split; [lia|split; [lia|]]].
      * destruct (settled c !! created c) as [v|] eqn:Hs; [|reflexivity].
        apply H3 in Hs. lia.
      * eexists. apply lookup_insert_eq.
    + destruct (H1 _ _ H) as (Hs & Hi & Hk & m & Ht).
      split; [exact Hs|split; [lia|split; [lia|]]].
      exists m. rewrite lookup_insert_ne by lia. exact Ht.
  - intros k i m H. apply lookup_insert_Some in H as [[<- [= <- <-]]|[Hne H]].
    + apply lookup_insert_eq.
    + pose proof (H2 _ _ _ H) as Hp. destruct (H1 _ _ Hp) as (_ & Hi & _).
      rewrite lookup_insert_ne by lia. exact Hp.
  - intros k v H. apply H3 in H. lia.
Qed.

(** What the loop of [rejectAllPending] leaves of the timers and of the
    promises. *)
Lemma rejectAll_foldr error (l : list (Z * nat)) : forall c,
  let c' := foldr (fun entry c => settle (snd entry) (Rejected error)
                                    (clearTimeout (snd entry) c)) c l in
  created c' = created c /\
  (forall k, timers c' !! k
             = if decide (k ∈ l.*2) then None else timers c !! k) /\
  (forall k v, settled c' !! k = Some v ->
               k ∈ l.*2 \/ settled c !! k = Some v).
Proof.
  induction l as [|[i k0] l IH]; intros c; cbn zeta.
  - cbn [foldr fmap list_fmap]. split; [reflexivity|]. split.
    + intros k. destruct (decide (k ∈ [])) as [H|H]; [inversion H|reflexivity].
    + intros k v H. now right.
  - cbn [foldr snd fmap list_fmap].
    destruct (IH c) as (I1 & I2 & I3). cbn zeta in I1, I2, I3.
    set (c1 := foldr _ c l) in *.
    assert (Hsettle : forall c2 v,
               created (settle k0 v c2) = created c2 /\
               timers (settle k0 v c2) = timers c2 /\
               (forall k v', settled (settle k0 v c2) !! k = Some v' ->
                             k = k0 \/ settled c2 !! k = Some v')).
    { intros c2 v. unfold settle.
      destruct (settled c2 !! k0) eqn:Hs; cbn; repeat split; auto.
      intros k v' H. apply lookup_insert_Some in H as [[<- _]|[_ H]]; auto. }
    destruct (Hsettle (clearTimeout k0 c1) (Rejected error)) as (S1 & S2 & S3).
    rewrite S1, S2. cbn [created timers settled clearTimeout] in *.
    split; [exact I1|]. split.
    + intros k. destruct (decide (k = k0)) as [->|Hne].
      * rewrite lookup_delete_eq.
        destruct (decide (k0 ∈ k0 :: l.*2)) as [_|H]; [reflexivity|].
        destruct H. left.
      * rewrite lookup_delete_ne by congruence. rewrite I2.
        destruct (decide (k ∈ l.*2)) as [Hin|Hin];
          destruct (decide (k ∈ k0 :: l.*2)) as [Hin'|Hin'];
          try reflexivity.
        -- destruct Hin'. now right.
        -- apply elem_of_cons in Hin' as [?|?]; [congruence|now destruct Hin].
    + intros k v H. apply S3 in H as [->|H]; [left; left|].
      apply I3 in H as [H|H]; [left; now right|now right].
Qed.

Lemma wellFormed_rejectAllPending error c :
  wellFormed c -> wellFormed (rejectAllPending error c).
Proof.
  intros (H1 & H2 & H3). unfold rejectAllPending.
  destruct (rejectAll_foldr error (map_to_list (pendingRequests c)) c)
    as (I1 & I2 & I3). cbn zeta in I1, I2, I3.
  unfold wellFormed. cbn [pendingRequests timers settled nextId created].
  split; [|split].
  - intros i k H. rewrite lookup_empty in H. discriminate.
  - intros k i m H. exfalso. rewrite I2 in H.
    destruct (decide (k ∈ (map_to_list (pendingRequests c)).*2)) as [Hin|Hin];
      [discriminate|].
    apply Hin. apply H2 in H. apply list_elem_of_fmap. exists (i, k).
    split; [reflexivity|]. now apply elem_of_map_to_list.
  - intros k v H. rewrite I1. apply I3 in H as [H|H]; [|now apply (H3 _ v)].
    apply list_elem_of_fmap in H as ([i k'] & -> & Hin).
    apply elem_of_map_to_list in Hin. now destruct (H1 _ _ Hin) as (_ & _ & ? & _).
Qed.

Lemma wellFormed_step c input : wellFormed c -> wellFormed (step c input).
Proof.
  intros H. destruct input as [method params|line|ticket|error|code];
    cbn [step].
  - now apply wellFormed_call.
  - unfold handleResponse. destruct line as [response|]; [|exact H].
    destruct (respId response); try exact H.
    destruct (pendingRequests c !! n) as [k|] eqn:Hk; [|exact H].
    now apply settle_pending.
  - unfold timerFired. destruct (timers c !! ticket) as [[i m]|] eqn:Ht;
      [|exact H].
    apply settle_pending; [exact H|]. destruct H as (_ & H2 & _).
    now apply (H2 _ _ m).
  - now apply wellFormed_rejectAllPending.
  - unfold onExit.
    assert (Hs : forall c1 b, wellFormed c1 ->
               wellFormed {| serverProcess := b;
                             pendingRequests := pendingRequests c1;
                             nextId := nextId c1; created := created c1;
                             settled := settled c1; timers := timers c1;
                             stdin := stdin c1 |}) by (intros c1 b Hc; exact Hc).
    apply Hs. destruct code as [n|]; [|exact H].
    destruct (n =? 0)%Z; [exact H|]. now apply wellFormed_rejectAllPending.
Qed.

Lemma wellFormed_run inputs : wellFormed (run inputs).
Proof.
  unfold run. induction inputs as [|input inputs IH] using rev_ind.
  - apply wellFormed_started.
  - rewrite fold_left_app. cbn. now apply wellFormed_step.
Qed.

(** X29.  However the client got where it is (calls with generated ids, lines
    from the server, timeouts, errors and exits of the server process, in
    any order), a response whose id is that of a pending request settles
    the promise of that request and no other: it is resolved with the
    response, or, when the response carries an error, rejected with
    "JSON-RPC error code: message".  The request is pending no more and
    its timer is cleared, so the promise will not be rejected by a
    timeout later. *)
Theorem response_settles_its_call
    (inputs : list Input) (response : JSONRPCResponse)
    (requestId : Z) (ticket : nat) :
  let c := run inputs in
  pendingRequests c !! requestId = Some ticket ->
  respId response = JNum requestId ->
  let c' := handleResponse (Some response) c in
  settled c !! ticket = None /\
  settled c' !! ticket = Some (outcome response) /\
  (forall k, k <> ticket -> settled c' !! k = settled c !! k) /\
  pendingRequests c' !! requestId = None /\
  timers c' !! ticket = None /\
  timerFired ticket c' = c'.
Proof.
  intros c Hp Hid c'. pose proof (wellFormed_run inputs) as Hw. fold c in Hw.
  destruct (settle_pending c requestId ticket (outcome response) Hw Hp)
    as (_ & S1 & S2 & S3). cbn zeta in S1, S2, S3.
  assert (Hc' : c' = settle ticket (outcome response)
                       (forget requestId (clearTimeout ticket c))).
  { unfold c', handleResponse. now rewrite Hid, Hp. }
  rewrite Hc', S1, S2.
  destruct Hw as (H1 & _). destruct (H1 _ _ Hp) as (Hs & _).
  split; [exact Hs|]. split; [apply lookup_insert_eq|].
  split; [intros k Hk; now apply lookup_insert_ne|].
  split; [apply lookup_delete_eq|].
  assert (Ht : timers (settle ticket (outcome response)
                         (forget requestId (clearTimeout ticket c)))
               !! ticket = None) by (rewrite S3; apply lookup_delete_eq).
  split; [exact Ht|]. unfold timerFired. now rewrite Ht.
Qed.

End ClientFacts.

(** ** The client and the server together *)

Section ClientServer.
Import BrowserManager MCPServer McpTestClient Protocol.

Context (cfg : Config) (lib : NodeLib) (E : Engine).


End ClientServer.

(** ** The properties above, on concrete cases *)

Section Instances.
Import BrowserManager Scenarios Runs MCPServer Protocol Traces Cases.


(** A request whose id is an object with a property [toString] is
    answered twice: [sendResult] throws in its log line after the write,
    and the listener answers the exception with the internal error. *)
Example odd_id_answered_twice :
  let r := handleLine defaults posix obliging
             (Parsed (toolsListRequest None (Some oddId))) idle in
  fst r = inl NotPrimitive /\
  stdout (snd r)
  = [{| respId := oddId;
        respResult := Some (JObj [field "tools" (JArr tools)]);
        respError := None |};
     {| respId := oddId; respResult := None;
        respError :=
          Some {| errCode := ErrorCode.INTERNAL_ERROR;
                  errMessage := lit "Internal error";
                  errData :=
                    Some (JStr (lit "Cannot convert object to primitive value")) |} |}].
Proof. cbv zeta. split; vm_compute; reflexivity. Qed.

(** The same for browser_quit, where the tool answers its own
    exception. *)
Example browser_quit_odd_id :
  stdout (snd (handleRequest defaults posix obliging
                 (browserQuitRequest None (Some oddId)) idle))
  = [{| respId := oddId;
        respResult :=
          Some (JObj [(lit "content",
                       JArr [JObj [(lit "type", JStr (lit "text"));
                                   (lit "text",
                                    JStr (lit "Browser session closed"))]])]);
        respError := None |};
     errorResponse oddId ErrorCode.INTERNAL_ERROR
       (lit "Failed to close browser: Cannot convert object to primitive value")].
Proof. vm_compute. reflexivity. Qed.

(** browser_screenshot with an argument that cannot be written in the
    tool's first log line fails before the directory is looked at. *)
Example screenshot_odd_argument :
  snd (handleRequest defaults posix freshDisk
         (toolCallRequest (lit "browser_screenshot")
            (Some (JObj [field "filename" (str "page.png");
                         field "fullPage" oddId]))
            (Some (JNum 8))) idle)
  = write (errorResponse (JNum 8) ErrorCode.INTERNAL_ERROR
             (lit "Failed to take screenshot: Cannot convert object to primitive value"))
      idle.
Proof. vm_compute. reflexivity. Qed.

Lemma rejected_request_leaves_session_witness :
  session (snd (handleRequest defaults posix obliging resourcesList idle))
  = session idle.
Proof.
  eapply (rejected_request_leaves_session defaults posix obliging
            resourcesList idle).
  - reflexivity.
  - reflexivity.
  - discriminate.
Defined.

Lemma session_changed_by_tools_only_witness :
  let request := toolCallRequest (lit "browser_launch") None (Some (JNum 1)) in
  get "method" request = Some (JStr (lit "tools/call")) /\
  exists name,
    get "params" request ≫= get "name" = Some (JStr name) /\
    In name dispatchedTools.
Proof.
  cbv zeta.
  apply (session_changed_by_tools_only defaults posix obliging
           (toolCallRequest (lit "browser_launch") None (Some (JNum 1))) idle).
  intros H. apply (f_equal (fun s => length (history s))) in H.
  vm_compute in H. discriminate H.
Defined.

Lemma unknown_tool_not_found_witness :
  snd (handleRequest defaults posix obliging
         (toolCallRequest (lit "browser_click") None (Some (JNum 3))) idle)
  = write (errorResponse (JNum 3) ErrorCode.METHOD_NOT_FOUND
             (lit "Unknown tool: browser_click")) idle.
Proof.
  apply (unknown_tool_not_found defaults posix obliging (lit "browser_click")
           None (Some (JNum 3)) idle).
  - reflexivity.
  - vm_compute. intros H.
    repeat (destruct H as [H|H]; [discriminate H|]). exact H.
Defined.

Lemma navigate_tool_without_session_witness :
  snd (handleRequest defaults posix obliging
         (toolCallRequest (lit "browser_navigate")
            (Some (JObj [field "url" (str "https://example.com")]))
            (Some (JNum 4))) idle)
  = write (errorResponse (JNum 4) ErrorCode.INTERNAL_ERROR
             (lit "Browser not launched. Call browser_launch first.")) idle.
Proof.
  apply (navigate_tool_without_session defaults posix obliging
           (JObj [field "url" (str "https://example.com")])
           (lit "https://example.com") (Some (JNum 4)) idle).
  - reflexivity.
  - reflexivity.
  - left. reflexivity.
Defined.

Lemma screenshot_tool_without_session_witness :
  snd (handleRequest defaults posix obliging
         (toolCallRequest (lit "browser_screenshot")
            (Some (JObj [field "fullPage" (JBool true)])) (Some (JNum 5)))
         idle)
  = write (errorResponse (JNum 5) ErrorCode.INTERNAL_ERROR
             (lit "Browser not launched. Call browser_launch first.")) idle.
Proof.
  apply (screenshot_tool_without_session defaults posix obliging
           (JObj [field "fullPage" (JBool true)]) (Some (JNum 5)) idle).
  - reflexivity.
  - discriminate.
  - discriminate.
  - left. reflexivity.
Defined.

Lemma configured_headless_unused_witness :
  let headed :=
    {| headless := true; slowMoMs := 0; defaultTimeoutMs := 30000;
       screenshotDir := lit "./screenshots" |} in
  let request := toolCallRequest (lit "browser_launch") None (Some (JNum 9)) in
  handleRequest headed posix obliging request idle
  = handleRequest defaults posix obliging request idle.
Proof.
  cbv zeta.
  apply (configured_headless_unused defaults posix obliging
           {| headless := true; slowMoMs := 0; defaultTimeoutMs := 30000;
              screenshotDir := lit "./screenshots" |});
    reflexivity.
Defined.

Lemma launch_tool_when_launched_witness :
  let srv' := snd (handleRequest defaults posix obliging
                     (toolCallRequest (lit "browser_launch") None
                        (Some (JNum 6)))
                     serving) in
  manager (session srv') = manager launched.
Proof.
  cbv zeta.
  exact (proj2 (launch_tool_when_launched defaults posix obliging None
                  (Some (JNum 6)) serving 1 eq_refl)).
Defined.

Lemma screenshot_tool_creates_directory_first_witness :
  let dir := lit "./screenshots" in
  snd (handleRequest defaults posix freshDisk
         (toolCallRequest (lit "browser_screenshot")
            (Some (JObj [field "filename" (str "page.png")])) (Some (JNum 8)))
         idle)
  = write (errorResponse (JNum 8) ErrorCode.INTERNAL_ERROR
             (lit "Browser not launched. Call browser_launch first."))
      (withSession
         {| manager := empty;
            history := [Stat dir (inl Fs.ENOENT); Did (Mkdir dir) None] |}
         idle).
Proof.
  cbv zeta.
  apply (screenshot_tool_creates_directory_first defaults posix freshDisk
           (JObj [field "filename" (str "page.png")]) (lit "page.png")
           (Some (JNum 8)) idle Fs.ENOENT).
  - reflexivity.
  - reflexivity.
  - discriminate.
  - discriminate.
  - left. reflexivity.
  - reflexivity.
  - reflexivity.
  - reflexivity.
Defined.

Lemma quit_outcome_witness :
  exists trace,
    Closing 1 2 3 trace (fst (quit defaults posix obliging launched)) /\
    requests (history (snd (quit defaults posix obliging launched)))
    = requests (history launched) ++
      List.map (fun ar => Did (fst ar) (snd ar)) trace /\
    manager (snd (quit defaults posix obliging launched))
    = cleared (manager launched).
Proof.
  apply (quit_outcome defaults posix obliging launched 1 2 3);
    reflexivity.
Defined.

Lemma click_outcome_witness :
  inputs (history (snd (click defaults posix noElement (lit "#go") None
                          launched)))
  = [Click (locator 3 (lit "#go")) 30000].
Proof.
  exact (proj2 (click_outcome defaults posix noElement (lit "#go") None
                  launched 1 3 eq_refl eq_refl)).
Defined.

Lemma type_outcome_witness :
  fst (type defaults posix obliging (lit "#q") (lit "rocq") None launched)
  = inr tt /\
  inputs (history (snd (type defaults posix obliging (lit "#q") (lit "rocq")
                          None launched)))
  = [Clear (locator 3 (lit "#q")) 30000;
     Fill (locator 3 (lit "#q")) (lit "rocq") 30000].
Proof.
  exact (type_outcome defaults posix obliging (lit "#q") (lit "rocq") None
           launched 1 3 eq_refl eq_refl).
Defined.

Lemma shutdown_twice_witness :
  let s' := snd (shutdown defaults posix obliging launched) in
  shutdown defaults posix obliging s' = (inr tt, s').
Proof.
  apply (shutdown_twice defaults posix obliging launched).
  split; discriminate.
Defined.

Lemma exec_consistent_witness :
  consistent (manager (snd (exec defaults posix obliging OpQuit launched))).
Proof.
  apply (exec_consistent defaults posix obliging OpQuit launched).
  - discriminate.
  - split; discriminate.
Defined.

Lemma launch_inl_witness :
  let s' := snd (launch defaults posix noContext None start) in
  manager s' = manager start \/
  exists b, browser (manager start) = None /\ browser (manager s') = Some b /\
            page (manager s') = page (manager start).
Proof.
  cbv zeta.
  apply (launch_inl defaults posix noContext None start targetClosed
           (snd (launch defaults posix noContext None start))).
  vm_compute. reflexivity.
Defined.

Lemma error_screenshot_name_safe_witness :
  exists name s',
    buildErrorScreenshotName obliging (lit "click " ++ quoted (lit "#go"))
      launched
    = (inr name, s') /\
    Forall (fun c => isSafeChar c = true) name.
Proof.
  apply (error_screenshot_name_safe obliging _ launched).
  exact wfDate_noon.
Defined.

Lemma exit_code_of_run_witness :
  exists t,
    Signals.firstTrigger
      [Hooks.Raise Hooks.SIGTERM; Hooks.Raise Hooks.UncaughtException;
       Hooks.TimerFired] = Some t /\
    (0%Z = Hooks.triggerCode t \/ 0%Z = Hooks.ExitCode.ERROR).
Proof.
  apply (exit_code_of_run
           [Hooks.Raise Hooks.SIGTERM; Hooks.Raise Hooks.UncaughtException;
            Hooks.TimerFired] 0%Z).
  reflexivity.
Defined.

Lemma shutdown_in_progress_permanent_witness :
  let p := Hooks.handler Hooks.SIGINT Hooks.initial in
  let evs := [Hooks.Raise Hooks.SIGTERM; Hooks.CleanupRejected] in
  Hooks.isShutdownInProgress (Hooks.run p evs) = true /\
  Hooks.cleanupPending (Hooks.run p evs) = Hooks.cleanupPending p.
Proof.
  cbv zeta.
  apply (shutdown_in_progress_permanent
           (Hooks.handler Hooks.SIGINT Hooks.initial)
           [Hooks.Raise Hooks.SIGTERM; Hooks.CleanupRejected]).
  reflexivity.
Defined.

Lemma force_exit_code_witness :
  Hooks.exited
    (Hooks.run Hooks.initial
       [Hooks.Raise Hooks.SIGINT; Hooks.Raise Hooks.SIGTERM; Hooks.TimerFired])
  = Some 130%Z.
Proof.
  exact (force_exit_code Hooks.initial Hooks.SIGINT [Hooks.SIGTERM]
           eq_refl eq_refl).
Defined.

Lemma matchesPattern_literal_witness :
  Glob.matchesPattern (lit "axpng") (lit "a.png") = Some false.
Proof.
  apply (matchesPattern_literal (lit "axpng") (lit "a.png")).
  vm_compute. intros H.
  repeat (destruct H as [H|H]; [discriminate H|]). exact H.
Defined.

Lemma matchesPattern_suffix_witness :
  Glob.matchesPattern (lit "shot.png") (lit "*.png") = Some true.
Proof.
  apply (matchesPattern_suffix (lit "shot.png") (lit ".png")).
  - vm_compute. intros H.
    repeat (destruct H as [H|H]; [discriminate H|]). exact H.
  - exists (lit "shot"). split; [reflexivity|].
    vm_compute. repeat constructor.
Defined.

Lemma cleanDirectory_idempotent_witness :
  let fs' := snd (Fs.cleanDirectory screenshots (Some (lit "*.png")) mixed) in
  Fs.cleanDirectory screenshots (Some (lit "*.png")) fs' = (inr 0%nat, fs').
Proof.
  cbv zeta.
  apply (cleanDirectory_idempotent screenshots (Some (lit "*.png")) mixed
           (snd (Fs.cleanDirectory screenshots (Some (lit "*.png")) mixed))
           2%nat).
  vm_compute. reflexivity.
Defined.


Lemma parseNumber_reads_decimal_witness :
  ConfigLoader.parseNumber (Some (lit "  30000ms")) 0 = 30000%Z.
Proof.
  apply (parseNumber_reads_decimal (lit "  ") (lit "ms") 30000 0%Z).
  - vm_compute. repeat constructor.
  - reflexivity.
  - reflexivity.
Defined.

Lemma response_settles_its_call_witness :
  let c := McpTestClient.run twoCalls in
  let c' := McpTestClient.handleResponse (Some toolsListed) c in
  McpTestClient.settled c !! 1%nat = None /\
  McpTestClient.settled c' !! 1%nat
  = Some (McpTestClient.Resolved toolsListed) /\
  McpTestClient.pendingRequests c' !! 2%Z = None.
Proof.
  cbv zeta.
  destruct (response_settles_its_call twoCalls toolsListed 2%Z 1%nat)
    as (H1 & H2 & _ & H4 & _).
  - vm_compute. reflexivity.
  - reflexivity.
  - split; [exact H1|]. split; [exact H2|exact H4].
Defined.


End Instances.
